(** * Hubspace integration: device state model and synchronisation

    A shallow embedding of [custom_components/hubspace] (const.py,
    hubspace.py, light.py, fan.py) and the properties of its state store,
    its push serialisation, its poll/push protocol and its light and fan
    adapters.

    Conventions of the embedding.
    - A JSON scalar held in a state value is a [Value]; floating point
      numbers are not represented.
    - A text is the sequence of its code points, one character of a
      [string] per code point, so that slices, lengths and comparisons
      count code points as Python does; the code points are those below
      256, and a text with another code point is not represented.
    - A Python [dict] whose iteration order matters is an association list
      with unique keys ([PyDict]): assigning to an existing key keeps the
      key's position, assigning to a new key appends.
    - The dict of one state entry ([{functionClass, functionInstance, value,
      lastUpdateTime}]) is the record [ValueObject]; [None] in a field means
      that the key is absent (for [functionInstance], [value] and
      [lastUpdateTime], absent and [null] read the same through [.get]).
    - Exceptions are the [Raise] results of [Result]; the state left behind
      by a raising call is not described, but for the attribute [_values]
      of a function, which [values_read] gives after a read that raises.
    - The HTTP transport and the clock are inputs: a [Transport] answers
      each request from the history of requests sent so far, and the two
      writers take the epoch second read from the clock as an argument. *)

From Stdlib Require Import ZArith List String Ascii Bool Lia.
From Stdlib Require Import DecimalString Permutation Sorted.
From Stdlib Require OrderedTypeEx.
Import ListNotations.
Open Scope string_scope.
Open Scope Z_scope.
Open Scope list_scope.


(* ================================================================= *)
(** ** Python values *)

Inductive Exn : Type :=
| TypeError
| ValueError
| AttributeError
| RequestException.

Inductive Result (A : Type) : Type :=
| Ok (a : A)
| Raise (e : Exn).

Arguments Ok {A} a.
Arguments Raise {A} e.

Definition result_bind {A B} (r : Result A) (f : A -> Result B) : Result B :=
  match r with
  | Ok a => f a
  | Raise e => Raise e
  end.

Fixpoint result_mapM {A B} (f : A -> Result B) (l : list A) : Result (list B) :=
  match l with
  | [] => Ok []
  | x :: r =>
      result_bind (f x) (fun y =>
      result_bind (result_mapM f r) (fun ys => Ok (y :: ys)))
  end.

(** The scalars a state value can hold. *)
Inductive Value : Type :=
| VNone
| VBool (b : bool)
| VInt (z : Z)
| VStr (s : string).

Definition Value_eqb (a b : Value) : bool :=
  match a, b with
  | VNone, VNone => true
  | VBool x, VBool y => Bool.eqb x y
  | VInt x, VInt y => Z.eqb x y
  | VStr x, VStr y => String.eqb x y
  | VBool x, VInt y | VInt y, VBool x => Z.eqb (if x then 1 else 0) y
  | _, _ => false
  end.

(** [bool(v)] *)
Definition py_bool (v : Value) : bool :=
  match v with
  | VNone => false
  | VBool b => b
  | VInt z => negb (Z.eqb z 0)
  | VStr s => negb (String.eqb s "")
  end.

(** [str(v)] *)
Definition py_str (v : Value) : string :=
  match v with
  | VNone => "None"
  | VBool true => "True"
  | VBool false => "False"
  | VInt z => NilZero.string_of_int (Z.to_int z)
  | VStr s => s
  end.

(** Truthiness of an [str or None]. *)
Definition str_truthy (s : option string) : bool :=
  match s with
  | Some s => negb (String.eqb s "")
  | None => false
  end.

Module PyInt.
(** [int(s)] in base ten: surrounding white space, an optional sign, then
    digits that may be separated by single underscores.  Among the code
    points of a text (those below 256) the decimal digits are 0 to 9, and
    the white space that [int] strips is U+0009 to U+000D, U+0020,
    U+0085 and U+00A0. *)

Definition is_space (c : ascii) : bool :=
  let n := nat_of_ascii c in
  (Nat.leb 9 n && Nat.leb n 13) || Nat.eqb n 32 || Nat.eqb n 133 || Nat.eqb n 160.

Definition digit_of (c : ascii) : option Z :=
  let n := Z.of_nat (nat_of_ascii c) in
  if (48 <=? n) && (n <=? 57) then Some (n - 48) else None.

Fixpoint lstrip (l : list ascii) : list ascii :=
  match l with
  | c :: r => if is_space c then lstrip r else l
  | [] => []
  end.

Definition strip (l : list ascii) : list ascii :=
  rev (lstrip (rev (lstrip l))).

Fixpoint digits (acc : Z) (after_digit : bool) (l : list ascii) : option Z :=
  match l with
  | [] => if after_digit then Some acc else None
  | c :: r =>
      match digit_of c with
      | Some d => digits (acc * 10 + d) true r
      | None =>
          if Ascii.eqb c "_" && after_digit then digits acc false r else None
      end
  end.

Definition parse (s : string) : option Z :=
  match strip (list_ascii_of_string s) with
  | [] => None
  | c :: r =>
      if Ascii.eqb c "+" then digits 0 false r
      else if Ascii.eqb c "-" then option_map Z.opp (digits 0 false r)
      else digits 0 false (c :: r)
  end.
End PyInt.

Definition py_int (s : string) : Result Z :=
  match PyInt.parse s with
  | Some z => Ok z
  | None => Raise ValueError
  end.

(** [s * n] on a string. *)
Fixpoint str_repeat (s : string) (n : nat) : string :=
  match n with
  | O => ""
  | S n => (s ++ str_repeat s n)%string
  end.

(** [s[-3:]] *)
Definition last3 (s : string) : string :=
  substring (String.length s - 3) 3 s.

(* ================================================================= *)
(** ** Insertion-ordered dictionaries *)

Module PyDict.
(** A dict is the list of its items, in insertion order. *)
Section Dict.
Variables K V : Type.
Variable eqb : K -> K -> bool.

Fixpoint get (k : K) (d : list (K * V)) : option V :=
  match d with
  | [] => None
  | (k', v) :: r => if eqb k k' then Some v else get k r
  end.

(** [d[k] = v] *)
Fixpoint set (k : K) (v : V) (d : list (K * V)) : list (K * V) :=
  match d with
  | [] => [(k, v)]
  | (k', v') :: r =>
      if eqb k k' then (k', v) :: r else (k', v') :: set k v r
  end.

Definition mem (k : K) (d : list (K * V)) : bool :=
  match get k d with Some _ => true | None => false end.

Definition keys (d : list (K * V)) : list K := map fst d.
Definition values (d : list (K * V)) : list V := map snd d.
End Dict.

Abbreviation t K V := (list (K * V)) (only parsing).

Arguments get {K V} eqb k d.
Arguments set {K V} eqb k v d.
Arguments mem {K V} eqb k d.
Arguments keys {K V} d.
Arguments values {K V} d.
End PyDict.

Definition opt_str_eqb (a b : option string) : bool :=
  match a, b with
  | Some x, Some y => String.eqb x y
  | None, None => true
  | _, _ => false
  end.

(* ================================================================= *)
(** ** const.py *)

Module FunctionClass.
Definition UNSUPPORTED := "unsupported".
Definition POWER := "power".
Definition BRIGHTNESS := "brightness".
Definition FAN_SPEED := "fan-speed".
Definition AVAILABLE := "available".
Definition TOGGLE := "toggle".
Definition COLOR_TEMPERATURE := "color-temperature".
End FunctionClass.

Definition TOGGLE_DISABLED := "disabled".
Definition TOGGLE_ENABLED := "enabled".

Definition SETTABLE_FUNCTION_CLASSES : list string :=
  [ FunctionClass.POWER;
    FunctionClass.BRIGHTNESS;
    FunctionClass.FAN_SPEED;
    FunctionClass.TOGGLE;
    FunctionClass.COLOR_TEMPERATURE ].

(** [c in SETTABLE_FUNCTION_CLASSES] *)
Definition settable (c : string) : bool :=
  existsb (String.eqb c) SETTABLE_FUNCTION_CLASSES.

(** [FunctionKey = str or tuple(str, str or None)] *)
Inductive FunctionKey : Type :=
| ClassKey (function_class : string)
| TupleKey (function_class : string) (function_instance : option string).

(* ================================================================= *)
(** ** hubspace.py: API objects *)

(** The dict of one state entry of a state payload. *)
Record ValueObject : Type := {
  functionClass : option string;
  functionInstance : option string;
  value : Value;
  lastUpdateTime : option Z
}.

(** A state payload: [{metadeviceId?, values?}].  The dict is empty when
    both keys are absent. *)
Record StateData : Type := {
  metadeviceId : option string;
  values : option (list ValueObject)
}.

(** One entry of [description.functions]; [fn_values] holds the [name] of
    each value object. *)
Record FunctionData : Type := {
  fn_functionClass : option string;
  fn_functionInstance : option string;
  fn_type : option string;
  fn_values : option (list string)
}.

(** The class of a function wrapper ([_function_class]) and of a state
    wrapper ([_state_value_class]).  The catalog ordering of
    [HubspaceLightFunction] goes through a floating point conversion of
    the platform and is not part of this development. *)
Inductive FunctionCls : Type :=
| HubspaceFunctionCls
| HubspaceFanFunctionCls.

Inductive StateValueCls : Type :=
| HubspaceStateValueCls
| HubspaceLightStateValueCls.

Record HubspaceFunction : Type := {
  fn_cls : FunctionCls;
  fn_data : FunctionData
}.

Record HubspaceStateValue : Type := {
  sv_cls : StateValueCls;
  _data : ValueObject
}.

(** [HubspaceFunctionKeyedObject]: what a wrapper must expose for
    [function_class] and [function_instance]. *)
Class HubspaceFunctionKeyedObject (A : Type) : Type := {
  data_functionClass : A -> option string;
  data_functionInstance : A -> option string
}.

#[global] Instance HubspaceFunction_keyed : HubspaceFunctionKeyedObject HubspaceFunction := {
  data_functionClass f := fn_functionClass (fn_data f);
  data_functionInstance f := fn_functionInstance (fn_data f)
}.

#[global] Instance HubspaceStateValue_keyed : HubspaceFunctionKeyedObject HubspaceStateValue := {
  data_functionClass s := functionClass (_data s);
  data_functionInstance s := functionInstance (_data s)
}.

Definition function_class {A} `{HubspaceFunctionKeyedObject A} (x : A) : string :=
  match data_functionClass x with
  | Some c => c
  | None => FunctionClass.UNSUPPORTED
  end.

Definition function_instance {A} `{HubspaceFunctionKeyedObject A} (x : A) : option string :=
  data_functionInstance x.

(* ----------------------------------------------------------------- *)
(** *** light.py: brightness conversions *)

(** [int(value * 255) // 100] *)
Definition _brightness_to_hass (v : Value) : Result Value :=
  match v with
  | VInt z => Ok (VInt (z * 255 / 100))
  | VBool b => Ok (VInt ((if b then 1 else 0) * 255 / 100))
  | VStr s => result_bind (py_int (str_repeat s 255)) (fun z => Ok (VInt (z / 100)))
  | VNone => Raise TypeError
  end.

(** [value * 100 // 255] *)
Definition _brightness_to_hubspace (v : Value) : Result Value :=
  match v with
  | VInt z => Ok (VInt (z * 100 / 255))
  | VBool b => Ok (VInt ((if b then 1 else 0) * 100 / 255))
  | VStr _ => Raise TypeError
  | VNone => Raise TypeError
  end.

(* ----------------------------------------------------------------- *)
(** *** HubspaceStateValue and HubspaceLightStateValue *)

Definition hubspace_value (s : HubspaceStateValue) : Value :=
  value (_data s).

Definition set_hubspace_value (s : HubspaceStateValue) (v : Value) : HubspaceStateValue :=
  {| sv_cls := sv_cls s;
     _data := {| functionClass := functionClass (_data s);
                 functionInstance := functionInstance (_data s);
                 value := v;
                 lastUpdateTime := lastUpdateTime (_data s) |} |}.

Definition last_update_time (s : HubspaceStateValue) : option Z :=
  lastUpdateTime (_data s).

Module Base.
(** The methods as [HubspaceStateValue] defines them. *)
Definition hass_value (s : HubspaceStateValue) : Value :=
  if String.eqb (function_class s) FunctionClass.AVAILABLE
  then VBool (py_bool (hubspace_value s))
  else hubspace_value s.

Definition set_hass_value (s : HubspaceStateValue) (v : Value) : HubspaceStateValue :=
  if String.eqb (function_class s) FunctionClass.AVAILABLE
  then set_hubspace_value s (VStr (py_str v))
  else set_hubspace_value s v.
End Base.

(** Method dispatch on the wrapper's class. *)
Definition hass_value (s : HubspaceStateValue) : Result Value :=
  match sv_cls s with
  | HubspaceStateValueCls => Ok (Base.hass_value s)
  | HubspaceLightStateValueCls =>
      if String.eqb (function_class s) FunctionClass.BRIGHTNESS
      then _brightness_to_hass (hubspace_value s)
      else Ok (Base.hass_value s)
  end.

Definition set_hass_value (s : HubspaceStateValue) (v : Value) : Result HubspaceStateValue :=
  match sv_cls s with
  | HubspaceStateValueCls => Ok (Base.set_hass_value s v)
  | HubspaceLightStateValueCls =>
      if String.eqb (function_class s) FunctionClass.BRIGHTNESS
      then result_bind (_brightness_to_hubspace v) (fun raw => Ok (set_hubspace_value s raw))
      else Ok (set_hubspace_value s v)
  end.

(* ----------------------------------------------------------------- *)
(** *** HubspaceFunction and HubspaceFanFunction *)

(** A sort key is what [_value_key] returns: the token itself, or the
    integer of its last three characters. *)
Inductive SortKey : Type :=
| KeyStr (s : string)
| KeyInt (z : Z).

(** [a < b] on keys.  One function yields keys of one kind only, so the
    mixed cases (a [TypeError] in Python) are never compared. *)
Definition key_ltb (a b : SortKey) : bool :=
  match a, b with
  | KeyInt x, KeyInt y => Z.ltb x y
  | KeyStr x, KeyStr y => String.ltb x y
  | _, _ => false
  end.

Definition _value_key (f : HubspaceFunction) (v : string) : Result SortKey :=
  match fn_cls f with
  | HubspaceFunctionCls => Ok (KeyStr v)
  | HubspaceFanFunctionCls =>
      if String.eqb (function_class f) FunctionClass.FAN_SPEED
      then result_bind (py_int (last3 v)) (fun z => Ok (KeyInt z))
      else Ok (KeyStr v)
  end.

(** [list.sort(key=...)]: the keys are computed first, then the list is
    sorted stably with [<] on the keys.  The stable order is unique, so an
    insertion sort that places each element after its equals computes it. *)
Fixpoint sort_insert {A} (x : SortKey * A) (l : list (SortKey * A)) : list (SortKey * A) :=
  match l with
  | [] => [x]
  | y :: r => if key_ltb (fst x) (fst y) then x :: y :: r else y :: sort_insert x r
  end.

Definition sort_keyed {A} (l : list (SortKey * A)) : list (SortKey * A) :=
  fold_left (fun acc x => sort_insert x acc) l [].

Definition list_sort {A} (key : A -> Result SortKey) (l : list A) : Result (list A) :=
  result_bind (result_mapM key l) (fun ks =>
  Ok (map snd (sort_keyed (combine ks l)))).

(** What the [values] property computes when the attribute [_values] of
    the function object is empty, as it is on the first read: the listed
    names, sorted by key.  [values_read] below is the property with its
    cache. *)
Definition function_values (f : HubspaceFunction) : Result (list string) :=
  let names := match fn_values (fn_data f) with Some l => l | None => [] end in
  list_sort (_value_key f) names.

(** The [values] property, read on a function object whose attribute
    [_values] is [cache] ([None], or the list an earlier read stored):
    what the read returns or raises, and the list that [_values] holds
    afterwards.  A stored list that is not empty is returned as it is.
    Otherwise the listed names are stored and then sorted in place: when
    a key raises, [list.sort] leaves the list in its order and the read
    raises, so that [_values] holds the unsorted names from then on. *)
Definition values_read (f : HubspaceFunction) (cache : option (list string))
  : Result (list string) * list string :=
  match cache with
  | Some (x :: r) => (Ok (x :: r), x :: r)
  | _ =>
      let names := match fn_values (fn_data f) with Some l => l | None => [] end in
      match list_sort (_value_key f) names with
      | Ok sorted => (Ok sorted, sorted)
      | Raise e => (Raise e, names)
      end
  end.

(** The key of a function object in the catalog. *)
Definition instance_key_eqb (a b : string * option string) : bool :=
  String.eqb (fst a) (fst b) && opt_str_eqb (snd a) (snd b).

(* ================================================================= *)
(** ** hubspace.py: HubspaceEntity *)

Abbreviation InstanceMap A := (PyDict.t (option string) A) (only parsing).
Abbreviation StateMap := (PyDict.t string (InstanceMap HubspaceStateValue)) (only parsing).
Abbreviation FunctionMap := (PyDict.t string (InstanceMap HubspaceFunction)) (only parsing).

(** The fields of an entity.  [id], [description_functions] and
    [data_state] are what [_data] holds under ["id"],
    ["description"]["functions"] and ["state"].

    A state wrapper shares its dict with the payload it was built from,
    so a local write on a map built from [_data["state"]] also shows in
    that payload.  The map holds its own copy here and [data_state] is
    not rewritten.  The two differ only where the payload is read again
    after a write, which takes a response that empties the map in
    between; the statements below say nothing of [data_state] after a
    write.

    The catalog [_functions] is a function of the description (see
    [functions] below); what changes in it is the attribute [_values] of
    its function objects.  [_functions_values] holds that attribute by
    the key (class, instance) of the object in the catalog; a key that is
    absent stands for [None]. *)
Record HubspaceEntity : Type := {
  id : option string;
  description_functions : list FunctionData;
  data_state : option StateData;
  _account_id : string;
  _refresh_token : string;
  _function_class : FunctionCls;
  _state_value_class : StateValueCls;
  _states : option StateMap;
  _skip_next_update : bool;
  _functions_values : PyDict.t (string * option string) (list string)
}.

Definition with_states (e : HubspaceEntity) (m : option StateMap) : HubspaceEntity :=
  {| id := id e;
     description_functions := description_functions e;
     data_state := data_state e;
     _account_id := _account_id e;
     _refresh_token := _refresh_token e;
     _function_class := _function_class e;
     _state_value_class := _state_value_class e;
     _states := m;
     _skip_next_update := _skip_next_update e;
     _functions_values := _functions_values e |}.

Definition with_skip_next_update (e : HubspaceEntity) (b : bool) : HubspaceEntity :=
  {| id := id e;
     description_functions := description_functions e;
     data_state := data_state e;
     _account_id := _account_id e;
     _refresh_token := _refresh_token e;
     _function_class := _function_class e;
     _state_value_class := _state_value_class e;
     _states := _states e;
     _skip_next_update := b;
     _functions_values := _functions_values e |}.

(* ----------------------------------------------------------------- *)
(** *** The outside world *)

Inductive Request : Type :=
| PostToken (refresh_token : string)
| GetState (account_id : string) (device_id : option string) (auth_token : option string)
| PutState (account_id : string) (device_id : option string) (auth_token : option string)
    (state_payload : StateData).

(** The decoded JSON body of a response. *)
Inductive Response : Type :=
| TokenJson (id_token : option string)
| StateJson (body : option StateData).

(** A transport answers a request, knowing the requests sent before it;
    [None] is a failed request. *)
Definition Transport := list Request -> Request -> option Response.

Record World : Type := {
  self : HubspaceEntity;
  sent : list Request;
  warnings : list string
}.

(** Methods run in a state and exception monad over the world. *)
Definition M (A : Type) := World -> Result (A * World).

Definition ret {A} (a : A) : M A := fun w => Ok (a, w).

Definition bind {A B} (m : M A) (f : A -> M B) : M B :=
  fun w => match m w with
           | Ok (a, w') => f a w'
           | Raise e => Raise e
           end.

Definition raise {A} (e : Exn) : M A := fun _ => Raise e.

Notation "x <- c1 ;; c2" := (bind c1 (fun x => c2))
  (at level 61, c1 at next level, right associativity).
Notation "c1 ;;; c2" := (bind c1 (fun _ => c2))
  (at level 61, right associativity).

Definition with_self (w : World) (e : HubspaceEntity) : World :=
  {| self := e; sent := sent w; warnings := warnings w |}.

Definition with_sent (w : World) (req : Request) : World :=
  {| self := self w; sent := sent w ++ [req]; warnings := warnings w |}.

Definition get_self : M HubspaceEntity := fun w => Ok (self w, w).

Definition put_self (e : HubspaceEntity) : M unit :=
  fun w => Ok (tt, with_self w e).

Definition lift {A} (r : Result A) : M A :=
  fun w => match r with Ok a => Ok (a, w) | Raise e => Raise e end.

(** [_LOGGER.warning(msg)] *)
Definition log_warning (msg : string) : M unit :=
  fun w => Ok (tt, {| self := self w; sent := sent w;
                      warnings := (warnings w ++ [msg])%list |}).

(** One HTTP round trip. *)
Definition send (T : Transport) (req : Request) : M Response :=
  fun w => match T (sent w) req with
           | Some r => Ok (r, with_sent w req)
           | None => Raise RequestException
           end.

Definition get_auth_token (T : Transport) (refresh_token : string) : M (option string) :=
  r <- send T (PostToken refresh_token) ;;
  match r with
  | TokenJson tok => ret tok
  | StateJson _ => raise AttributeError
  end.

Definition state_json (r : Response) : M (option StateData) :=
  match r with
  | StateJson body => ret body
  | TokenJson _ => raise AttributeError
  end.

(* ----------------------------------------------------------------- *)
(** *** The state store *)

(** Truthiness of a payload: a dict that is not empty. *)
Definition payload_truthy (state : option StateData) : bool :=
  match state with
  | Some p =>
      match metadeviceId p, values p with
      | None, None => false
      | _, _ => true
      end
  | None => false
  end.

(** Truthiness of [_states]: a dict that is not empty. *)
Definition states_truthy (m : option StateMap) : bool :=
  match m with
  | Some (_ :: _) => true
  | _ => false
  end.

(** [self._state_value_class(value)] *)
Definition wrap (cls : StateValueCls) (v : ValueObject) : HubspaceStateValue :=
  {| sv_cls := cls; _data := v |}.

(** One turn of the loop of [_set_state]. *)
Definition _set_state_step (cls : StateValueCls) (m : StateMap) (v : ValueObject) : StateMap :=
  let hubspace_state_value := wrap cls v in
  if negb (String.eqb (function_class hubspace_state_value) FunctionClass.UNSUPPORTED)
  then
    let m1 :=
      if negb (PyDict.mem String.eqb (function_class hubspace_state_value) m)
      then PyDict.set String.eqb (function_class hubspace_state_value) [] m
      else m in
    match PyDict.get String.eqb (function_class hubspace_state_value) m1 with
    | Some inner =>
        PyDict.set String.eqb (function_class hubspace_state_value)
          (PyDict.set opt_str_eqb (function_instance hubspace_state_value)
             hubspace_state_value inner) m1
    | None => m1
    end
  else m.

(** [state.get("values", [])] *)
Definition payload_values (state : option StateData) : list ValueObject :=
  match state with
  | Some {| values := Some l |} => l
  | _ => []
  end.

(** The map the loop of [_set_state] builds, starting from [{}]. *)
Definition parsed_states (cls : StateValueCls) (vals : list ValueObject) : StateMap :=
  fold_left (_set_state_step cls) vals [].

Definition _set_state_entity (e : HubspaceEntity) (state : option StateData) : HubspaceEntity :=
  if payload_truthy state
  then with_states e (Some (parsed_states (_state_value_class e) (payload_values state)))
  else e.

Definition _set_state (state : option StateData) : M unit :=
  e <- get_self ;;
  put_self (_set_state_entity e state).

(** The [states] property: the map is built from [_data["state"]] when
    [_states] is [None] or empty. *)
Definition states : M (option StateMap) :=
  e <- get_self ;;
  (if negb (states_truthy (_states e)) then _set_state (data_state e) else ret tt) ;;;
  e' <- get_self ;;
  ret (_states e').

(** Calling a method on what [states] returned: [None] has none. *)
Definition the_states : M StateMap :=
  m <- states ;;
  match m with
  | Some m => ret m
  | None => raise AttributeError
  end.

Definition put_states (m : StateMap) : M unit :=
  e <- get_self ;;
  put_self (with_states e (Some m)).

(** [m.get(function_class, {})] *)
Definition instances_of {A} (c : string) (m : PyDict.t string (InstanceMap A)) : InstanceMap A :=
  match PyDict.get String.eqb c m with
  | Some inner => inner
  | None => []
  end.

(** [states.get(c, {}).get(i)] on a two-level map. *)
Definition state_at {A} (c : string) (i : option string)
    (m : PyDict.t string (InstanceMap A)) : option A :=
  PyDict.get opt_str_eqb i (instances_of c m).

(** The map after the wrapper under (class, instance) has been replaced. *)
Definition write_state (c : string) (i : option string) (s : HubspaceStateValue)
    (m : StateMap) : StateMap :=
  PyDict.set String.eqb c (PyDict.set opt_str_eqb i s (instances_of c m)) m.

(** [for state in states: state.set_hass_value(value)] over the values of
    one inner dict; the wrappers are updated where they sit. *)
Fixpoint set_hass_value_all (inner : InstanceMap HubspaceStateValue) (v : Value)
  : Result (InstanceMap HubspaceStateValue) :=
  match inner with
  | [] => Ok []
  | (i, s) :: r =>
      result_bind (set_hass_value s v) (fun s' =>
      result_bind (set_hass_value_all r v) (fun r' => Ok ((i, s') :: r')))
  end.

Definition _set_state_value (key : FunctionKey) (v : Value) : M unit :=
  match key with
  | TupleKey c i =>
      m <- the_states ;;
      match state_at c i m with
      | Some state =>
          state' <- lift (set_hass_value state v) ;;
          put_states (write_state c i state' m)
      | None => ret tt
      end
  | ClassKey c =>
      m <- the_states ;;
      match PyDict.get String.eqb c m with
      | Some inner =>
          inner' <- lift (set_hass_value_all inner v) ;;
          put_states (PyDict.set String.eqb c inner' m)
      | None => ret tt
      end
  end.

Definition ambiguity_warning (function_class : string) : string :=
  ("Only expected at most one function of this FunctionClass."
   ++ function_class ++ ". Attempting to use first")%string.

Definition _get_state_value (key : FunctionKey) (default : Value) : M Value :=
  state_value <-
    match key with
    | TupleKey c i =>
        m <- the_states ;;
        ret (state_at c i m)
    | ClassKey c =>
        m <- the_states ;;
        match PyDict.values (instances_of c m) with
        | [] => ret None
        | first :: rest =>
            (match rest with
             | _ :: _ => log_warning (ambiguity_warning c)
             | [] => ret tt
             end) ;;;
            ret (Some first)
        end
    end ;;
  match state_value with
  | Some s => lift (hass_value s)
  | None => ret default
  end.

(* ----------------------------------------------------------------- *)
(** *** The synchronisation protocol *)

Definition update (T : Transport) : M unit :=
  e <- get_self ;;
  if _skip_next_update e
  then put_self (with_skip_next_update e false)
  else
    auth_token <- get_auth_token T (_refresh_token e) ;;
    state_response <- send T (GetState (_account_id e) (id e) auth_token) ;;
    body <- state_json state_response ;;
    _set_state body.

(** [value | {"lastUpdateTime": utc_time}] *)
Definition stamp (utc_time : Z) (v : ValueObject) : ValueObject :=
  {| functionClass := functionClass v;
     functionInstance := functionInstance v;
     value := value v;
     lastUpdateTime := Some utc_time |}.

Definition mark_skip_next_update : M unit :=
  e <- get_self ;;
  put_self (with_skip_next_update e true).

(** [epoch_seconds] is [calendar.timegm(date.utctimetuple())]. *)
Definition set_state (T : Transport) (epoch_seconds : Z) (vals : list ValueObject) : M unit :=
  e <- get_self ;;
  auth_token <- get_auth_token T (_refresh_token e) ;;
  let utc_time := epoch_seconds * 1000 in
  let state_payload :=
    {| metadeviceId := id e;
       values := Some (map (stamp utc_time) vals) |} in
  state_response <- send T (PutState (_account_id e) (id e) auth_token state_payload) ;;
  body <- state_json state_response ;;
  _set_state body ;;;
  mark_skip_next_update.

(** [[state for states in m.values() for state in states.values()]] *)
Definition all_states (m : StateMap) : list HubspaceStateValue :=
  flat_map (fun inner => PyDict.values inner) (PyDict.values m).

(** [v is not None] *)
Definition is_not_none (v : Value) : bool :=
  match v with
  | VNone => false
  | _ => true
  end.

(** The filter of the comprehension of [_push_state]. *)
Definition pushed (state : HubspaceStateValue) : bool :=
  is_not_none (hubspace_value state) && settable (function_class state).

(** The dict built for one state. *)
Definition push_entry (utc_time : Z) (state : HubspaceStateValue) : ValueObject :=
  {| functionClass := Some (function_class state);
     functionInstance :=
       if str_truthy (function_instance state) then function_instance state else None;
     value := hubspace_value state;
     lastUpdateTime := Some utc_time |}.

(** The ["values"] list of the payload of [_push_state]. *)
Definition push_values (utc_time : Z) (m : StateMap) : list ValueObject :=
  map (push_entry utc_time) (filter pushed (all_states m)).

Definition _push_state (T : Transport) (epoch_seconds : Z) : M unit :=
  e <- get_self ;;
  auth_token <- get_auth_token T (_refresh_token e) ;;
  let utc_time := epoch_seconds * 1000 in
  m <- the_states ;;
  let state_payload :=
    {| metadeviceId := id e;
       values := Some (push_values utc_time m) |} in
  state_response <- send T (PutState (_account_id e) (id e) auth_token state_payload) ;;
  body <- state_json state_response ;;
  _set_state body ;;;
  mark_skip_next_update.

(** The [functions] property.  The cache [_functions] is filled from the
    device description, which never changes, and refilled only while it
    is empty, when it holds no function object.  So its keys and the data
    of its function objects are the function of the description computed
    here; the attribute [_values] of the function objects, which the
    reads of [values] fill, is kept in [_functions_values]. *)
Definition _functions_step (cls : FunctionCls) (m : FunctionMap) (d : FunctionData) : FunctionMap :=
  let hubspace_function := {| fn_cls := cls; fn_data := d |} in
  let m1 :=
    if negb (PyDict.mem String.eqb (function_class hubspace_function) m)
    then PyDict.set String.eqb (function_class hubspace_function) [] m
    else m in
  match PyDict.get String.eqb (function_class hubspace_function) m1 with
  | Some inner =>
      PyDict.set String.eqb (function_class hubspace_function)
        (PyDict.set opt_str_eqb (function_instance hubspace_function)
           hubspace_function inner) m1
  | None => m1
  end.

Definition functions (e : HubspaceEntity) : FunctionMap :=
  fold_left (_functions_step (_function_class e)) (description_functions e) [].

(* ================================================================= *)
(** ** fan.py: HubspaceFanEntity *)

(** The [preset_mode] property: the first enabled toggle instance in the
    iteration order of the state map, else ["auto"]. *)
Definition enabled_toggle (function_class : string)
    (entry : option string * HubspaceStateValue) : option string :=
  match fst entry with
  | Some function_instance =>
      if String.eqb function_class FunctionClass.TOGGLE
         && Value_eqb (hubspace_value (snd entry)) (VStr "enabled")
      then Some function_instance
      else None
  | None => None
  end.

Fixpoint first_some {A B} (f : A -> option B) (l : list A) : option B :=
  match l with
  | [] => None
  | x :: r => match f x with Some y => Some y | None => first_some f r end
  end.

(** The scan of [preset_mode]: the first enabled toggle instance. *)
Definition enabled_preset (m : StateMap) : option string :=
  first_some (fun item => first_some (enabled_toggle (fst item)) (snd item)) m.

Definition preset_mode : M string :=
  m <- the_states ;;
  match enabled_preset m with
  | Some function_instance => ret function_instance
  | None => ret "auto"
  end.

(** [[i for i in function.keys() if i is not None]] *)
Fixpoint named_instances {A} (inner : InstanceMap A) : list string :=
  match inner with
  | [] => []
  | (Some i, _) :: r => i :: named_instances r
  | (None, _) :: r => named_instances r
  end.

Definition preset_modes (e : HubspaceEntity) : list string :=
  let preset_modes := flat_map (fun function => named_instances function)
                        (PyDict.values (functions e)) in
  match preset_modes with
  | [] => []
  | _ :: _ => "auto" :: preset_modes
  end.

Fixpoint for_each {A} (f : A -> M unit) (l : list A) : M unit :=
  match l with
  | [] => ret tt
  | x :: r => f x ;;; for_each f r
  end.

Definition set_preset_mode (T : Transport) (epoch_seconds : Z) (mode : string) : M unit :=
  (if String.eqb mode "auto"
   then
     e <- get_self ;;
     for_each (fun mode => _set_state_value (TupleKey FunctionClass.TOGGLE (Some mode))
                             (VStr TOGGLE_DISABLED))
       (preset_modes e)
   else
     _set_state_value (TupleKey FunctionClass.TOGGLE (Some mode)) (VStr TOGGLE_ENABLED)) ;;;
  _push_state T epoch_seconds.

(* ================================================================= *)
(** ** Notions used in the statements *)

(** The two requests of a poll. *)
Definition poll_requests (e : HubspaceEntity) (auth_token : option string) : list Request :=
  [ PostToken (_refresh_token e); GetState (_account_id e) (id e) auth_token ].

(** The entity once the [states] property has been read. *)
Definition loaded (e : HubspaceEntity) : HubspaceEntity :=
  if negb (states_truthy (_states e)) then _set_state_entity e (data_state e) else e.

(** The reading of the specification: the entry of a payload under the key
    (class, instance) is the last one listed with that class and instance,
    entries of the unsupported class (or without a class) left out. *)
Definition entry_matches (c : string) (i : option string) (v : ValueObject) : bool :=
  match functionClass v with
  | Some c' =>
      negb (String.eqb c' FunctionClass.UNSUPPORTED)
      && String.eqb c' c && opt_str_eqb (functionInstance v) i
  | None => false
  end.

Definition payload_entry (c : string) (i : option string) (vals : list ValueObject)
  : option ValueObject :=
  find (entry_matches c i) (rev vals).

(** Every wrapper of a parsed map comes from the payload, sits under its
    own class and instance, and is not of the unsupported class. *)
Definition from_payload (cls : StateValueCls) (vals : list ValueObject) (m : StateMap) : Prop :=
  forall c inner i s,
    In (c, inner) m -> In (i, s) inner ->
    function_class s = c /\ function_instance s = i
    /\ c <> FunctionClass.UNSUPPORTED
    /\ sv_cls s = cls /\ In (_data s) vals.

(** What one entry of a push must be for one state, in the words of the
    specification: the class, the raw value, the timestamp of the push, and
    the instance only when there is one. *)
Definition entry_of (utc_time : Z) (s : HubspaceStateValue) (en : ValueObject) : Prop :=
  functionClass en = Some (function_class s)
  /\ value en = hubspace_value s
  /\ lastUpdateTime en = Some utc_time
  /\ (forall i, functionInstance en = Some i -> function_instance s = Some i)
  /\ (functionInstance en = None <-> str_truthy (function_instance s) = false).

(** The body of the PUT request of a push. *)
Definition push_payload (e : HubspaceEntity) (utc_time : Z) (m : StateMap) : StateData :=
  {| metadeviceId := id e; values := Some (push_values utc_time m) |}.

(** A state value of the "available" class, held by a generic or fan
    entity ([HubspaceStateValue]) or by a light ([HubspaceLightStateValue]). *)
Definition available_state (cls : StateValueCls) (i : option string) (v : Value)
    (t : option Z) : HubspaceStateValue :=
  {| sv_cls := cls;
     _data := {| functionClass := Some FunctionClass.AVAILABLE;
                 functionInstance := i;
                 value := v;
                 lastUpdateTime := t |} |}.

(** The world after the class-only lookup has logged its warning. *)
Definition with_warning (w : World) (msg : string) : World :=
  {| self := self w; sent := sent w; warnings := warnings w ++ [msg] |}.

(* ================================================================= *)
(** ** Fan speed tokens *)

(** The number a token carries in its last three characters, when these
    are three decimal digits. *)
Definition suffix_number (s : string) : option Z :=
  match rev (list_ascii_of_string s) with
  | c3 :: c2 :: c1 :: _ =>
      match PyInt.digit_of c1, PyInt.digit_of c2, PyInt.digit_of c3 with
      | Some a, Some b, Some c => Some (100 * a + 10 * b + c)
      | _, _, _ => None
      end
  | _ => None
  end.

(** [a] comes before [b] in a list that is non-decreasing in the suffix. *)
Definition suffix_le (a b : string) : Prop :=
  exists x y, suffix_number a = Some x /\ suffix_number b = Some y /\ x <= y.

(** The same order on the keyed pairs that the sort works on. *)
Definition int_key_le {A} (p q : SortKey * A) : Prop :=
  exists x y, fst p = KeyInt x /\ fst q = KeyInt y /\ x <= y.

Definition has_int_key {A} (p : SortKey * A) : Prop :=
  exists x, fst p = KeyInt x.


(** A keyed pair of the fan-speed sort: the key is the suffix number of
    the token. *)
Definition keyed_by_suffix (p : SortKey * string) : Prop :=
  exists n, fst p = KeyInt n /\ suffix_number (snd p) = Some n.

(* ================================================================= *)
(** ** The vendor of the preset scenario *)

(** The vendor answers every token request with a token. *)
Definition grants_tokens (T : Transport) : Prop :=
  exists token_of,
    forall history refresh_token,
      T history (PostToken refresh_token)
      = Some (TokenJson (token_of history refresh_token)).

(** The vendor answers every PUT with the state it was sent. *)
Definition echoes_puts (T : Transport) : Prop :=
  forall history account_id device_id tok state_payload,
    T history (PutState account_id device_id tok state_payload)
    = Some (StateJson (Some state_payload)).

(** A map with one entry per key, each wrapper under its own class and
    instance: what [_set_state] builds, and what the local writes keep. *)
Definition well_keyed (m : StateMap) : Prop :=
  NoDup (PyDict.keys m)
  /\ forall c inner,
       In (c, inner) m ->
       NoDup (PyDict.keys inner)
       /\ forall i s,
            In (i, s) inner ->
            function_class s = c /\ function_instance s = i
            /\ c <> FunctionClass.UNSUPPORTED.

(** The raw value of the toggle state of an instance, when the map has
    one. *)
Definition toggle_value (m : StateMap) (i : option string) : option Value :=
  option_map hubspace_value (state_at FunctionClass.TOGGLE i m).

(** The toggle values of an entity, by instance. *)
Definition toggles_of (e : HubspaceEntity) (i : option string) : option Value :=
  match _states e with
  | Some m => toggle_value m i
  | None => None
  end.

(** The toggle values of the preset scenario: the instances sleep and
    eco with the given raw values, and no other toggle state. *)
Definition preset_toggles (sleep eco : string) (i : option string) : option Value :=
  if opt_str_eqb i (Some "sleep") then Some (VStr sleep)
  else if opt_str_eqb i (Some "eco") then Some (VStr eco)
  else None.

(** The loop of [set_preset_mode "auto"]. *)
Definition disable_presets (modes : list string) : M unit :=
  for_each (fun mode => _set_state_value (TupleKey FunctionClass.TOGGLE (Some mode))
                          (VStr TOGGLE_DISABLED))
    modes.

(** [mode] is one of [modes], as an instance key. *)
Definition is_mode (modes : list string) (i : option string) : bool :=
  existsb (fun mode => opt_str_eqb (Some mode) i) modes.

(* ================================================================= *)
(** ** A sample fan and sample vendors *)

Definition sample_toggle (i v : string) : ValueObject :=
  {| functionClass := Some FunctionClass.TOGGLE;
     functionInstance := Some i;
     value := VStr v;
     lastUpdateTime := Some 1650000000000 |}.

Definition sample_available : ValueObject :=
  {| functionClass := Some FunctionClass.AVAILABLE;
     functionInstance := None;
     value := VBool true;
     lastUpdateTime := Some 1650000000000 |}.

Definition sample_state : StateData :=
  {| metadeviceId := Some "fan-1";
     values := Some [ sample_toggle "sleep" "disabled";
                      sample_toggle "eco" "disabled";
                      sample_available ] |}.

Definition sample_toggle_function (i : string) : FunctionData :=
  {| fn_functionClass := Some FunctionClass.TOGGLE;
     fn_functionInstance := Some i;
     fn_type := Some "category";
     fn_values := Some [ "enabled"; "disabled" ] |}.

Definition sample_fan : HubspaceEntity :=
  {| id := Some "fan-1";
     description_functions := [ sample_toggle_function "sleep"; sample_toggle_function "eco" ];
     data_state := Some sample_state;
     _account_id := "account-1";
     _refresh_token := "refresh-1";
     _function_class := HubspaceFanFunctionCls;
     _state_value_class := HubspaceStateValueCls;
     _states := None;
     _skip_next_update := false;
     _functions_values := [] |}.

Definition sample_world : World :=
  {| self := sample_fan; sent := []; warnings := [] |}.

(** A vendor that grants a token, echoes what is put, and reports
    [sample_state] when asked. *)
Definition sample_vendor : Transport :=
  fun _ req =>
    match req with
    | PostToken _ => Some (TokenJson (Some "token-1"))
    | GetState _ _ _ => Some (StateJson (Some sample_state))
    | PutState _ _ _ state_payload => Some (StateJson (Some state_payload))
    end.


Definition sample_loaded_world : World :=
  with_self sample_world (loaded sample_fan).

Definition empty_object : option StateData :=
  Some {| metadeviceId := None; values := None |}.


(** The state map of the sample fan. *)
Definition sample_states : StateMap :=
  parsed_states HubspaceStateValueCls (payload_values (Some sample_state)).

(* ================================================================= *)
(** ** hubspace.py: the catalog lookup and the [available] property *)

(** [available]: the domain-level reading of the first state of the
    "available" class, [True] when there is none. *)
Definition available : M Value :=
  _get_state_value (ClassKey FunctionClass.AVAILABLE) (VBool true).

(** The attribute [_values] of a function object of the catalog. *)
Definition cached_values (e : HubspaceEntity) (f : HubspaceFunction)
  : option (list string) :=
  PyDict.get instance_key_eqb (function_class f, function_instance f)
    (_functions_values e).

Definition with_values (e : HubspaceEntity) (f : HubspaceFunction) (l : list string)
  : HubspaceEntity :=
  {| id := id e;
     description_functions := description_functions e;
     data_state := data_state e;
     _account_id := _account_id e;
     _refresh_token := _refresh_token e;
     _function_class := _function_class e;
     _state_value_class := _state_value_class e;
     _states := _states e;
     _skip_next_update := _skip_next_update e;
     _functions_values :=
       PyDict.set instance_key_eqb (function_class f, function_instance f) l
         (_functions_values e) |}.

(** [function.values] on a function object of the catalog.  A read that
    raises ends the run; what [_values] holds then is the second
    component of [values_read]. *)
Definition read_values (f : HubspaceFunction) : M (list string) :=
  e <- get_self ;;
  match values_read f (cached_values e f) with
  | (Ok l, cache) => put_self (with_values e f cache) ;;; ret l
  | (Raise err, _) => raise err
  end.

(** [_get_function_values]: [None] is Python's [None]; a list is what
    [function.values] returned. *)
Definition _get_function_values (key : FunctionKey) (default : option (list string))
  : M (option (list string)) :=
  e <- get_self ;;
  function <-
    match key with
    | TupleKey c i => ret (state_at c i (functions e))
    | ClassKey c =>
        match PyDict.values (instances_of c (functions e)) with
        | [] => ret None
        | first :: rest =>
            (match rest with
             | _ :: _ => log_warning (ambiguity_warning c)
             | [] => ret tt
             end) ;;;
            ret (Some first)
        end
    end ;;
  match function with
  | Some f => vs <- read_values f ;; ret (Some vs)
  | None => ret default
  end.

(* ================================================================= *)
(** ** fan.py and light.py: power and speeds *)

Section Platform.
(** [homeassistant.const.STATE_ON] and [STATE_OFF], and the [speed_count]
    of the platform's [FanEntity]: values of the platform, not of this
    code. *)
Variables STATE_ON STATE_OFF : string.
Variable FanEntity_speed_count : Z.

(** [is_on] of [HubspaceFanEntity] and of [HubspaceLight]. *)
Definition is_on : M bool :=
  v <- _get_state_value (ClassKey FunctionClass.POWER) (VStr STATE_OFF) ;;
  ret (Value_eqb v (VStr STATE_ON)).

(** [turn_off] of [HubspaceFanEntity] and of [HubspaceLight]. *)
Definition turn_off (T : Transport) (epoch_seconds : Z) : M unit :=
  _set_state_value (ClassKey FunctionClass.POWER) (VStr STATE_OFF) ;;;
  _push_state T epoch_seconds.

(** [brightness] of [HubspaceLight]. *)
Definition brightness : M Value :=
  _get_state_value (ClassKey FunctionClass.BRIGHTNESS) VNone.

(** [_fan_speed_values]: the sorted tokens without the first one. *)
Definition _fan_speed_values : M (option (list string)) :=
  fan_speed_values <- _get_function_values (ClassKey FunctionClass.FAN_SPEED) None ;;
  match fan_speed_values with
  | Some (_ :: rest) => ret (Some rest)
  | _ => ret None
  end.

(** [speed_count]: the property [_fan_speed_values] is read twice. *)
Definition speed_count : M Z :=
  c <- _fan_speed_values ;;
  match c with
  | Some (_ :: _) =>
      l <- _fan_speed_values ;;
      match l with
      | Some l => ret (Z.of_nat (List.length l))
      | None => raise TypeError
      end
  | _ => ret FanEntity_speed_count
  end.
End Platform.

(** A fan whose device payload carries no state. *)
Definition stateless_fan : HubspaceEntity :=
  {| id := Some "fan-2";
     description_functions := [ sample_toggle_function "sleep" ];
     data_state := None;
     _account_id := "account-1";
     _refresh_token := "refresh-1";
     _function_class := HubspaceFanFunctionCls;
     _state_value_class := HubspaceStateValueCls;
     _states := None;
     _skip_next_update := false;
     _functions_values := [] |}.

Definition stateless_world : World :=
  {| self := stateless_fan; sent := []; warnings := [] |}.

(* ================================================================= *)
(** ** Notions used for the catalog *)

(** [self._function_class(function)] *)
Definition wrap_function (cls : FunctionCls) (d : FunctionData) : HubspaceFunction :=
  {| fn_cls := cls; fn_data := d |}.

(** The class a listed function is filed under. *)
Definition listed_class (d : FunctionData) : string :=
  match fn_functionClass d with
  | Some c => c
  | None => FunctionClass.UNSUPPORTED
  end.

Definition function_matches (c : string) (i : option string) (d : FunctionData) : bool :=
  String.eqb (listed_class d) c && opt_str_eqb (fn_functionInstance d) i.

(** The function a description lists last with the given class and
    instance. *)
Definition catalog_entry (c : string) (i : option string) (l : list FunctionData)
  : option FunctionData :=
  find (function_matches c i) (rev l).

(** A cache as the reads that return leave it: empty, or the sorted
    values. *)
Definition clean_cache (f : HubspaceFunction) (cache : option (list string)) : Prop :=
  match cache with
  | Some (x :: r) => function_values f = Ok (x :: r)
  | _ => True
  end.

(** A function listed with the class, under another instance. *)
Definition other_instance (c : string) (i : option string) (d : FunctionData) : bool :=
  String.eqb (listed_class d) c && negb (opt_str_eqb (fn_functionInstance d) i).

(** A fan-speed function with a value that carries no number. *)
Definition unnumbered_speeds : FunctionData :=
  {| fn_functionClass := Some FunctionClass.FAN_SPEED;
     fn_functionInstance := Some "fan-speed";
     fn_type := Some "category";
     fn_values := Some [ "fan-speed-050"; "off" ] |}.

Definition numbered_speeds : FunctionData :=
  {| fn_functionClass := Some FunctionClass.FAN_SPEED;
     fn_functionInstance := Some "fan-speed";
     fn_type := Some "category";
     fn_values := Some [ "fan-speed-100"; "fan-speed-000"; "fan-speed-050" ] |}.

(** The sample fan with another device description. *)
Definition fan_with (l : list FunctionData) : World :=
  {| self := {| id := Some "fan-1";
                description_functions := l;
                data_state := Some sample_state;
                _account_id := "account-1";
                _refresh_token := "refresh-1";
                _function_class := HubspaceFanFunctionCls;
                _state_value_class := HubspaceStateValueCls;
                _states := None;
                _skip_next_update := false;
                _functions_values := [] |};
     sent := [];
     warnings := [] |}.




(** Every function of a catalog is a listed one, under its own
    instance. *)
Definition listed_under (l : list FunctionData) (m : FunctionMap) : Prop :=
  forall c inner i f,
    In (c, inner) m -> In (i, f) inner ->
    function_instance f = i /\ In (fn_data f) l.

(* ================================================================= *)
(** ** fan.py: turning on and setting the speed *)

Section FanCommands.
(** [homeassistant.const.STATE_ON] and
    [homeassistant.util.percentage.percentage_to_ordered_list_item]: a
    value and a function of the platform, not of this code.  The
    function is handed what [_fan_speed_values] returned, a list or
    [None], and returns one of the tokens or raises. *)
Variable STATE_ON : string.
Variable percentage_to_ordered_list_item : option (list string) -> Z -> Result string.

Definition turn_on (T : Transport) (epoch_seconds : Z)
    (percentage : option Z) (preset_mode : option string) : M unit :=
  _set_state_value (ClassKey FunctionClass.POWER) (VStr STATE_ON) ;;;
  (match percentage with
   | Some percentage =>
       speeds <- _fan_speed_values ;;
       item <- lift (percentage_to_ordered_list_item speeds percentage) ;;
       _set_state_value (ClassKey FunctionClass.FAN_SPEED) (VStr item)
   | None => ret tt
   end) ;;;
  (match preset_mode with
   | Some preset_mode =>
       _set_state_value (TupleKey FunctionClass.TOGGLE (Some preset_mode))
         (VStr TOGGLE_ENABLED)
   | None => ret tt
   end) ;;;
  _push_state T epoch_seconds.

Definition set_percentage (T : Transport) (epoch_seconds : Z) (percentage : Z) : M unit :=
  speeds <- _fan_speed_values ;;
  item <- lift (percentage_to_ordered_list_item speeds percentage) ;;
  _set_state_value (ClassKey FunctionClass.FAN_SPEED) (VStr item) ;;;
  _push_state T epoch_seconds.
End FanCommands.

(** What [set_preset_mode] makes of one toggle value: "auto" disables
    the toggles of the listed modes, a mode enables its own toggle. *)
Definition preset_written (modes : list string) (mode : string) (i : option string)
    (v : Value) : Value :=
  if String.eqb mode "auto"
  then if is_mode modes i then VStr TOGGLE_DISABLED else v
  else if opt_str_eqb (Some mode) i then VStr TOGGLE_ENABLED else v.

(** Every toggle state has an instance name and a value. *)
Definition toggles_named (m : StateMap) : Prop :=
  forall i v, toggle_value m i = Some v -> str_truthy i = true /\ v <> VNone.

(* ================================================================= *)
(** ** More samples *)

(** A fan that is on, with one preset, and its state map. *)
Definition sample_power_state : StateData :=
  {| metadeviceId := Some "fan-1";
     values := Some [ {| functionClass := Some FunctionClass.POWER;
                         functionInstance := Some "fan-power";
                         value := VStr "on";
                         lastUpdateTime := Some 1650000000000 |};
                      sample_toggle "sleep" "disabled";
                      sample_available ] |}.

Definition sample_power_states : StateMap :=
  parsed_states HubspaceStateValueCls (payload_values (Some sample_power_state)).

Definition sample_power_world : World :=
  {| self := {| id := Some "fan-1";
                description_functions := [ sample_toggle_function "sleep" ];
                data_state := Some sample_power_state;
                _account_id := "account-1";
                _refresh_token := "refresh-1";
                _function_class := HubspaceFanFunctionCls;
                _state_value_class := HubspaceStateValueCls;
                _states := Some sample_power_states;
                _skip_next_update := false;
                _functions_values := [] |};
     sent := [];
     warnings := [] |}.

(** A fan with three speeds, running at the middle one. *)
Definition sample_speed_state : StateData :=
  {| metadeviceId := Some "fan-1";
     values := Some [ {| functionClass := Some FunctionClass.FAN_SPEED;
                         functionInstance := Some "fan-speed";
                         value := VStr "fan-speed-050";
                         lastUpdateTime := Some 1650000000000 |};
                      sample_available ] |}.

Definition sample_speed_states : StateMap :=
  parsed_states HubspaceStateValueCls (payload_values (Some sample_speed_state)).

Definition sample_speed_world : World :=
  {| self := {| id := Some "fan-1";
                description_functions := [ numbered_speeds ];
                data_state := Some sample_speed_state;
                _account_id := "account-1";
                _refresh_token := "refresh-1";
                _function_class := HubspaceFanFunctionCls;
                _state_value_class := HubspaceStateValueCls;
                _states := Some sample_speed_states;
                _skip_next_update := false;
                _functions_values := [] |};
     sent := [];
     warnings := [] |}.

(** A stand-in for the platform's choice of a token: the last of the
    list. *)
Definition last_speed (speeds : option (list string)) (percentage : Z) : Result string :=
  match speeds with
  | Some (x :: rest) => Ok (last rest x)
  | _ => Raise ValueError
  end.

(** A light at raw brightness 40. *)
Definition sample_light_state : StateData :=
  {| metadeviceId := Some "light-1";
     values := Some [ {| functionClass := Some FunctionClass.BRIGHTNESS;
                         functionInstance := None;
                         value := VInt 40;
                         lastUpdateTime := Some 1650000000000 |} ] |}.

Definition sample_light_states : StateMap :=
  parsed_states HubspaceLightStateValueCls (payload_values (Some sample_light_state)).

Definition sample_light_world : World :=
  {| self := {| id := Some "light-1";
                description_functions := [];
                data_state := Some sample_light_state;
                _account_id := "account-1";
                _refresh_token := "refresh-1";
                _function_class := HubspaceFunctionCls;
                _state_value_class := HubspaceLightStateValueCls;
                _states := None;
                _skip_next_update := false;
                _functions_values := [] |};
     sent := [];
     warnings := [] |}.

(* ================================================================= *)
(** ** More notions used in the statements *)

(** Two entities that differ at most in the attributes [_values] of their
    function objects. *)
Definition same_but_values (e e' : HubspaceEntity) : Prop :=
  id e' = id e
  /\ description_functions e' = description_functions e
  /\ data_state e' = data_state e
  /\ _account_id e' = _account_id e
  /\ _refresh_token e' = _refresh_token e
  /\ _function_class e' = _function_class e
  /\ _state_value_class e' = _state_value_class e
  /\ _states e' = _states e
  /\ _skip_next_update e' = _skip_next_update e.

(** The states that a map holds, in the order of its iteration: the
    states of the first class by instance, then those of the next
    class. *)
Fixpoint held_states (m : StateMap) : list HubspaceStateValue :=
  match m with
  | [] => []
  | (_, inner) :: rest => map snd inner ++ held_states rest
  end.

(** A fan that holds a power state without instance, two toggles, one of
    them without value, an availability and a timer. *)
Definition sample_mixed_values : list ValueObject :=
  [ {| functionClass := Some FunctionClass.POWER;
       functionInstance := None;
       value := VStr "on";
       lastUpdateTime := Some 1650000000000 |};
    sample_toggle "eco" "enabled";
    {| functionClass := Some FunctionClass.TOGGLE;
       functionInstance := Some "sleep";
       value := VNone;
       lastUpdateTime := Some 1650000000000 |};
    sample_available;
    {| functionClass := Some "timer";
       functionInstance := None;
       value := VInt 30;
       lastUpdateTime := Some 1650000000000 |} ].

Definition sample_mixed_states : StateMap :=
  parsed_states HubspaceStateValueCls sample_mixed_values.

(** A number of Python: an [int], or a [bool] taken as 0 or 1. *)
Definition number_of (v : Value) : option Z :=
  match v with
  | VInt z => Some z
  | VBool b => Some (if b then 1 else 0)
  | _ => None
  end.

(** The brightness state of a light. *)
Definition light_brightness (s : HubspaceStateValue) : bool :=
  match sv_cls s with
  | HubspaceLightStateValueCls => String.eqb (function_class s) FunctionClass.BRIGHTNESS
  | HubspaceStateValueCls => false
  end.

(** The values that the domain-level write of a state value takes: a
    number for the brightness of a light, every value otherwise. *)
Definition takes (s : HubspaceStateValue) (v : Value) : bool :=
  if light_brightness s
  then match number_of v with Some _ => true | None => false end
  else true.

(** The raw value that the domain-level write of [v] is to leave in a
    state value: the brightness scaled to a percentage for the
    brightness of a light, the text of [v] for the "available" class of
    a generic or fan entity, and [v] itself otherwise. *)
Definition converted (s : HubspaceStateValue) (v : Value) : Value :=
  if light_brightness s
  then match number_of v with Some z => VInt (z * 100 / 255) | None => v end
  else
    match sv_cls s with
    | HubspaceStateValueCls =>
        if String.eqb (function_class s) FunctionClass.AVAILABLE
        then VStr (py_str v) else v
    | HubspaceLightStateValueCls => v
    end.

(** [s'] is [s] with the raw value [raw] and nothing else changed. *)
Definition holds_instead (raw : Value) (s s' : HubspaceStateValue) : Prop :=
  hubspace_value s' = raw
  /\ sv_cls s' = sv_cls s
  /\ function_class s' = function_class s
  /\ function_instance s' = function_instance s
  /\ last_update_time s' = last_update_time s.

(** The world after the toggles of the sample fan have been enabled by a
    local write. *)
Definition sample_written_world : World :=
  match _set_state_value (ClassKey FunctionClass.TOGGLE) (VStr TOGGLE_ENABLED) sample_world with
  | Ok (_, w) => w
  | Raise _ => sample_world
  end.

(** A light whose brightness state holds no value. *)
Definition sample_dark_state : StateData :=
  {| metadeviceId := Some "light-1";
     values := Some [ {| functionClass := Some FunctionClass.BRIGHTNESS;
                         functionInstance := None;
                         value := VNone;
                         lastUpdateTime := Some 1650000000000 |} ] |}.

Definition sample_dark_states : StateMap :=
  parsed_states HubspaceLightStateValueCls (payload_values (Some sample_dark_state)).

Definition sample_dark_world : World :=
  {| self := {| id := Some "light-1";
                description_functions := [];
                data_state := Some sample_dark_state;
                _account_id := "account-1";
                _refresh_token := "refresh-1";
                _function_class := HubspaceFunctionCls;
                _state_value_class := HubspaceLightStateValueCls;
                _states := None;
                _skip_next_update := false;
                _functions_values := [] |};
     sent := [];
     warnings := [] |}.

(** What a vendor that answers a push with what it was sent makes of a
    state: the wrapper of the entry of the state. *)
Definition echoed (cls : StateValueCls) (utc_time : Z) (s : HubspaceStateValue)
  : HubspaceStateValue :=
  wrap cls (push_entry utc_time s).

(** The state of a class that a push serialises last without a
    functionInstance field: the last one, in the iteration order of the
    class, that passes the filter of the push and has no instance or the
    empty instance name. *)
Definition last_unnamed (c : string) (m : StateMap) : option HubspaceStateValue :=
  find (fun s => pushed s && negb (str_truthy (function_instance s)))
    (rev (PyDict.values (instances_of c m))).

(** The fan with the unnumbered speed after a first read of the values of
    that function has raised: [_values] holds the listed names. *)
Definition fan_after_failed_read : World :=
  with_self (fan_with [unnumbered_speeds])
    (with_values (self (fan_with [unnumbered_speeds]))
       (wrap_function HubspaceFanFunctionCls unnumbered_speeds)
       (snd (values_read (wrap_function HubspaceFanFunctionCls unnumbered_speeds) None))).

(* ================================================================= *)
(** * Properties *)

(** ** Dictionaries *)

Section PyDictFacts.
Context {K V : Type}.
Variable eqb : K -> K -> bool.
Hypothesis eqb_eq : forall a b, eqb a b = true <-> a = b.

Lemma eqb_refl_true (a : K) : eqb a a = true.
Proof. now apply eqb_eq. Qed.

Lemma eqb_neq_false (a b : K) : a <> b -> eqb a b = false.
Proof.
  intros Hab. destruct (eqb a b) eqn:E; [|reflexivity].
  apply eqb_eq in E. contradiction.
Qed.

Lemma get_set_same (k : K) (v : V) (d : PyDict.t K V) :
  PyDict.get eqb k (PyDict.set eqb k v d) = Some v.
Proof.
  induction d as [|[k' v'] r IH]; simpl.
  - now rewrite eqb_refl_true.
  - destruct (eqb k k') eqn:E; simpl; rewrite E; [reflexivity | exact IH].
Qed.

Lemma get_set_other (k k' : K) (v : V) (d : PyDict.t K V) :
  k <> k' ->
  PyDict.get eqb k' (PyDict.set eqb k v d) = PyDict.get eqb k' d.
Proof.
  intros Hne. induction d as [|[k0 v0] r IH]; simpl.
  - rewrite eqb_neq_false; [reflexivity | congruence].
  - destruct (eqb k k0) eqn:E; simpl.
    + apply eqb_eq in E. subst k0.
      rewrite (eqb_neq_false k' k); [reflexivity | congruence].
    + now rewrite IH.
Qed.

Lemma In_set (k k0 : K) (v v0 : V) (d : PyDict.t K V) :
  In (k, v) (PyDict.set eqb k0 v0 d) -> (k = k0 /\ v = v0) \/ In (k, v) d.
Proof.
  induction d as [|[k1 v1] r IH]; simpl.
  - intros [H|[]]. injection H as <- <-. now left.
  - destruct (eqb k0 k1) eqn:E; simpl.
    + apply eqb_eq in E. subst k1.
      intros [H|H]; [injection H as <- <-; now left | right; now right].
    + intros [H|H]; [right; now left|].
      destruct (IH H) as [?|?]; [now left | right; now right].
Qed.

Lemma get_In (k : K) (v : V) (d : PyDict.t K V) :
  PyDict.get eqb k d = Some v -> In (k, v) d.
Proof.
  induction d as [|[k1 v1] r IH]; simpl; [discriminate|].
  destruct (eqb k k1) eqn:E.
  - apply eqb_eq in E. subst k1. intros H. injection H as <-. now left.
  - intros H. right. now apply IH.
Qed.

Lemma keys_set_present (k : K) (v : V) (d : PyDict.t K V) :
  PyDict.mem eqb k d = true ->
  PyDict.keys (PyDict.set eqb k v d) = PyDict.keys d.
Proof.
  unfold PyDict.mem, PyDict.keys.
  induction d as [|[k0 v0] r IH]; simpl; [discriminate|].
  destruct (eqb k k0) eqn:E; simpl; [reflexivity|].
  intros H. now rewrite IH.
Qed.
End PyDictFacts.

Lemma opt_str_eqb_eq (a b : option string) : opt_str_eqb a b = true <-> a = b.
Proof.
  destruct a as [x|], b as [y|]; simpl; try (split; congruence).
  rewrite String.eqb_eq. split; congruence.
Qed.

Lemma state_at_set_same {A} (c : string) (i : option string) (inner : InstanceMap A)
    (m : PyDict.t string (InstanceMap A)) :
  state_at c i (PyDict.set String.eqb c inner m) = PyDict.get opt_str_eqb i inner.
Proof.
  unfold state_at, instances_of.
  now rewrite (get_set_same String.eqb String.eqb_eq).
Qed.

Lemma state_at_set_other {A} (c c' : string) (i : option string) (inner : InstanceMap A)
    (m : PyDict.t string (InstanceMap A)) :
  c <> c' ->
  state_at c' i (PyDict.set String.eqb c inner m) = state_at c' i m.
Proof.
  intros Hne. unfold state_at, instances_of.
  now rewrite (get_set_other String.eqb String.eqb_eq).
Qed.

(** ** The state store: [_set_state] *)

Lemma with_self_self (w : World) : with_self w (self w) = w.
Proof. now destruct w. Qed.

Lemma _set_state_run (state : option StateData) (w : World) :
  _set_state state w = Ok (tt, with_self w (_set_state_entity (self w) state)).
Proof. reflexivity. Qed.

Lemma _set_state_entity_truthy (e : HubspaceEntity) (state : option StateData) :
  payload_truthy state = true ->
  _set_state_entity e state
  = with_states e (Some (parsed_states (_state_value_class e) (payload_values state))).
Proof.
  intros H. unfold _set_state_entity. rewrite H.
  destruct state as [[mid [l|]]|]; reflexivity.
Qed.

Lemma _set_state_entity_falsy (e : HubspaceEntity) (state : option StateData) :
  payload_truthy state = false -> _set_state_entity e state = e.
Proof. intros H. unfold _set_state_entity. now rewrite H. Qed.

Lemma states_run (w : World) :
  states w = Ok (_states (loaded (self w)), with_self w (loaded (self w))).
Proof.
  unfold states, loaded, bind, get_self, ret.
  destruct (negb (states_truthy (_states (self w)))); simpl.
  - reflexivity.
  - now rewrite with_self_self.
Qed.

Lemma the_states_run (w : World) :
  the_states w
  = match _states (loaded (self w)) with
    | Some m => Ok (m, with_self w (loaded (self w)))
    | None => Raise AttributeError
    end.
Proof.
  unfold the_states, bind. rewrite states_run.
  now destruct (_states (loaded (self w))).
Qed.

(** Reading [states] twice reads the same map: the entity is loaded once. *)
Lemma loaded_idem (e : HubspaceEntity) : loaded (loaded e) = loaded e.
Proof.
  unfold loaded.
  destruct (states_truthy (_states e)) eqn:Ht; simpl.
  - now rewrite Ht.
  - destruct (payload_truthy (data_state e)) eqn:Hp.
    + rewrite (_set_state_entity_truthy e _ Hp).
      destruct (negb _); [|reflexivity].
      simpl. now rewrite (_set_state_entity_truthy _ _ Hp).
    + rewrite (_set_state_entity_falsy e _ Hp), Ht. simpl.
      now apply _set_state_entity_falsy.
Qed.

(** One turn of the loop, seen through the lookup. *)
Lemma _set_state_step_at (cls : StateValueCls) (m : StateMap) (v : ValueObject)
    (c : string) (i : option string) :
  state_at c i (_set_state_step cls m v)
  = if entry_matches c i v then Some (wrap cls v)
    else state_at c i m.
Proof.
  unfold _set_state_step, entry_matches, function_class, function_instance; simpl.
  destruct (functionClass v) as [c0|] eqn:Hc; simpl; [|reflexivity].
  destruct (String.eqb c0 FunctionClass.UNSUPPORTED) eqn:Hu; simpl; [reflexivity|].
  set (sv := wrap cls v).
  unfold PyDict.mem.
  destruct (PyDict.get String.eqb c0 m) as [inner|] eqn:Hget; simpl.
  - destruct (String.eqb c0 c) eqn:Hcc; simpl; rewrite ?Hget.
    + apply String.eqb_eq in Hcc. subst c.
      rewrite state_at_set_same.
      destruct (opt_str_eqb (functionInstance v) i) eqn:Hi.
      * apply opt_str_eqb_eq in Hi. subst i.
        apply (get_set_same opt_str_eqb opt_str_eqb_eq).
      * rewrite (get_set_other opt_str_eqb opt_str_eqb_eq).
        -- unfold state_at, instances_of. now rewrite Hget.
        -- intros E. apply opt_str_eqb_eq in E. congruence.
    + apply String.eqb_neq in Hcc. now apply state_at_set_other.
  - rewrite (get_set_same String.eqb String.eqb_eq).
    destruct (String.eqb c0 c) eqn:Hcc; simpl.
    + apply String.eqb_eq in Hcc. subst c.
      rewrite state_at_set_same. simpl.
      destruct (opt_str_eqb (functionInstance v) i) eqn:Hi.
      * apply opt_str_eqb_eq in Hi. subst i.
        now rewrite (eqb_refl_true opt_str_eqb opt_str_eqb_eq).
      * assert (Hi' : opt_str_eqb i (functionInstance v) = false).
        { destruct (opt_str_eqb i (functionInstance v)) eqn:E; [|reflexivity].
          apply opt_str_eqb_eq in E. subst i.
          now rewrite (eqb_refl_true opt_str_eqb opt_str_eqb_eq) in Hi. }
        rewrite Hi'. unfold state_at, instances_of. now rewrite Hget.
    + apply String.eqb_neq in Hcc.
      rewrite state_at_set_other by assumption.
      now apply state_at_set_other.
Qed.

Lemma parsed_states_from (cls : StateValueCls) (vals : list ValueObject) (m : StateMap)
    (c : string) (i : option string) :
  state_at c i (fold_left (_set_state_step cls) vals m)
  = match find (entry_matches c i) (rev vals) with
    | Some v => Some (wrap cls v)
    | None => state_at c i m
    end.
Proof.
  induction vals as [|x l IH] using rev_ind; [reflexivity|].
  rewrite fold_left_app, rev_app_distr. simpl.
  rewrite _set_state_step_at.
  destruct (entry_matches c i x); [reflexivity | exact IH].
Qed.

(** ** The synchronisation protocol *)

Lemma bind_ok {A B} (m : M A) (f : A -> M B) (w w' : World) (b : B) :
  bind m f w = Ok (b, w') ->
  exists a w1, m w = Ok (a, w1) /\ f a w1 = Ok (b, w').
Proof.
  unfold bind. destruct (m w) as [[a w1]|e]; [|discriminate].
  intros H. now exists a, w1.
Qed.

Lemma get_self_ok (w w1 : World) (e : HubspaceEntity) :
  get_self w = Ok (e, w1) -> e = self w /\ w1 = w.
Proof. unfold get_self. intros H. injection H as <- <-. now split. Qed.

Lemma send_ok (T : Transport) (req : Request) (w w1 : World) (r : Response) :
  send T req w = Ok (r, w1) ->
  T (sent w) req = Some r /\ w1 = with_sent w req.
Proof.
  unfold send. destruct (T (sent w) req); [|discriminate].
  intros H. injection H as <- <-. now split.
Qed.

Lemma get_auth_token_ok (T : Transport) (rt : string) (w w1 : World) (tok : option string) :
  get_auth_token T rt w = Ok (tok, w1) ->
  T (sent w) (PostToken rt) = Some (TokenJson tok) /\ w1 = with_sent w (PostToken rt).
Proof.
  unfold get_auth_token. intros H.
  apply bind_ok in H. destruct H as (r & w2 & Hs & H).
  apply send_ok in Hs. destruct Hs as [Hs ->].
  destruct r; [|discriminate].
  unfold ret in H. injection H as <- <-. now split.
Qed.

Lemma state_json_ok (r : Response) (w w1 : World) (body : option StateData) :
  state_json r w = Ok (body, w1) -> r = StateJson body /\ w1 = w.
Proof.
  destruct r; simpl; [discriminate|].
  unfold ret. intros H. injection H as <- <-. now split.
Qed.

Lemma the_states_ok (w w1 : World) (m : StateMap) :
  the_states w = Ok (m, w1) ->
  _states (loaded (self w)) = Some m /\ w1 = with_self w (loaded (self w)).
Proof.
  rewrite the_states_run.
  destruct (_states (loaded (self w))); [|discriminate].
  intros H. injection H as <- <-. now split.
Qed.


Ltac inv_step H Hm :=
  let a := fresh "a" in
  let w := fresh "w" in
  apply bind_ok in H; destruct H as (a & w & Hm & H).


Lemma update_fetched (T : Transport) (w : World) (tok : option string)
    (body : option StateData) :
  _skip_next_update (self w) = false ->
  T (sent w) (PostToken (_refresh_token (self w))) = Some (TokenJson tok) ->
  T (sent w ++ [PostToken (_refresh_token (self w))])
    (GetState (_account_id (self w)) (id (self w)) tok) = Some (StateJson body) ->
  update T w
  = Ok (tt, {| self := _set_state_entity (self w) body;
               sent := sent w ++ poll_requests (self w) tok;
               warnings := warnings w |}).
Proof.
  intros Hs Ht Hg.
  unfold update, bind, get_self. rewrite Hs.
  unfold get_auth_token, bind, send. rewrite Ht. simpl. rewrite Hg. simpl.
  unfold _set_state, bind, get_self, put_self, with_self. simpl.
  now rewrite <- app_assoc.
Qed.




Lemma _set_state_step_from_payload (cls : StateValueCls) (vals : list ValueObject)
    (m : StateMap) (v : ValueObject) :
  In v vals -> from_payload cls vals m -> from_payload cls vals (_set_state_step cls m v).
Proof.
  intros Hv Hm. unfold _set_state_step.
  set (sv := wrap cls v).
  destruct (String.eqb (function_class sv) FunctionClass.UNSUPPORTED) eqn:Hu;
    simpl; [exact Hm|].
  apply String.eqb_neq in Hu.
  assert (Hm1 : from_payload cls vals
                  (if negb (PyDict.mem String.eqb (function_class sv) m)
                   then PyDict.set String.eqb (function_class sv) [] m else m)).
  { destruct (negb _); [|exact Hm].
    intros c inner i s Hin Hs.
    apply (In_set String.eqb String.eqb_eq) in Hin as [[-> ->]|Hin]; [destruct Hs|].
    eapply Hm; eassumption. }
  destruct (PyDict.get String.eqb (function_class sv) _) as [inner0|] eqn:Hget;
    [|exact Hm1].
  apply (get_In String.eqb String.eqb_eq) in Hget.
  intros c inner i s Hin Hs.
  apply (In_set String.eqb String.eqb_eq) in Hin as [[-> ->]|Hin].
  - apply (In_set opt_str_eqb opt_str_eqb_eq) in Hs as [[-> ->]|Hs].
    + repeat split; try reflexivity; assumption.
    + eapply Hm1; eassumption.
  - eapply Hm1; eassumption.
Qed.

Lemma parsed_states_from_payload (cls : StateValueCls) (vals : list ValueObject) :
  from_payload cls vals (parsed_states cls vals).
Proof.
  unfold parsed_states.
  assert (H : forall l m, incl l vals -> from_payload cls vals m ->
                          from_payload cls vals (fold_left (_set_state_step cls) l m)).
  { induction l as [|x l IH]; intros m Hl Hm; [exact Hm|].
    simpl. apply IH.
    - intros y Hy. apply Hl. now right.
    - apply _set_state_step_from_payload; [apply Hl; now left | exact Hm]. }
  apply H; [apply incl_refl|].
  intros c inner i s [].
Qed.

Lemma In_all_states (m : StateMap) (s : HubspaceStateValue) :
  In s (all_states m) <-> exists c inner i, In (c, inner) m /\ In (i, s) inner.
Proof.
  unfold all_states, PyDict.values. rewrite in_flat_map. split.
  - intros (inner & Hin & Hs).
    apply in_map_iff in Hin as ([c inner'] & <- & Hin).
    apply in_map_iff in Hs as ([i s'] & <- & Hs).
    now exists c, inner', i.
  - intros (c & inner & i & Hin & Hs).
    exists inner. split.
    + apply in_map_iff. now exists (c, inner).
    + apply in_map_iff. now exists (i, s).
Qed.

Lemma set_state_run (T : Transport) (t : Z) (vals : list ValueObject) (w : World)
    (tok : option string) (body : option StateData) :
  T (sent w) (PostToken (_refresh_token (self w))) = Some (TokenJson tok) ->
  T (sent w ++ [PostToken (_refresh_token (self w))])
    (PutState (_account_id (self w)) (id (self w)) tok
       {| metadeviceId := id (self w);
          values := Some (map (stamp (t * 1000)) vals) |})
  = Some (StateJson body) ->
  set_state T t vals w
  = Ok (tt, {| self := with_skip_next_update (_set_state_entity (self w) body) true;
               sent := sent w
                       ++ [ PostToken (_refresh_token (self w));
                            PutState (_account_id (self w)) (id (self w)) tok
                              {| metadeviceId := id (self w);
                                 values := Some (map (stamp (t * 1000)) vals) |} ];
               warnings := warnings w |}).
Proof.
  intros Ht Hp.
  unfold set_state, bind, get_self.
  unfold get_auth_token, bind, send. rewrite Ht. simpl. rewrite Hp. simpl.
  unfold _set_state, mark_skip_next_update, bind, get_self, put_self, with_self. simpl.
  now rewrite <- app_assoc.
Qed.

Lemma _push_state_run (T : Transport) (t : Z) (w : World)
    (tok : option string) (m : StateMap) (body : option StateData) :
  T (sent w) (PostToken (_refresh_token (self w))) = Some (TokenJson tok) ->
  _states (loaded (self w)) = Some m ->
  T (sent w ++ [PostToken (_refresh_token (self w))])
    (PutState (_account_id (self w)) (id (self w)) tok
       {| metadeviceId := id (self w);
          values := Some (push_values (t * 1000) m) |})
  = Some (StateJson body) ->
  _push_state T t w
  = Ok (tt, {| self := with_skip_next_update
                         (_set_state_entity (loaded (self w)) body) true;
               sent := sent w
                       ++ [ PostToken (_refresh_token (self w));
                            PutState (_account_id (self w)) (id (self w)) tok
                              {| metadeviceId := id (self w);
                                 values := Some (push_values (t * 1000) m) |} ];
               warnings := warnings w |}).
Proof.
  intros Ht Hm Hp.
  unfold _push_state, bind, get_self.
  unfold get_auth_token, bind, send. rewrite Ht. simpl.
  rewrite the_states_run. simpl. rewrite Hm. simpl. rewrite Hp. simpl.
  unfold _set_state, mark_skip_next_update, bind, get_self, put_self, with_self. simpl.
  now rewrite <- app_assoc.
Qed.

(** ** Empty and non-empty payloads, and the poll after a push *)

(** C10. Applying a state payload that is absent or empty (a falsy value:
    [None] or the empty object) leaves the local StateValue map, and the
    whole entity, unchanged: [_set_state] returns the world it was given.
    Hence a poll whose response body is empty keeps the entity as it was,
    a push whose response body is empty keeps the map the push read, and
    a direct state write whose response body is empty keeps the map. *)
Theorem empty_payload_keeps_state_map (state : option StateData) (w : World) :
  payload_truthy state = false ->
  _set_state state w = Ok (tt, w)
  /\ (forall T tok,
        _skip_next_update (self w) = false ->
        T (sent w) (PostToken (_refresh_token (self w))) = Some (TokenJson tok) ->
        T (sent w ++ [PostToken (_refresh_token (self w))])
          (GetState (_account_id (self w)) (id (self w)) tok) = Some (StateJson state) ->
        exists w', update T w = Ok (tt, w') /\ self w' = self w)
  /\ (forall T t tok m,
        T (sent w) (PostToken (_refresh_token (self w))) = Some (TokenJson tok) ->
        _states (loaded (self w)) = Some m ->
        T (sent w ++ [PostToken (_refresh_token (self w))])
          (PutState (_account_id (self w)) (id (self w)) tok
             {| metadeviceId := id (self w);
                values := Some (push_values (t * 1000) m) |}) = Some (StateJson state) ->
        exists w', _push_state T t w = Ok (tt, w') /\ _states (self w') = Some m)
  /\ (forall T t vals tok,
        T (sent w) (PostToken (_refresh_token (self w))) = Some (TokenJson tok) ->
        T (sent w ++ [PostToken (_refresh_token (self w))])
          (PutState (_account_id (self w)) (id (self w)) tok
             {| metadeviceId := id (self w);
                values := Some (map (stamp (t * 1000)) vals) |}) = Some (StateJson state) ->
        exists w', set_state T t vals w = Ok (tt, w') /\ _states (self w') = _states (self w)).
Proof.
  intros Hf. split; [|split; [|split]].
  4:{ intros T t vals tok Ht Hp.
      rewrite (set_state_run T t vals w tok state Ht Hp).
      eexists. split; [reflexivity|]. simpl.
      now rewrite _set_state_entity_falsy. }
  - rewrite _set_state_run, _set_state_entity_falsy by exact Hf.
    now rewrite with_self_self.
  - intros T tok Hs Ht Hg.
    rewrite (update_fetched T w tok state Hs Ht Hg).
    eexists. split; [reflexivity|]. simpl.
    now apply _set_state_entity_falsy.
  - intros T t tok m Ht Hm Hp.
    rewrite (_push_state_run T t w tok m state Ht Hm Hp).
    eexists. split; [reflexivity|]. simpl.
    now rewrite _set_state_entity_falsy.
Qed.

Lemma empty_payload_keeps_state_map_witness :
  payload_truthy empty_object = false
  /\ _set_state empty_object sample_loaded_world = Ok (tt, sample_loaded_world).
Proof.
  split; [reflexivity|].
  exact (proj1 (empty_payload_keeps_state_map empty_object sample_loaded_world eq_refl)).
Defined.

(** C5. For a non-empty state payload, [_set_state] replaces the whole
    local StateValue map of the entity by the map parsed from the payload
    alone: afterwards [_states] holds, under each key
    (functionClass, functionInstance), the payload's entry for that key,
    the last one listed when the payload repeats a key, wrapped in the
    state value class of the entity, and nothing under a key for which
    the payload has no entry, whatever the previous map held there.
    Every state of the new map is filed under its own class and instance
    and comes from the payload; entries of the "unsupported" class, among
    them the entries without a functionClass field, are in no place of
    the new map.  Nothing else of the entity changes and nothing is
    sent. *)
Theorem set_state_replaces_whole_map (state : option StateData) (w : World) :
  payload_truthy state = true ->
  let cls := _state_value_class (self w) in
  exists w' m',
    _set_state state w = Ok (tt, w')
    /\ _states (self w') = Some m'
    /\ m' = parsed_states cls (payload_values state)
    /\ (forall c i,
          state_at c i m'
          = option_map (wrap cls) (payload_entry c i (payload_values state)))
    /\ (forall m0 c i s,
          _states (self w) = Some m0 ->
          state_at c i m0 = Some s ->
          payload_entry c i (payload_values state) = None ->
          state_at c i m' = None)
    /\ (forall c i v,
          payload_entry c i (payload_values state) = Some v ->
          functionClass v = Some c
          /\ functionInstance v = i
          /\ c <> FunctionClass.UNSUPPORTED
          /\ In v (payload_values state))
    /\ (forall c inner i s,
          In (c, inner) m' -> In (i, s) inner ->
          function_class s = c
          /\ function_instance s = i
          /\ c <> FunctionClass.UNSUPPORTED
          /\ functionClass (_data s) <> None
          /\ sv_cls s = cls
          /\ In (_data s) (payload_values state))
    /\ (forall i, state_at FunctionClass.UNSUPPORTED i m' = None)
    /\ id (self w') = id (self w)
    /\ data_state (self w') = data_state (self w)
    /\ _state_value_class (self w') = _state_value_class (self w)
    /\ _skip_next_update (self w') = _skip_next_update (self w)
    /\ sent w' = sent w
    /\ warnings w' = warnings w.
Proof.
  intros Ht cls.
  assert (Hentry : forall c i v,
             payload_entry c i (payload_values state) = Some v ->
             functionClass v = Some c
             /\ functionInstance v = i
             /\ c <> FunctionClass.UNSUPPORTED
             /\ In v (payload_values state)).
  { intros c i v Hf. unfold payload_entry in Hf.
    apply find_some in Hf as [Hin Hmatch]. apply in_rev in Hin.
    unfold entry_matches in Hmatch.
    destruct (functionClass v) as [c'|]; [|discriminate].
    apply andb_true_iff in Hmatch as [Hmatch Hi].
    apply andb_true_iff in Hmatch as [Hu Hc].
    apply String.eqb_eq in Hc. subst c'.
    apply opt_str_eqb_eq in Hi.
    apply negb_true_iff, String.eqb_neq in Hu.
    now repeat split. }
  assert (Hat : forall c i,
             state_at c i (parsed_states cls (payload_values state))
             = option_map (wrap cls) (payload_entry c i (payload_values state))).
  { intros c i. unfold parsed_states, payload_entry.
    rewrite parsed_states_from. now destruct (find _ _). }
  exists (with_self w (with_states (self w)
                         (Some (parsed_states cls (payload_values state))))),
    (parsed_states cls (payload_values state)).
  split.
  { rewrite _set_state_run. now rewrite _set_state_entity_truthy. }
  split; [reflexivity|]. split; [reflexivity|]. split; [exact Hat|].
  split.
  { intros m0 c i s _ _ Hnone. now rewrite Hat, Hnone. }
  split; [exact Hentry|]. split; [|split].
  - intros c inner i s Hin Hs.
    destruct (parsed_states_from_payload cls (payload_values state) c inner i s Hin Hs)
      as (Hc & Hi & Hu & Hcls & Hv).
    split; [exact Hc|]. split; [exact Hi|]. split; [exact Hu|].
    split; [|split; [exact Hcls | exact Hv]].
    intros Hn. apply Hu. rewrite <- Hc.
    unfold function_class. simpl. now rewrite Hn.
  - intros i. rewrite Hat.
    destruct (payload_entry _ i _) as [v|] eqn:Hf; [|reflexivity].
    now destruct (Hentry _ _ _ Hf) as (_ & _ & Hu & _).
  - now repeat split.
Qed.

Lemma set_state_replaces_whole_map_witness :
  (payload_truthy (Some sample_state) = true
   /\ _states (self sample_power_world) = Some sample_power_states
   /\ state_at FunctionClass.POWER (Some "fan-power") sample_power_states
      = Some (wrap HubspaceStateValueCls
                {| functionClass := Some FunctionClass.POWER;
                   functionInstance := Some "fan-power";
                   value := VStr "on";
                   lastUpdateTime := Some 1650000000000 |}))
  /\ exists w' m',
       _set_state (Some sample_state) sample_power_world = Ok (tt, w')
       /\ _states (self w') = Some m'
       /\ state_at FunctionClass.POWER (Some "fan-power") m' = None
       /\ state_at FunctionClass.TOGGLE (Some "eco") m'
          = Some (wrap HubspaceStateValueCls (sample_toggle "eco" "disabled")).
Proof.
  split; [now repeat split|].
  destruct (set_state_replaces_whole_map (Some sample_state) sample_power_world eq_refl)
    as (w' & m' & Hrun & Hst & _ & Hat & Hgone & _).
  exists w', m'. split; [exact Hrun|]. split; [exact Hst|]. split.
  - exact (Hgone sample_power_states FunctionClass.POWER (Some "fan-power") _
             eq_refl eq_refl eq_refl).
  - exact (Hat FunctionClass.TOGGLE (Some "eco")).
Defined.



(** ** The push serialisation *)

Lemma settable_In (c : string) : settable c = true <-> In c SETTABLE_FUNCTION_CLASSES.
Proof.
  unfold settable. rewrite existsb_exists. split.
  - intros (x & Hx & E). apply String.eqb_eq in E. now subst.
  - intros H. exists c. split; [exact H | apply String.eqb_refl].
Qed.

Lemma pushed_spec (s : HubspaceStateValue) :
  pushed s = true
  <-> hubspace_value s <> VNone /\ In (function_class s) SETTABLE_FUNCTION_CLASSES.
Proof.
  unfold pushed. rewrite andb_true_iff, settable_In.
  destruct (hubspace_value s); simpl; intuition congruence.
Qed.

Lemma push_entry_entry_of (utc_time : Z) (s : HubspaceStateValue) :
  entry_of utc_time s (push_entry utc_time s).
Proof.
  unfold entry_of, push_entry, function_instance. simpl.
  split; [reflexivity|]. split; [reflexivity|]. split; [reflexivity|].
  destruct (str_truthy (functionInstance (_data s))) eqn:Ht.
  - split; [trivial|]. split; [|discriminate].
    intros H. rewrite H in Ht. discriminate.
  - split; [discriminate|]. now split.
Qed.

Lemma _push_state_inv (T : Transport) (t : Z) (w w' : World) :
  _push_state T t w = Ok (tt, w') ->
  exists tok m,
    _states (loaded (self w)) = Some m
    /\ sent w' = sent w ++ [ PostToken (_refresh_token (self w));
                             PutState (_account_id (self w)) (id (self w)) tok
                               (push_payload (self w) (t * 1000) m) ].
Proof.
  intros H. unfold _push_state in H.
  inv_step H H1. apply get_self_ok in H1 as [-> ->].
  inv_step H H1. apply get_auth_token_ok in H1 as [Ht ->].
  inv_step H H1. apply the_states_ok in H1 as [Hmap ->].
  inv_step H H1. apply send_ok in H1 as [Hp ->].
  inv_step H H1. apply state_json_ok in H1 as [-> ->].
  inv_step H H1. rewrite _set_state_run in H1. injection H1 as _ <-.
  unfold mark_skip_next_update, bind, get_self, put_self in H.
  injection H as <-. unfold with_sent, with_self in *. simpl in *.
  eexists _, _. split; [exact Hmap|].
  unfold push_payload. now rewrite <- app_assoc.
Qed.

Lemma push_values_cons (utc_time : Z) (c : string)
    (inner : InstanceMap HubspaceStateValue) (rest : StateMap) :
  push_values utc_time ((c, inner) :: rest)
  = map (push_entry utc_time) (filter pushed (map snd inner))
    ++ push_values utc_time rest.
Proof.
  unfold push_values, all_states, PyDict.values. simpl.
  now rewrite filter_app, map_app.
Qed.

Lemma all_states_held (m : StateMap) : all_states m = held_states m.
Proof.
  unfold all_states, PyDict.values.
  induction m as [|[c inner] rest IH]; simpl; [reflexivity|].
  now rewrite IH.
Qed.

Lemma In_held_states (m : StateMap) (s : HubspaceStateValue) :
  In s (held_states m) <-> exists c inner i, In (c, inner) m /\ In (i, s) inner.
Proof.
  induction m as [|[c inner] rest IH]; simpl.
  - split; [intros [] | intros (c & inner & i & [] & _)].
  - rewrite in_app_iff, IH, in_map_iff. split.
    + intros [([i s'] & E & Hin)|(c' & inner' & i & Hin & Hs)].
      * simpl in E. subst s'. exists c, inner, i. split; [now left | exact Hin].
      * exists c', inner', i. split; [now right | exact Hs].
    + intros (c' & inner' & i & [E|Hin] & Hs).
      * injection E as <- <-. left. now exists (i, s).
      * right. now exists c', inner', i.
Qed.

(** C2. The value list of a push holds exactly one entry per StateValue
    of the map whose raw value is not null and whose class is in the
    settable allow-list, in the iteration order of the map: the list is
    empty for the empty map and is, for a map that starts with a class,
    the entries of the states held under that class that pass the
    filter, followed by the list of the rest of the map; so it matches,
    entry by entry, the states that the map holds and that pass the
    filter, every such state has its entry and every entry comes from
    such a state.  Each entry carries the class, the raw value, the one
    timestamp of the push, and the functionInstance field only when the
    state has an instance (an empty instance string counts as none).  A
    state of class "available", or with a null value, has no entry.
    This list is the body of the PUT request that [_push_state] sends. *)
Theorem push_serialises_settable_states (utc_time : Z) (m : StateMap) :
  push_values utc_time [] = []
  /\ (forall c inner rest,
        push_values utc_time ((c, inner) :: rest)
        = map (push_entry utc_time) (filter pushed (map snd inner))
          ++ push_values utc_time rest)
  /\ Forall2 (entry_of utc_time) (filter pushed (held_states m)) (push_values utc_time m)
  /\ (forall s,
        In s (held_states m)
        <-> exists c inner i, In (c, inner) m /\ In (i, s) inner)
  /\ (forall c inner i s,
        In (c, inner) m -> In (i, s) inner -> pushed s = true ->
        exists en, In en (push_values utc_time m) /\ entry_of utc_time s en)
  /\ (forall en,
        In en (push_values utc_time m) ->
        exists c inner i s,
          In (c, inner) m /\ In (i, s) inner /\ pushed s = true
          /\ entry_of utc_time s en)
  /\ (forall s,
        pushed s = true
        <-> hubspace_value s <> VNone
            /\ In (function_class s)
                 [ FunctionClass.POWER; FunctionClass.BRIGHTNESS; FunctionClass.FAN_SPEED;
                   FunctionClass.TOGGLE; FunctionClass.COLOR_TEMPERATURE ])
  /\ (forall en,
        In en (push_values utc_time m) ->
        value en <> VNone
        /\ functionClass en <> Some FunctionClass.AVAILABLE
        /\ lastUpdateTime en = Some utc_time)
  /\ (forall s,
        function_class s = FunctionClass.AVAILABLE \/ hubspace_value s = VNone ->
        pushed s = false)
  /\ (forall T t w w',
        _push_state T t w = Ok (tt, w') ->
        exists tok m0,
          _states (loaded (self w)) = Some m0
          /\ sent w' = sent w ++ [ PostToken (_refresh_token (self w));
                                   PutState (_account_id (self w)) (id (self w)) tok
                                     {| metadeviceId := id (self w);
                                        values := Some (push_values (t * 1000) m0) |} ]).
Proof.
  split; [reflexivity|]. split; [intros c inner rest; apply push_values_cons|].
  split; [|split; [intros s; apply In_held_states|]].
  { unfold push_values. rewrite all_states_held.
    induction (filter pushed (held_states m)) as [|s l IH]; simpl; constructor.
    - apply push_entry_entry_of.
    - exact IH. }
  split; [|split; [|split; [|split; [|split]]]].
  - intros c inner i s Hc Hi Hp. exists (push_entry utc_time s).
    split; [|apply push_entry_entry_of].
    unfold push_values. apply in_map, filter_In. split; [|exact Hp].
    rewrite all_states_held. apply In_held_states. now exists c, inner, i.
  - intros en Hin. unfold push_values in Hin.
    apply in_map_iff in Hin as (s & <- & Hs).
    apply filter_In in Hs as [Hs Hp].
    rewrite all_states_held in Hs.
    apply In_held_states in Hs as (c & inner & i & Hc & Hi).
    exists c, inner, i, s.
    split; [exact Hc|]. split; [exact Hi|]. split; [exact Hp|].
    apply push_entry_entry_of.
  - intros s. apply pushed_spec.
  - intros en Hin. unfold push_values in Hin.
    apply in_map_iff in Hin as (s & <- & Hs).
    apply filter_In in Hs as [_ Hs].
    apply pushed_spec in Hs as [Hv Hc]. simpl.
    repeat split; [exact Hv|].
    intros E. injection E as E. rewrite E in Hc.
    simpl in Hc. intuition discriminate.
  - intros s [Hc|Hv]; unfold pushed.
    + rewrite Hc. apply andb_false_r.
    + now rewrite Hv.
  - intros T t w w' H. exact (_push_state_inv T t w w' H).
Qed.

Lemma push_serialises_settable_states_witness :
  push_values 1650000001000 sample_mixed_states
  = [ {| functionClass := Some FunctionClass.POWER;
         functionInstance := None;
         value := VStr "on";
         lastUpdateTime := Some 1650000001000 |};
      {| functionClass := Some FunctionClass.TOGGLE;
         functionInstance := Some "eco";
         value := VStr "enabled";
         lastUpdateTime := Some 1650000001000 |} ]
  /\ Forall2 (entry_of 1650000001000)
       [ wrap HubspaceStateValueCls
           {| functionClass := Some FunctionClass.POWER;
              functionInstance := None;
              value := VStr "on";
              lastUpdateTime := Some 1650000000000 |};
         wrap HubspaceStateValueCls (sample_toggle "eco" "enabled") ]
       (push_values 1650000001000 sample_mixed_states).
Proof.
  split; [reflexivity|].
  exact (proj1 (proj2 (proj2
           (push_serialises_settable_states 1650000001000 sample_mixed_states)))).
Defined.

(** ** Brightness *)

(** C6. On integers, [_brightness_to_hass raw] is [floor (raw * 255 / 100)]
    and [_brightness_to_hubspace hass] is [floor (hass * 100 / 255)]; for
    every raw value from 0 to 100 the round trip through both differs from
    raw by at most 1, and 0 maps to 0 and 100 to 255. *)
Theorem brightness_round_trip (raw : Z) :
  0 <= raw <= 100 ->
  _brightness_to_hass (VInt raw) = Ok (VInt (raw * 255 / 100))
  /\ (forall hass, _brightness_to_hubspace (VInt hass) = Ok (VInt (hass * 100 / 255)))
  /\ (exists back,
        result_bind (_brightness_to_hass (VInt raw)) _brightness_to_hubspace
        = Ok (VInt back)
        /\ Z.abs (back - raw) <= 1)
  /\ _brightness_to_hass (VInt 0) = Ok (VInt 0)
  /\ _brightness_to_hass (VInt 100) = Ok (VInt 255).
Proof.
  intros Hr. repeat split.
  exists (raw * 255 / 100 * 100 / 255). split; [reflexivity|].
  pose proof (Z.div_mod (raw * 255) 100 ltac:(lia)) as H1.
  pose proof (Z.mod_pos_bound (raw * 255) 100 ltac:(lia)) as H2.
  pose proof (Z.div_mod (raw * 255 / 100 * 100) 255 ltac:(lia)) as H3.
  pose proof (Z.mod_pos_bound (raw * 255 / 100 * 100) 255 ltac:(lia)) as H4.
  lia.
Qed.

Lemma brightness_round_trip_witness :
  0 <= 50 <= 100
  /\ _brightness_to_hass (VInt 50) = Ok (VInt (50 * 255 / 100)).
Proof.
  split; [lia|].
  exact (proj1 (brightness_round_trip 50 ltac:(lia))).
Defined.

(** ** Domain-level reads and writes *)

(** C9.  On a state value of the "available" class the domain-level write
    stores the text of the boolean, "True" or "False"; the domain-level
    read returns the truthiness of the stored token, and both texts are
    non-empty, so the value written as [False] reads back [True]: the
    round trip fails at [False].  The light's state value class stores the
    boolean itself, and there the round trip holds. *)
Theorem available_false_reads_back_true (i : option string) (v : Value) (t : option Z) :
  let s := available_state HubspaceStateValueCls i v t in
  let l := available_state HubspaceLightStateValueCls i v t in
  (forall b,
      result_bind (set_hass_value s (VBool b)) (fun s' => Ok (hubspace_value s'))
      = Ok (VStr (if b then "True" else "False")))
  /\ (forall b, result_bind (set_hass_value s (VBool b)) hass_value = Ok (VBool true))
  /\ result_bind (set_hass_value s (VBool false)) hass_value <> Ok (VBool false)
  /\ (forall b, result_bind (set_hass_value l (VBool b)) hass_value = Ok (VBool b)).
Proof.
  intros s l. split; [|split; [|split]].
  - now intros [|].
  - now intros [|].
  - discriminate.
  - now intros [|].
Qed.

(** ** Lookup by class *)

Lemma _get_state_value_class_run (w : World) (m : StateMap) (c : string) (default : Value) :
  _states (loaded (self w)) = Some m ->
  _get_state_value (ClassKey c) default w
  = match PyDict.values (instances_of c m) with
    | [] => Ok (default, with_self w (loaded (self w)))
    | [first] =>
        result_bind (hass_value first)
          (fun v => Ok (v, with_self w (loaded (self w))))
    | first :: _ :: _ =>
        result_bind (hass_value first)
          (fun v => Ok (v, with_warning (with_self w (loaded (self w)))
                             (ambiguity_warning c)))
    end.
Proof.
  intros Hm. unfold _get_state_value, bind.
  rewrite the_states_run, Hm.
  destruct (PyDict.values (instances_of c m)) as [|first [|second rest]]; simpl.
  - reflexivity.
  - unfold lift. now destruct (hass_value first).
  - unfold lift. now destruct (hass_value first).
Qed.

Lemma hass_value_base_total (s : HubspaceStateValue) :
  sv_cls s = HubspaceStateValueCls -> hass_value s = Ok (Base.hass_value s).
Proof. unfold hass_value. now intros ->. Qed.

(** C4.  A class-only lookup, once the state map is there, goes by the
    first value of the class in the iteration order of the map, whatever
    the number of instances: it returns the default when the class has
    no value, and otherwise what the domain-level reading of the first
    value returns or raises, after one warning when the class has more
    than one instance.  With the state value class of [HubspaceEntity]
    the reading never fails: it is the raw value, or its truthiness for
    the "available" class.  The same holds for a light's state other
    than brightness.  The brightness of a light is read as a number: a
    lookup whose first value is a brightness without value (a null)
    raises [TypeError] where it was to return a value.  The iteration
    order is the order of first insertion: of two payload entries of one
    class with different instances, the first listed is the first
    value. *)
Theorem class_lookup_uses_first (w : World) (m : StateMap) (c : string) (default : Value) :
  _states (loaded (self w)) = Some m ->
  let w1 := with_self w (loaded (self w)) in
  (PyDict.values (instances_of c m) = [] ->
   _get_state_value (ClassKey c) default w = Ok (default, w1))
  /\ (forall first rest,
        PyDict.values (instances_of c m) = first :: rest ->
        let w2 := match rest with
                  | [] => w1
                  | _ :: _ => with_warning w1 (ambiguity_warning c)
                  end in
        (forall v, hass_value first = Ok v ->
                   _get_state_value (ClassKey c) default w = Ok (v, w2))
        /\ (forall e, hass_value first = Raise e ->
                      _get_state_value (ClassKey c) default w = Raise e)
        /\ (sv_cls first = HubspaceStateValueCls
            \/ function_class first <> FunctionClass.BRIGHTNESS ->
            _get_state_value (ClassKey c) default w
            = Ok (if String.eqb (function_class first) FunctionClass.AVAILABLE
                  then VBool (py_bool (hubspace_value first))
                  else hubspace_value first, w2))
        /\ (sv_cls first = HubspaceLightStateValueCls ->
            function_class first = FunctionClass.BRIGHTNESS ->
            hubspace_value first = VNone ->
            _get_state_value (ClassKey c) default w = Raise TypeError))
  /\ (forall cls v1 v2,
        functionClass v1 = Some c ->
        functionClass v2 = Some c ->
        c <> FunctionClass.UNSUPPORTED ->
        functionInstance v1 <> functionInstance v2 ->
        PyDict.values (instances_of c (parsed_states cls [v1; v2]))
        = [wrap cls v1; wrap cls v2]).
Proof.
  intros Hm w1. split; [|split].
  - intros Hv. now rewrite (_get_state_value_class_run w m c default Hm), Hv.
  - intros first rest Hv w2.
    assert (Hrun : _get_state_value (ClassKey c) default w
                   = result_bind (hass_value first) (fun v => Ok (v, w2))).
    { rewrite (_get_state_value_class_run w m c default Hm), Hv. now destruct rest. }
    rewrite Hrun. split; [|split; [|split]].
    + now intros v ->.
    + now intros e ->.
    + intros Hcase. unfold hass_value, Base.hass_value.
      destruct (sv_cls first); [reflexivity|].
      destruct Hcase as [Hcase|Hcase]; [discriminate|].
      apply String.eqb_neq in Hcase. now rewrite Hcase.
    + intros Hcls Hc Hnull. unfold hass_value. now rewrite Hcls, Hc, Hnull.
  - intros cls v1 v2 H1 H2 Hu Hi.
    unfold parsed_states. simpl.
    unfold _set_state_step, function_class, function_instance. simpl.
    rewrite H1, H2.
    apply String.eqb_neq in Hu. rewrite Hu. simpl.
    rewrite String.eqb_refl. simpl.
    unfold instances_of, PyDict.mem. simpl. rewrite ?String.eqb_refl. simpl.
    rewrite ?String.eqb_refl. simpl.
    destruct (opt_str_eqb (functionInstance v2) (functionInstance v1)) eqn:E.
    + apply opt_str_eqb_eq in E. congruence.
    + simpl. now rewrite String.eqb_refl.
Qed.

Lemma class_lookup_uses_first_witness :
  (_states (loaded (self sample_dark_world)) = Some sample_dark_states
   /\ PyDict.values (instances_of FunctionClass.BRIGHTNESS sample_dark_states)
      = [ wrap HubspaceLightStateValueCls
            {| functionClass := Some FunctionClass.BRIGHTNESS;
               functionInstance := None;
               value := VNone;
               lastUpdateTime := Some 1650000000000 |} ])
  /\ _get_state_value (ClassKey FunctionClass.BRIGHTNESS) VNone sample_dark_world
     = Raise TypeError.
Proof.
  split; [split; reflexivity|].
  exact (proj2 (proj2 (proj2
           (proj1 (proj2
              (class_lookup_uses_first sample_dark_world sample_dark_states
                 FunctionClass.BRIGHTNESS VNone eq_refl))
              _ [] eq_refl)))
           eq_refl eq_refl eq_refl).
Defined.

(** ** Writes by key *)

Lemma with_states_same (e : HubspaceEntity) (m : StateMap) :
  _states e = Some m -> with_states e (Some m) = e.
Proof. intros H. destruct e. simpl in H. now subst. Qed.

Lemma set_hass_value_frame (s s' : HubspaceStateValue) (v : Value) :
  set_hass_value s v = Ok s' -> s' = set_hubspace_value s (hubspace_value s').
Proof.
  unfold set_hass_value, Base.set_hass_value.
  destruct (sv_cls s).
  - destruct (String.eqb _ _); intros H; injection H as <-; reflexivity.
  - destruct (String.eqb _ _).
    + destruct (_brightness_to_hubspace v); simpl; [|discriminate].
      intros H; injection H as <-; reflexivity.
    + intros H; injection H as <-; reflexivity.
Qed.

Lemma _set_state_value_tuple_run (w : World) (m : StateMap) (c : string)
    (i : option string) (v : Value) :
  _states (loaded (self w)) = Some m ->
  _set_state_value (TupleKey c i) v w
  = match state_at c i m with
    | Some s =>
        match set_hass_value s v with
        | Ok s' => Ok (tt, with_self w (with_states (loaded (self w))
                                          (Some (write_state c i s' m))))
        | Raise e => Raise e
        end
    | None => Ok (tt, with_self w (loaded (self w)))
    end.
Proof.
  intros Hm. unfold _set_state_value, bind. rewrite the_states_run, Hm.
  destruct (state_at c i m) as [s|]; [|reflexivity].
  unfold lift. now destruct (set_hass_value s v).
Qed.

Lemma _set_state_value_class_run (w : World) (m : StateMap) (c : string) (v : Value) :
  _states (loaded (self w)) = Some m ->
  _set_state_value (ClassKey c) v w
  = match PyDict.get String.eqb c m with
    | Some inner =>
        match set_hass_value_all inner v with
        | Ok inner' => Ok (tt, with_self w (with_states (loaded (self w))
                                              (Some (PyDict.set String.eqb c inner' m))))
        | Raise e => Raise e
        end
    | None => Ok (tt, with_self w (loaded (self w)))
    end.
Proof.
  intros Hm. unfold _set_state_value, bind. rewrite the_states_run, Hm.
  destruct (PyDict.get String.eqb c m) as [inner|]; [|reflexivity].
  unfold lift. now destruct (set_hass_value_all inner v).
Qed.

Lemma set_hass_value_takes (s : HubspaceStateValue) (v : Value) :
  takes s v = true ->
  exists s', set_hass_value s v = Ok s' /\ holds_instead (converted s v) s s'.
Proof.
  unfold takes, converted, light_brightness, set_hass_value, Base.set_hass_value,
    holds_instead.
  destruct (sv_cls s) eqn:Hcls.
  - intros _. destruct (String.eqb (function_class s) FunctionClass.AVAILABLE);
      eexists; (split; [reflexivity|]); now repeat split.
  - destruct (String.eqb (function_class s) FunctionClass.BRIGHTNESS).
    + destruct v as [|b|z|t]; simpl; try discriminate; intros _;
        eexists; (split; [reflexivity|]); now repeat split.
    + intros _. eexists. split; [reflexivity|]. now repeat split.
Qed.

Lemma set_hass_value_refuses (s : HubspaceStateValue) (v : Value) :
  takes s v = false -> set_hass_value s v = Raise TypeError.
Proof.
  unfold takes, light_brightness, set_hass_value.
  destruct (sv_cls s); [discriminate|].
  destruct (String.eqb (function_class s) FunctionClass.BRIGHTNESS); [|discriminate].
  now destruct v.
Qed.

Lemma set_hass_value_raises_TypeError (s : HubspaceStateValue) (v : Value) (e : Exn) :
  set_hass_value s v = Raise e -> e = TypeError.
Proof.
  destruct (takes s v) eqn:Ht.
  - destruct (set_hass_value_takes s v Ht) as (s' & -> & _). discriminate.
  - rewrite (set_hass_value_refuses s v Ht). intros H. now injection H.
Qed.

Lemma set_hass_value_all_refuses (inner : InstanceMap HubspaceStateValue) (v : Value) :
  (exists i s, In (i, s) inner /\ takes s v = false) ->
  set_hass_value_all inner v = Raise TypeError.
Proof.
  induction inner as [|[i0 s0] r IH]; simpl; [intros (i & s & [] & _)|].
  intros (i & s & [E|Hin] & Ht).
  - injection E as -> ->. now rewrite (set_hass_value_refuses s v Ht).
  - destruct (set_hass_value s0 v) as [s1|e] eqn:E0; simpl.
    + rewrite IH; [reflexivity|]. now exists i, s.
    + f_equal. now apply set_hass_value_raises_TypeError with s0 v.
Qed.

Lemma set_hass_value_all_takes (inner : InstanceMap HubspaceStateValue) (v : Value) :
  (forall i s, In (i, s) inner -> takes s v = true) ->
  exists inner',
    set_hass_value_all inner v = Ok inner'
    /\ PyDict.keys inner' = PyDict.keys inner
    /\ forall i,
         match PyDict.get opt_str_eqb i inner with
         | Some s =>
             exists s', PyDict.get opt_str_eqb i inner' = Some s'
                        /\ holds_instead (converted s v) s s'
         | None => PyDict.get opt_str_eqb i inner' = None
         end.
Proof.
  induction inner as [|[i0 s0] r IH]; intros H; simpl.
  - exists []. now repeat split.
  - destruct (set_hass_value_takes s0 v (H i0 s0 (or_introl eq_refl))) as (s1 & Hs & Hh).
    destruct IH as (r' & Hr & Hk & Hg).
    { intros i s Hin. apply (H i s). now right. }
    exists ((i0, s1) :: r'). rewrite Hs, Hr. simpl.
    split; [reflexivity|]. split; [unfold PyDict.keys in *; simpl; now rewrite Hk|].
    intros i. destruct (opt_str_eqb i i0); [|apply Hg].
    now exists s1.
Qed.

(** C3.  With the state map [m] of the device, and a value that the
    domain-level conversion takes (every value, but that the brightness
    of a light takes a number only): a write with a class-only key
    leaves, in every StateValue of that class, the converted value as
    raw value (the value itself; its text for the "available" class of
    [HubspaceEntity]; its percentage for the brightness of a light) and
    changes nothing else: the class keeps its instances in their order,
    every state keeps its class, instance and timestamp, and no other
    class is touched.  A write with a (class, instance) key does the same
    to that one StateValue and touches no other key, and does nothing
    when the map has no StateValue for the pair.  A write that reaches
    the brightness of a light with a value that is no number raises
    [TypeError]. *)
Theorem set_state_value_by_key (w : World) (m : StateMap) (v : Value) :
  _states (loaded (self w)) = Some m ->
  (forall c,
      (forall i s, In (i, s) (instances_of c m) -> takes s v = true) ->
      exists w' m',
        _set_state_value (ClassKey c) v w = Ok (tt, w')
        /\ _states (self w') = Some m'
        /\ sent w' = sent w
        /\ warnings w' = warnings w
        /\ PyDict.keys m' = PyDict.keys m
        /\ PyDict.keys (instances_of c m') = PyDict.keys (instances_of c m)
        /\ (forall i s,
              state_at c i m = Some s ->
              exists s',
                state_at c i m' = Some s'
                /\ holds_instead (converted s v) s s')
        /\ (forall i, state_at c i m = None -> state_at c i m' = None)
        /\ (forall c' i, c' <> c -> state_at c' i m' = state_at c' i m))
  /\ (forall c i,
        state_at c i m = None ->
        exists w',
          _set_state_value (TupleKey c i) v w = Ok (tt, w')
          /\ _states (self w') = Some m
          /\ sent w' = sent w
          /\ warnings w' = warnings w)
  /\ (forall c i s,
        state_at c i m = Some s ->
        takes s v = true ->
        exists w' m' s',
          _set_state_value (TupleKey c i) v w = Ok (tt, w')
          /\ _states (self w') = Some m'
          /\ sent w' = sent w
          /\ warnings w' = warnings w
          /\ PyDict.keys m' = PyDict.keys m
          /\ state_at c i m' = Some s'
          /\ holds_instead (converted s v) s s'
          /\ (forall c' i', (c', i') <> (c, i) -> state_at c' i' m' = state_at c' i' m))
  /\ (forall s,
        (sv_cls s = HubspaceStateValueCls ->
         takes s v = true
         /\ converted s v
            = if String.eqb (function_class s) FunctionClass.AVAILABLE
              then VStr (py_str v) else v)
        /\ (sv_cls s = HubspaceLightStateValueCls ->
            function_class s <> FunctionClass.BRIGHTNESS ->
            takes s v = true /\ converted s v = v)
        /\ (sv_cls s = HubspaceLightStateValueCls ->
            function_class s = FunctionClass.BRIGHTNESS ->
            match v with
            | VInt z => takes s v = true /\ converted s v = VInt (z * 100 / 255)
            | VBool b =>
                takes s v = true
                /\ converted s v = VInt ((if b then 1 else 0) * 100 / 255)
            | VNone | VStr _ => takes s v = false
            end))
  /\ (forall c,
        (exists i s, In (i, s) (instances_of c m) /\ takes s v = false) ->
        _set_state_value (ClassKey c) v w = Raise TypeError)
  /\ (forall c i s,
        state_at c i m = Some s ->
        takes s v = false ->
        _set_state_value (TupleKey c i) v w = Raise TypeError).
Proof.
  intros Hm. split; [|split; [|split; [|split; [|split]]]].
  - intros c Hall.
    rewrite (_set_state_value_class_run w m c v Hm).
    destruct (PyDict.get String.eqb c m) as [inner|] eqn:Hget.
    + assert (Hi : instances_of c m = inner) by (unfold instances_of; now rewrite Hget).
      rewrite Hi in Hall.
      destruct (set_hass_value_all_takes inner v Hall) as (inner' & Hrun & Hk & Hg).
      assert (Hi' : instances_of c (PyDict.set String.eqb c inner' m) = inner').
      { unfold instances_of. now rewrite (get_set_same String.eqb String.eqb_eq). }
      rewrite Hrun. eexists _, (PyDict.set String.eqb c inner' m).
      split; [reflexivity|]. repeat (split; [reflexivity|]).
      split.
      { apply (keys_set_present String.eqb). unfold PyDict.mem. now rewrite Hget. }
      rewrite Hi, Hi'. split; [exact Hk|]. split; [|split].
      * intros i s Hs. unfold state_at in *. rewrite Hi in Hs. rewrite Hi'.
        specialize (Hg i). now rewrite Hs in Hg.
      * intros i Hs. unfold state_at in *. rewrite Hi in Hs. rewrite Hi'.
        specialize (Hg i). now rewrite Hs in Hg.
      * intros c' i Hne. apply state_at_set_other. congruence.
    + assert (Hi : instances_of c m = []) by (unfold instances_of; now rewrite Hget).
      eexists _, m. split; [reflexivity|]. split; [exact Hm|].
      repeat (split; [reflexivity|]). split; [|split].
      * intros i s Hs. unfold state_at in Hs. rewrite Hi in Hs. discriminate.
      * intros i Hs. exact Hs.
      * reflexivity.
  - intros c i Hnone.
    rewrite (_set_state_value_tuple_run w m c i v Hm), Hnone.
    eexists. split; [reflexivity|]. split; [exact Hm|]. now split.
  - intros c i s Hs Ht.
    destruct (set_hass_value_takes s v Ht) as (s' & Hset & Hh).
    rewrite (_set_state_value_tuple_run w m c i v Hm), Hs, Hset.
    eexists _, (write_state c i s' m), s'.
    split; [reflexivity|]. repeat (split; [reflexivity|]).
    unfold write_state. split; [|split; [|split; [exact Hh|]]].
    + apply (keys_set_present String.eqb). unfold PyDict.mem.
      unfold state_at, instances_of in Hs.
      now destruct (PyDict.get String.eqb c m).
    + rewrite state_at_set_same. apply (get_set_same opt_str_eqb opt_str_eqb_eq).
    + intros c' i' Hne.
      destruct (String.eqb c c') eqn:Hc.
      * apply String.eqb_eq in Hc. subst c'.
        rewrite state_at_set_same.
        apply (get_set_other opt_str_eqb opt_str_eqb_eq). congruence.
      * apply String.eqb_neq in Hc. now apply state_at_set_other.
  - intros s. unfold takes, converted, light_brightness. split; [|split].
    + now intros ->.
    + intros -> Hc. apply String.eqb_neq in Hc. now rewrite Hc.
    + intros -> ->. now destruct v as [|b|z|t].
  - intros c Hex.
    rewrite (_set_state_value_class_run w m c v Hm).
    unfold instances_of in Hex.
    destruct (PyDict.get String.eqb c m) as [inner|].
    + now rewrite (set_hass_value_all_refuses inner v Hex).
    + now destruct Hex as (i & s & [] & _).
  - intros c i s Hs Ht.
    now rewrite (_set_state_value_tuple_run w m c i v Hm), Hs,
      (set_hass_value_refuses s v Ht).
Qed.

Lemma set_state_value_by_key_witness :
  (_states (loaded (self sample_world)) = Some sample_states
   /\ forall i s, In (i, s) (instances_of FunctionClass.TOGGLE sample_states) ->
                  takes s (VStr TOGGLE_ENABLED) = true)
  /\ exists w' m',
       _set_state_value (ClassKey FunctionClass.TOGGLE) (VStr TOGGLE_ENABLED) sample_world
       = Ok (tt, w')
       /\ _states (self w') = Some m'
       /\ (exists s',
              state_at FunctionClass.TOGGLE (Some "sleep") m' = Some s'
              /\ hubspace_value s' = VStr TOGGLE_ENABLED)
       /\ (exists s',
              state_at FunctionClass.TOGGLE (Some "eco") m' = Some s'
              /\ hubspace_value s' = VStr TOGGLE_ENABLED)
       /\ state_at FunctionClass.AVAILABLE None m'
          = state_at FunctionClass.AVAILABLE None sample_states.
Proof.
  assert (Ht : forall i s, In (i, s) (instances_of FunctionClass.TOGGLE sample_states) ->
                           takes s (VStr TOGGLE_ENABLED) = true).
  { intros i s [E|[E|[]]]; injection E as <- <-; reflexivity. }
  split; [split; [reflexivity | exact Ht]|].
  destruct (proj1 (set_state_value_by_key sample_world sample_states
                     (VStr TOGGLE_ENABLED) eq_refl) FunctionClass.TOGGLE Ht)
    as (w' & m' & Hrun & Hst & _ & _ & _ & _ & Hw & _ & Hother).
  exists w', m'. split; [exact Hrun|]. split; [exact Hst|].
  split; [|split].
  - destruct (Hw (Some "sleep") _ eq_refl) as (s' & Hs' & Hv & _). now exists s'.
  - destruct (Hw (Some "eco") _ eq_refl) as (s' & Hs' & Hv & _). now exists s'.
  - apply Hother. discriminate.
Defined.

(** The sample light holds one brightness state, of raw value 40: a
    write of [None] by class and a write of a text by (class, instance)
    raise [TypeError], so that not every value is written. *)
Lemma set_state_value_by_key_counterexample :
  state_at FunctionClass.BRIGHTNESS None sample_light_states
  = Some (wrap HubspaceLightStateValueCls
            {| functionClass := Some FunctionClass.BRIGHTNESS;
               functionInstance := None;
               value := VInt 40;
               lastUpdateTime := Some 1650000000000 |})
  /\ _states (loaded (self sample_light_world)) = Some sample_light_states
  /\ _set_state_value (ClassKey FunctionClass.BRIGHTNESS) VNone sample_light_world
     = Raise TypeError
  /\ _set_state_value (TupleKey FunctionClass.BRIGHTNESS None) (VStr "high")
       sample_light_world
     = Raise TypeError
  /\ ~ (forall v, exists w',
           _set_state_value (ClassKey FunctionClass.BRIGHTNESS) v sample_light_world
           = Ok (tt, w')).
Proof.
  split; [reflexivity|]. split; [reflexivity|]. split; [reflexivity|].
  split; [reflexivity|].
  intros H. destruct (H VNone) as [w' Hw]. discriminate Hw.
Qed.

(** ** Sorting the catalog values *)

Lemma digit_of_facts (c : ascii) (d : Z) :
  PyInt.digit_of c = Some d ->
  PyInt.is_space c = false /\ Ascii.eqb c "+" = false /\ Ascii.eqb c "-" = false.
Proof.
  destruct c as [[] [] [] [] [] [] [] []]; vm_compute; intros H;
    try discriminate H; now repeat split.
Qed.

Lemma length_string_of_list (l : list ascii) :
  String.length (string_of_list_ascii l) = List.length l.
Proof. induction l; simpl; congruence. Qed.

Lemma substring_skip (p t : list ascii) (n : nat) :
  substring (List.length p) n (string_of_list_ascii (p ++ t))
  = substring 0 n (string_of_list_ascii t).
Proof. induction p as [|a p IH]; simpl; [reflexivity | exact IH]. Qed.

Lemma last3_of_list (p : list ascii) (c1 c2 c3 : ascii) :
  last3 (string_of_list_ascii (p ++ [c1; c2; c3])) = string_of_list_ascii [c1; c2; c3].
Proof.
  unfold last3. rewrite length_string_of_list, length_app. simpl List.length.
  rewrite Nat.add_sub.
  now rewrite substring_skip.
Qed.

Lemma py_int_three_digits (c1 c2 c3 : ascii) (a b c : Z) :
  PyInt.digit_of c1 = Some a ->
  PyInt.digit_of c2 = Some b ->
  PyInt.digit_of c3 = Some c ->
  py_int (string_of_list_ascii [c1; c2; c3]) = Ok (100 * a + 10 * b + c).
Proof.
  intros H1 H2 H3.
  destruct (digit_of_facts c1 a H1) as (S1 & P1 & M1).
  destruct (digit_of_facts c3 c H3) as (S3 & _ & _).
  remember (100 * a + 10 * b + c) as n eqn:Hn.
  unfold py_int, PyInt.parse.
  rewrite list_ascii_of_string_of_list_ascii.
  unfold PyInt.strip. simpl. rewrite S1. simpl. rewrite S3. simpl.
  rewrite P1, M1, H1, H2, H3. f_equal. lia.
Qed.

Lemma py_int_last3 (s : string) (n : Z) :
  suffix_number s = Some n -> py_int (last3 s) = Ok n.
Proof.
  unfold suffix_number.
  destruct (rev (list_ascii_of_string s)) as [|c3 [|c2 [|c1 r]]] eqn:Hr; try discriminate.
  destruct (PyInt.digit_of c1) as [a|] eqn:H1; [|discriminate].
  destruct (PyInt.digit_of c2) as [b|] eqn:H2; [|discriminate].
  destruct (PyInt.digit_of c3) as [c|] eqn:H3; [|discriminate].
  intros H. injection H as <-.
  assert (Hs : s = string_of_list_ascii (rev r ++ [c1; c2; c3])).
  { rewrite <- (string_of_list_ascii_of_string s) at 1. f_equal.
    rewrite <- (rev_involutive (list_ascii_of_string s)), Hr. simpl.
    now rewrite <- !app_assoc. }
  rewrite Hs, last3_of_list.
  now apply py_int_three_digits.
Qed.

Section SortFacts.
Context {A : Type}.

Lemma sort_insert_perm (x : SortKey * A) (l : list (SortKey * A)) :
  Permutation (x :: l) (sort_insert x l).
Proof.
  induction l as [|y r IH]; simpl; [reflexivity|].
  destruct (key_ltb (fst x) (fst y)); [reflexivity|].
  rewrite perm_swap. now constructor.
Qed.

Lemma sort_keyed_from_perm (l acc : list (SortKey * A)) :
  Permutation (acc ++ l) (fold_left (fun acc x => sort_insert x acc) l acc).
Proof.
  revert acc. induction l as [|x l IH]; intros acc; simpl.
  - now rewrite app_nil_r.
  - rewrite <- IH. rewrite <- sort_insert_perm.
    simpl. symmetry. apply Permutation_middle.
Qed.

Lemma sort_keyed_perm (l : list (SortKey * A)) : Permutation l (sort_keyed l).
Proof. exact (sort_keyed_from_perm l []). Qed.

Lemma sort_insert_sorted (x : SortKey * A) (l : list (SortKey * A)) :
  has_int_key x ->
  Forall has_int_key l ->
  StronglySorted int_key_le l ->
  StronglySorted int_key_le (sort_insert x l).
Proof.
  intros [kx Hx] Hl Hs.
  induction Hs as [|y r Hs IH Hy]; simpl.
  - constructor; constructor.
  - inversion Hl as [|? ? [ky Hky] Hr]; subst.
    rewrite Hx, Hky. simpl.
    destruct (Z.ltb kx ky) eqn:E.
    + apply Z.ltb_lt in E.
      constructor; [now constructor|].
      constructor.
      * exists kx, ky. repeat split; [assumption..|lia].
      * eapply Forall_impl; [|exact Hy].
        intros z (a & b & Ha & Hb & Hab).
        exists kx, b. rewrite Hky in Ha. injection Ha as <-.
        repeat split; [assumption..|lia].
    + apply Z.ltb_ge in E.
      constructor; [now apply IH|].
      apply Forall_forall. intros z Hz.
      apply (Permutation_in z (Permutation_sym (sort_insert_perm x r))) in Hz.
      destruct Hz as [<-|Hz].
      * exists ky, kx. now repeat split.
      * rewrite Forall_forall in Hy. now apply Hy.
Qed.

Lemma sort_keyed_sorted (l : list (SortKey * A)) :
  Forall has_int_key l -> StronglySorted int_key_le (sort_keyed l).
Proof.
  unfold sort_keyed.
  assert (H : forall l acc : list (SortKey * A),
             Forall has_int_key l -> Forall has_int_key acc ->
             StronglySorted int_key_le acc ->
             StronglySorted int_key_le (fold_left (fun acc x => sort_insert x acc) l acc)).
  { clear l. induction l as [|x l IH]; intros acc Hl Hacc Hs; simpl; [exact Hs|].
    inversion Hl; subst.
    apply IH; [assumption| |now apply sort_insert_sorted].
    apply Forall_forall. intros z Hz.
    apply (Permutation_in z (Permutation_sym (sort_insert_perm x acc))) in Hz.
    destruct Hz as [<-|Hz]; [assumption|].
    rewrite Forall_forall in Hacc. now apply Hacc. }
  intros Hl. apply H; [exact Hl | constructor | constructor].
Qed.
End SortFacts.

Lemma fan_speed_keys (f : HubspaceFunction) (names : list string) :
  fn_cls f = HubspaceFanFunctionCls ->
  function_class f = FunctionClass.FAN_SPEED ->
  Forall (fun s => suffix_number s <> None) names ->
  exists ks,
    result_mapM (_value_key f) names = Ok ks
    /\ List.length ks = List.length names
    /\ Forall keyed_by_suffix (combine ks names).
Proof.
  intros Hcls Hfc. induction 1 as [|s l Hs Hl (ks & Hk & Hlen & Hall)]; simpl.
  - exists []. repeat split. constructor.
  - destruct (suffix_number s) as [n|] eqn:Hn; [|congruence].
    exists (KeyInt n :: ks).
    unfold _value_key at 1. rewrite Hcls, Hfc. simpl.
    rewrite (py_int_last3 s n Hn). simpl. rewrite Hk. simpl.
    split; [reflexivity|]. split; [now rewrite Hlen|].
    constructor; [|exact Hall]. now exists n.
Qed.

Lemma map_snd_combine {A B} (xs : list A) (ys : list B) :
  List.length xs = List.length ys -> map snd (combine xs ys) = ys.
Proof.
  revert ys. induction xs as [|x xs IH]; intros [|y ys] H; simpl in *;
    try discriminate; [reflexivity|].
  f_equal. apply IH. now injection H.
Qed.

Lemma sorted_by_suffix (l : list (SortKey * string)) :
  StronglySorted int_key_le l ->
  Forall keyed_by_suffix l ->
  StronglySorted suffix_le (map snd l).
Proof.
  induction 1 as [|p r Hs IH Hp]; intros Hk; simpl; constructor.
  - apply IH. now inversion Hk.
  - inversion Hk as [|? ? (n & Hn & Hsn) Hr]; subst.
    apply Forall_forall. intros s Hin.
    apply in_map_iff in Hin as (q & <- & Hq).
    rewrite Forall_forall in Hp, Hr.
    destruct (Hp q Hq) as (x & y & Hx & Hy & Hxy).
    destruct (Hr q Hq) as (m & Hm & Hsm).
    exists x, y. rewrite Hn in Hx. injection Hx as <-.
    rewrite Hm in Hy. injection Hy as <-.
    now repeat split.
Qed.



(** ** Maps with unique keys *)

Section PyDictKeys.
Context {K V : Type}.
Variable eqb : K -> K -> bool.
Hypothesis eqb_eq : forall a b, eqb a b = true <-> a = b.

Lemma mem_In_keys (k : K) (d : PyDict.t K V) :
  PyDict.mem eqb k d = true <-> In k (PyDict.keys d).
Proof.
  unfold PyDict.mem, PyDict.keys.
  induction d as [|[k0 v0] r IH]; simpl; [intuition discriminate|].
  destruct (eqb k k0) eqn:E.
  - apply eqb_eq in E. subst. intuition.
  - rewrite IH. split; [now right|].
    intros [H|H]; [|exact H]. subst k0.
    rewrite (eqb_refl_true eqb eqb_eq) in E. discriminate.
Qed.

Lemma keys_set_absent (k : K) (v : V) (d : PyDict.t K V) :
  PyDict.mem eqb k d = false ->
  PyDict.keys (PyDict.set eqb k v d) = PyDict.keys d ++ [k].
Proof.
  unfold PyDict.mem, PyDict.keys.
  induction d as [|[k0 v0] r IH]; simpl; [reflexivity|].
  destruct (eqb k k0) eqn:E; simpl; [discriminate|].
  intros H. now rewrite IH.
Qed.

Lemma NoDup_keys_set (k : K) (v : V) (d : PyDict.t K V) :
  NoDup (PyDict.keys d) -> NoDup (PyDict.keys (PyDict.set eqb k v d)).
Proof.
  intros H. destruct (PyDict.mem eqb k d) eqn:E.
  - now rewrite (keys_set_present eqb k v d E).
  - rewrite (keys_set_absent k v d E).
    apply NoDup_app; [exact H | repeat constructor; intros [] |].
    intros x Hx [<-|[]].
    apply mem_In_keys in Hx. congruence.
Qed.

Lemma get_of_In (k : K) (v : V) (d : PyDict.t K V) :
  NoDup (PyDict.keys d) -> In (k, v) d -> PyDict.get eqb k d = Some v.
Proof.
  unfold PyDict.keys.
  induction d as [|[k0 v0] r IH]; simpl; [intros _ []|].
  intros Hn [H|H].
  - injection H as -> ->. now rewrite (eqb_refl_true eqb eqb_eq).
  - inversion Hn as [|? ? Hnot Hr]; subst.
    destruct (eqb k k0) eqn:E; [|now apply IH].
    apply eqb_eq in E. subst k0. exfalso. apply Hnot.
    apply in_map_iff. now exists (k, v).
Qed.
End PyDictKeys.

Lemma state_at_In (c : string) (i : option string) (s : HubspaceStateValue) (m : StateMap) :
  state_at c i m = Some s -> exists inner, In (c, inner) m /\ In (i, s) inner.
Proof.
  unfold state_at, instances_of.
  destruct (PyDict.get String.eqb c m) as [inner|] eqn:Hc; [|discriminate].
  intros Hi. exists inner. split.
  - now apply (get_In String.eqb String.eqb_eq).
  - now apply (get_In opt_str_eqb opt_str_eqb_eq).
Qed.

Lemma state_at_of_In (c : string) (inner : InstanceMap HubspaceStateValue)
    (i : option string) (s : HubspaceStateValue) (m : StateMap) :
  well_keyed m -> In (c, inner) m -> In (i, s) inner -> state_at c i m = Some s.
Proof.
  intros [Hn Hk] Hc Hi. unfold state_at, instances_of.
  rewrite (get_of_In String.eqb String.eqb_eq c inner m Hn Hc).
  apply (get_of_In opt_str_eqb opt_str_eqb_eq); [|exact Hi].
  now destruct (Hk c inner Hc).
Qed.

Lemma state_at_keyed (c : string) (i : option string) (s : HubspaceStateValue) (m : StateMap) :
  well_keyed m ->
  state_at c i m = Some s ->
  function_class s = c /\ function_instance s = i /\ c <> FunctionClass.UNSUPPORTED.
Proof.
  intros [_ Hk] Hs. apply state_at_In in Hs as (inner & Hc & Hi).
  destruct (Hk c inner Hc) as [_ H]. now apply H.
Qed.

Lemma well_keyed_set (m : StateMap) (c : string) (inner : InstanceMap HubspaceStateValue) :
  well_keyed m ->
  NoDup (PyDict.keys inner) ->
  (forall i s, In (i, s) inner ->
               function_class s = c /\ function_instance s = i
               /\ c <> FunctionClass.UNSUPPORTED) ->
  well_keyed (PyDict.set String.eqb c inner m).
Proof.
  intros [Hn Hk] Hin Hall. split.
  - now apply (NoDup_keys_set String.eqb String.eqb_eq).
  - intros c0 inner0 H0.
    apply (In_set String.eqb String.eqb_eq) in H0 as [[-> ->]|H0].
    + now split.
    + now apply Hk.
Qed.

Lemma _set_state_step_well_keyed (cls : StateValueCls) (m : StateMap) (v : ValueObject) :
  well_keyed m -> well_keyed (_set_state_step cls m v).
Proof.
  intros Hm. unfold _set_state_step.
  set (sv := wrap cls v).
  destruct (String.eqb (function_class sv) FunctionClass.UNSUPPORTED) eqn:Hu;
    simpl; [exact Hm|].
  apply String.eqb_neq in Hu.
  assert (Hm1 : well_keyed
                  (if negb (PyDict.mem String.eqb (function_class sv) m)
                   then PyDict.set String.eqb (function_class sv) [] m else m)).
  { destruct (negb _); [|exact Hm].
    apply well_keyed_set; [exact Hm | constructor | intros i s []]. }
  destruct (PyDict.get String.eqb (function_class sv) _) as [inner0|] eqn:Hget;
    [|exact Hm1].
  apply (get_In String.eqb String.eqb_eq) in Hget.
  destruct Hm1 as [Hn1 Hk1]. destruct (Hk1 _ _ Hget) as [Hni Hki].
  apply well_keyed_set; [now split | |].
  - now apply (NoDup_keys_set opt_str_eqb opt_str_eqb_eq).
  - intros i s Hs.
    apply (In_set opt_str_eqb opt_str_eqb_eq) in Hs as [[-> ->]|Hs].
    + now repeat split.
    + now apply Hki.
Qed.

Lemma parsed_states_well_keyed (cls : StateValueCls) (vals : list ValueObject) :
  well_keyed (parsed_states cls vals).
Proof.
  unfold parsed_states.
  assert (H : forall l m, well_keyed m -> well_keyed (fold_left (_set_state_step cls) l m)).
  { induction l as [|x l IH]; intros m Hm; simpl; [exact Hm|].
    apply IH. now apply _set_state_step_well_keyed. }
  apply H. split; [constructor | intros c inner []].
Qed.

(** ** What an echoing vendor returns *)

Lemma find_unique {A} (P : A -> bool) (a : A) (l : list A) :
  In a l -> P a = true ->
  (forall x, In x l -> P x = true -> x = a) ->
  find P l = Some a.
Proof.
  induction l as [|y r IH]; simpl; [intros []|].
  intros Hin Ha Hu.
  destruct (P y) eqn:Hy.
  - f_equal. apply Hu; [now left | exact Hy].
  - destruct Hin as [->|Hin]; [congruence|].
    apply IH; [exact Hin | exact Ha|].
    intros x Hx. apply Hu. now right.
Qed.

Lemma find_absent {A} (P : A -> bool) (l : list A) :
  (forall x, In x l -> P x = false) -> find P l = None.
Proof.
  induction l as [|y r IH]; simpl; [reflexivity|].
  intros H. rewrite (H y (or_introl eq_refl)).
  apply IH. intros x Hx. apply H. now right.
Qed.

Lemma all_states_state_at (m : StateMap) (s : HubspaceStateValue) :
  well_keyed m ->
  In s (all_states m) ->
  state_at (function_class s) (function_instance s) m = Some s
  /\ function_class s <> FunctionClass.UNSUPPORTED.
Proof.
  intros Hm Hs. apply In_all_states in Hs as (c & inner & i & Hc & Hi).
  pose proof (state_at_of_In c inner i s m Hm Hc Hi) as Hat.
  destruct (state_at_keyed c i s m Hm Hat) as (<- & <- & Hu).
  now split.
Qed.

Lemma state_at_all_states (m : StateMap) (c : string) (i : option string)
    (s : HubspaceStateValue) :
  state_at c i m = Some s -> In s (all_states m).
Proof.
  intros Hs. apply state_at_In in Hs as (inner & Hc & Hi).
  apply In_all_states. now exists c, inner, i.
Qed.

(** The entry of a pushed state matches the key of the state, the
    instance being dropped when it is empty. *)
Lemma entry_matches_push_entry (c : string) (i : option string) (t : Z)
    (s : HubspaceStateValue) :
  entry_matches c i (push_entry t s) = true
  <-> function_class s <> FunctionClass.UNSUPPORTED
      /\ function_class s = c
      /\ (if str_truthy (function_instance s) then function_instance s else None) = i.
Proof.
  unfold entry_matches, push_entry. simpl.
  rewrite !andb_true_iff, negb_true_iff, String.eqb_neq, String.eqb_eq, opt_str_eqb_eq.
  tauto.
Qed.

Lemma echo_state_at_origin (cls : StateValueCls) (t : Z) (m : StateMap)
    (c : string) (i : option string) (s' : HubspaceStateValue) :
  state_at c i (parsed_states cls (push_values t m)) = Some s' ->
  exists s,
    In s (all_states m) /\ pushed s = true
    /\ s' = wrap cls (push_entry t s)
    /\ function_class s = c
    /\ (if str_truthy (function_instance s) then function_instance s else None) = i.
Proof.
  unfold parsed_states. rewrite parsed_states_from.
  destruct (find _ _) as [en|] eqn:Hf; [|discriminate].
  intros H. injection H as <-.
  apply find_some in Hf as [Hin Hmatch].
  apply in_rev in Hin. unfold push_values in Hin.
  apply in_map_iff in Hin as (s & <- & Hs).
  apply filter_In in Hs as [Hs Hp].
  apply entry_matches_push_entry in Hmatch as (_ & Hc & Hi).
  now exists s.
Qed.

Lemma echo_state_at_named (cls : StateValueCls) (t : Z) (m : StateMap)
    (c : string) (i : option string) :
  well_keyed m ->
  str_truthy i = true ->
  state_at c i (parsed_states cls (push_values t m))
  = match state_at c i m with
    | Some s => if pushed s then Some (wrap cls (push_entry t s)) else None
    | None => None
    end.
Proof.
  intros Hm Hi.
  assert (Hkey : forall s, In s (all_states m) ->
                           entry_matches c i (push_entry t s) = true ->
                           state_at c i m = Some s).
  { intros s Hs Hmatch.
    apply entry_matches_push_entry in Hmatch as (_ & Hc & Hinst).
    destruct (all_states_state_at m s Hm Hs) as [Hat _].
    destruct (str_truthy (function_instance s)) eqn:E.
    - now rewrite Hc, Hinst in Hat.
    - subst i. discriminate. }
  unfold parsed_states. rewrite parsed_states_from.
  destruct (state_at c i m) as [s|] eqn:Hat.
  - destruct (pushed s) eqn:Hp.
    + rewrite (find_unique (entry_matches c i) (push_entry t s)); [reflexivity| | |].
      * apply -> in_rev. unfold push_values. apply in_map, filter_In.
        split; [now apply state_at_all_states with c i | exact Hp].
      * destruct (state_at_keyed c i s m Hm Hat) as (Hc & Hinst & Hu).
        apply entry_matches_push_entry. rewrite Hinst, Hi, Hc. now repeat split.
      * intros en Hen Hmatch. apply in_rev in Hen. unfold push_values in Hen.
        apply in_map_iff in Hen as (s0 & <- & Hs0).
        apply filter_In in Hs0 as [Hs0 _].
        specialize (Hkey s0 Hs0 Hmatch). congruence.
    + rewrite find_absent; [reflexivity|].
      intros en Hen. apply in_rev in Hen. unfold push_values in Hen.
      apply in_map_iff in Hen as (s0 & <- & Hs0).
      apply filter_In in Hs0 as [Hs0 Hp0].
      destruct (entry_matches c i (push_entry t s0)) eqn:Hmatch; [|reflexivity].
      specialize (Hkey s0 Hs0 Hmatch). congruence.
  - rewrite find_absent; [reflexivity|].
    intros en Hen. apply in_rev in Hen. unfold push_values in Hen.
    apply in_map_iff in Hen as (s0 & <- & Hs0).
    apply filter_In in Hs0 as [Hs0 Hp0].
    destruct (entry_matches c i (push_entry t s0)) eqn:Hmatch; [|reflexivity].
    specialize (Hkey s0 Hs0 Hmatch). congruence.
Qed.

(** When every toggle state has a named instance and a value, the echo
    of a push holds the same toggle values. *)
Lemma echo_toggle_value (cls : StateValueCls) (t : Z) (m : StateMap) :
  well_keyed m ->
  (forall i v, toggle_value m i = Some v -> str_truthy i = true /\ v <> VNone) ->
  forall i, toggle_value (parsed_states cls (push_values t m)) i = toggle_value m i.
Proof.
  intros Hm Hnamed i. unfold toggle_value.
  destruct (str_truthy i) eqn:Hi.
  - rewrite (echo_state_at_named cls t m _ i Hm Hi).
    destruct (state_at FunctionClass.TOGGLE i m) as [s|] eqn:Hat; [|reflexivity].
    destruct (Hnamed i (hubspace_value s)) as [_ Hv].
    { unfold toggle_value. now rewrite Hat. }
    destruct (state_at_keyed _ i s m Hm Hat) as (Hc & _ & _).
    assert (Hp : pushed s = true).
    { apply pushed_spec. split; [exact Hv|]. rewrite Hc. simpl. tauto. }
    now rewrite Hp.
  - destruct (state_at FunctionClass.TOGGLE i m) as [s|] eqn:Hat.
    { destruct (Hnamed i (hubspace_value s)) as [Ht _]; [|congruence].
      unfold toggle_value. now rewrite Hat. }
    destruct (state_at _ i (parsed_states _ _)) as [s'|] eqn:Hat'; [|reflexivity].
    exfalso.
    apply echo_state_at_origin in Hat' as (s & Hs & _ & _ & Hc & Hinst).
    destruct (all_states_state_at m s Hm Hs) as [Hs_at _].
    rewrite Hc in Hs_at.
    destruct (Hnamed (function_instance s) (hubspace_value s)) as [Ht _].
    { unfold toggle_value. now rewrite Hs_at. }
    rewrite Ht in Hinst. congruence.
Qed.

(** ** Local writes on toggle states *)

Lemma set_hass_value_toggle (s : HubspaceStateValue) (v : Value) :
  function_class s = FunctionClass.TOGGLE ->
  set_hass_value s v = Ok (set_hubspace_value s v).
Proof.
  intros Hc. unfold set_hass_value, Base.set_hass_value. rewrite Hc.
  now destruct (sv_cls s).
Qed.

Lemma write_state_well_keyed (m : StateMap) (c : string) (i : option string)
    (s s' : HubspaceStateValue) :
  well_keyed m ->
  state_at c i m = Some s ->
  function_class s' = function_class s ->
  function_instance s' = function_instance s ->
  well_keyed (write_state c i s' m).
Proof.
  intros Hm Hat Hc Hi.
  destruct (state_at_keyed c i s m Hm Hat) as (Hsc & Hsi & Hu).
  unfold state_at, instances_of in Hat. unfold write_state, instances_of.
  destruct (PyDict.get String.eqb c m) as [inner|] eqn:Hget; [|discriminate].
  apply (get_In String.eqb String.eqb_eq) in Hget.
  destruct Hm as [Hn Hk]. destruct (Hk c inner Hget) as [Hni Hki].
  apply well_keyed_set; [now split | |].
  - now apply (NoDup_keys_set opt_str_eqb opt_str_eqb_eq).
  - intros i0 s0 H0.
    apply (In_set opt_str_eqb opt_str_eqb_eq) in H0 as [[-> ->]|H0].
    + rewrite Hc, Hi. now repeat split.
    + now apply Hki.
Qed.

Lemma write_state_toggle_value (m : StateMap) (i i' : option string)
    (s' : HubspaceStateValue) :
  toggle_value (write_state FunctionClass.TOGGLE i s' m) i'
  = if opt_str_eqb i i' then Some (hubspace_value s') else toggle_value m i'.
Proof.
  unfold toggle_value, write_state. rewrite state_at_set_same.
  destruct (opt_str_eqb i i') eqn:E.
  - apply opt_str_eqb_eq in E. subst i'.
    now rewrite (get_set_same opt_str_eqb opt_str_eqb_eq).
  - rewrite (get_set_other opt_str_eqb opt_str_eqb_eq); [reflexivity|].
    intros H. apply opt_str_eqb_eq in H. congruence.
Qed.

Lemma write_state_truthy (c : string) (i : option string) (s : HubspaceStateValue)
    (m : StateMap) :
  states_truthy (Some (write_state c i s m)) = true.
Proof.
  unfold write_state. destruct m as [|[c0 inner0] r]; simpl; [reflexivity|].
  now destruct (String.eqb c c0).
Qed.

Lemma loaded_truthy (e : HubspaceEntity) :
  states_truthy (_states e) = true -> loaded e = e.
Proof. intros H. unfold loaded. now rewrite H. Qed.

Lemma state_at_truthy (m : StateMap) (c : string) (i : option string)
    (s : HubspaceStateValue) :
  state_at c i m = Some s -> states_truthy (Some m) = true.
Proof. now destruct m. Qed.

(** The loop of the "auto" preset disables the toggle states of the
    listed modes and leaves the other toggle states as they are. *)
Lemma disable_presets_run (modes : list string) :
  forall (w : World) (m : StateMap),
    well_keyed m ->
    _states (self w) = Some m ->
    states_truthy (Some m) = true ->
    exists m',
      disable_presets modes w
      = Ok (tt, with_self w (with_states (self w) (Some m')))
      /\ well_keyed m'
      /\ states_truthy (Some m') = true
      /\ forall i,
           toggle_value m' i
           = match toggle_value m i with
             | Some v => Some (if is_mode modes i then VStr TOGGLE_DISABLED else v)
             | None => None
             end.
Proof.
  unfold disable_presets.
  induction modes as [|mode modes IH]; intros w m Hwk Hm Ht; cbn [for_each].
  - exists m. unfold ret. rewrite (with_states_same _ m Hm), with_self_self.
    split; [reflexivity|]. split; [exact Hwk|]. split; [exact Ht|].
    intros i. now destruct (toggle_value m i).
  - assert (Hl : loaded (self w) = self w).
    { apply loaded_truthy. now rewrite Hm. }
    assert (Hm0 : _states (loaded (self w)) = Some m) by now rewrite Hl.
    unfold bind.
    rewrite (_set_state_value_tuple_run w m _ _ _ Hm0), Hl.
    destruct (state_at FunctionClass.TOGGLE (Some mode) m) as [s|] eqn:Hat.
    + destruct (state_at_keyed _ _ s m Hwk Hat) as (Hc & _ & _).
      rewrite (set_hass_value_toggle s _ Hc).
      set (s' := set_hubspace_value s (VStr TOGGLE_DISABLED)).
      set (m1 := write_state FunctionClass.TOGGLE (Some mode) s' m).
      set (w1 := with_self w (with_states (self w) (Some m1))).
      assert (Hwk1 : well_keyed m1) by (now apply write_state_well_keyed with s).
      assert (Ht1 : states_truthy (Some m1) = true) by apply write_state_truthy.
      destruct (IH w1 m1 Hwk1 eq_refl Ht1) as (m' & Hrun & Hwk' & Ht' & Htv).
      exists m'. rewrite Hrun.
      split; [reflexivity|]. split; [exact Hwk'|]. split; [exact Ht'|].
      intros i. rewrite Htv. unfold m1. rewrite write_state_toggle_value.
      unfold is_mode. cbn [existsb]. fold (is_mode modes i).
      destruct (opt_str_eqb (Some mode) i) eqn:E.
      * apply opt_str_eqb_eq in E. subst i.
        unfold toggle_value. rewrite Hat. simpl.
        now destruct (is_mode modes (Some mode)).
      * reflexivity.
    + rewrite with_self_self.
      destruct (IH w m Hwk Hm Ht) as (m' & Hrun & Hwk' & Ht' & Htv).
      exists m'. rewrite Hrun.
      split; [reflexivity|]. split; [exact Hwk'|]. split; [exact Ht'|].
      intros i. rewrite Htv.
      unfold is_mode. cbn [existsb]. fold (is_mode modes i).
      destruct (opt_str_eqb (Some mode) i) eqn:E; [|reflexivity].
      apply opt_str_eqb_eq in E. subst i.
      unfold toggle_value. now rewrite Hat.
Qed.

(** ** Reading the preset *)

Lemma first_some_In {A B} (f : A -> option B) (l : list A) (y : B) :
  first_some f l = Some y -> exists x, In x l /\ f x = Some y.
Proof.
  induction l as [|x r IH]; simpl; [discriminate|].
  destruct (f x) as [y'|] eqn:E.
  - intros H. injection H as <-. exists x. now split; [left|].
  - intros H. destruct (IH H) as (x' & Hin & Hx'). exists x'. now split; [right|].
Qed.

Lemma first_some_found {A B} (f : A -> option B) (l : list A) (x : A) :
  In x l -> f x <> None -> first_some f l <> None.
Proof.
  induction l as [|x0 r IH]; simpl; [intros []|].
  intros [->|Hin] Hx.
  - now destruct (f x).
  - destruct (f x0); [discriminate | now apply IH].
Qed.

Lemma enabled_toggle_Some (c : string) (i : option string) (s : HubspaceStateValue)
    (name : string) :
  enabled_toggle c (i, s) = Some name
  <-> i = Some name /\ c = FunctionClass.TOGGLE
      /\ Value_eqb (hubspace_value s) (VStr "enabled") = true.
Proof.
  unfold enabled_toggle. simpl.
  destruct i as [i|]; [|split; [discriminate | now intros [H _]]].
  destruct (String.eqb c FunctionClass.TOGGLE) eqn:Hc; simpl.
  - apply String.eqb_eq in Hc.
    destruct (Value_eqb _ _); split; try discriminate.
    + intros H. injection H as <-. now repeat split.
    + now intros [H _].
    + now intros (_ & _ & H).
  - apply String.eqb_neq in Hc. split; [discriminate|]. now intros (_ & H & _).
Qed.

Lemma enabled_preset_origin (m : StateMap) (name : string) :
  well_keyed m ->
  enabled_preset m = Some name ->
  exists v, toggle_value m (Some name) = Some v
            /\ Value_eqb v (VStr "enabled") = true.
Proof.
  intros Hm H. unfold enabled_preset in H.
  apply first_some_In in H as ([c inner] & Hc & H). simpl in H.
  apply first_some_In in H as ([i s] & Hi & H).
  apply enabled_toggle_Some in H as (-> & -> & Hv).
  exists (hubspace_value s). split; [|exact Hv].
  unfold toggle_value. now rewrite (state_at_of_In _ inner _ s m Hm Hc Hi).
Qed.

Lemma enabled_preset_none (m : StateMap) :
  well_keyed m ->
  (forall i v, toggle_value m i = Some v -> Value_eqb v (VStr "enabled") = false) ->
  enabled_preset m = None.
Proof.
  intros Hm Hall. destruct (enabled_preset m) as [name|] eqn:E; [|reflexivity].
  destruct (enabled_preset_origin m name Hm E) as (v & Hv & He).
  rewrite (Hall _ _ Hv) in He. discriminate.
Qed.

Lemma enabled_preset_unique (m : StateMap) (name : string) :
  well_keyed m ->
  toggle_value m (Some name) = Some (VStr "enabled") ->
  (forall i v, toggle_value m i = Some v ->
               Value_eqb v (VStr "enabled") = true -> i = Some name) ->
  enabled_preset m = Some name.
Proof.
  intros Hm Hon Hu.
  destruct (enabled_preset m) as [name'|] eqn:E.
  - destruct (enabled_preset_origin m name' Hm E) as (v & Hv & He).
    specialize (Hu _ _ Hv He). congruence.
  - exfalso. unfold toggle_value in Hon.
    destruct (state_at FunctionClass.TOGGLE (Some name) m) as [s|] eqn:Hat;
      [|discriminate].
    simpl in Hon. injection Hon as Hon.
    apply state_at_In in Hat as (inner & Hc & Hi).
    revert E. unfold enabled_preset.
    apply (first_some_found _ m (FunctionClass.TOGGLE, inner) Hc). simpl.
    apply (first_some_found _ inner (Some name, s) Hi).
    unfold enabled_toggle. simpl. rewrite Hon. discriminate.
Qed.

Lemma preset_mode_run (w : World) (m : StateMap) :
  _states (loaded (self w)) = Some m ->
  preset_mode w
  = Ok (match enabled_preset m with Some name => name | None => "auto" end,
        with_self w (loaded (self w))).
Proof.
  intros Hm. unfold preset_mode, bind. rewrite the_states_run, Hm.
  fold (enabled_preset m). now destruct (enabled_preset m).
Qed.

(** ** The preset list *)

Lemma named_instances_In {A} (inner : InstanceMap A) (name : string) :
  In (Some name) (PyDict.keys inner) -> In name (named_instances inner).
Proof.
  unfold PyDict.keys.
  induction inner as [|[[i|] x] r IH]; simpl; [intros []| |].
  - intros [H|H]; [injection H as ->; now left | right; now apply IH].
  - intros [H|H]; [discriminate | now apply IH].
Qed.

Lemma preset_modes_In (e : HubspaceEntity) (c name : string) :
  In (Some name) (PyDict.keys (instances_of c (functions e))) ->
  In name (preset_modes e).
Proof.
  intros H. unfold instances_of in H.
  destruct (PyDict.get String.eqb c (functions e)) as [inner|] eqn:Hget; [|destruct H].
  apply (get_In String.eqb String.eqb_eq) in Hget.
  assert (Hin : In name (flat_map (fun function => named_instances function)
                           (PyDict.values (functions e)))).
  { apply in_flat_map. exists inner. split.
    - unfold PyDict.values. apply in_map_iff. now exists (c, inner).
    - now apply named_instances_In. }
  unfold preset_modes.
  destruct (flat_map _ _); [destruct Hin | now right].
Qed.

Lemma is_mode_In (modes : list string) (name : string) :
  In name modes -> is_mode modes (Some name) = true.
Proof.
  intros H. unfold is_mode. apply existsb_exists. exists name.
  split; [exact H | apply String.eqb_refl].
Qed.

(** ** A push to an echoing vendor *)

Lemma _push_state_echo (T : Transport) (t : Z) (w : World) (m : StateMap) :
  grants_tokens T ->
  echoes_puts T ->
  _states (self w) = Some m ->
  states_truthy (Some m) = true ->
  exists w',
    _push_state T t w = Ok (tt, w')
    /\ self w'
       = with_skip_next_update
           (with_states (self w)
              (Some (parsed_states (_state_value_class (self w))
                       (push_values (t * 1000) m))))
           true.
Proof.
  intros [token_of Hg] He Hm Ht.
  assert (Hl : loaded (self w) = self w).
  { apply loaded_truthy. now rewrite Hm. }
  eexists. split.
  - erewrite _push_state_run; [reflexivity | apply Hg | rewrite Hl; exact Hm | apply He].
  - simpl. rewrite Hl. rewrite _set_state_entity_truthy; [reflexivity|].
    simpl. now destruct (id (self w)).
Qed.

Lemma preset_toggles_named (sleep eco : string) (i : option string) (v : Value) :
  preset_toggles sleep eco i = Some v ->
  str_truthy i = true /\ v <> VNone.
Proof.
  unfold preset_toggles.
  destruct (opt_str_eqb i (Some "sleep")) eqn:E1.
  - apply opt_str_eqb_eq in E1. subst i. intros H. injection H as <-.
    split; [reflexivity | discriminate].
  - destruct (opt_str_eqb i (Some "eco")) eqn:E2; [|discriminate].
    apply opt_str_eqb_eq in E2. subst i. intros H. injection H as <-.
    split; [reflexivity | discriminate].
Qed.

(** ** The fan presets *)

(** C8.  Take a fan whose catalog has the toggle instances sleep and
    eco, whose state map (one entry per key, as [_set_state] builds it)
    has the toggle states sleep and eco, both disabled, and no other
    toggle state, and a vendor that grants tokens and echoes what is put.
    Then [set_preset_mode "eco"] leaves sleep disabled and eco enabled
    (only eco is written) and [preset_mode] reads eco; a following
    [set_preset_mode "auto"] leaves sleep and eco disabled and
    [preset_mode] reads auto. *)
Theorem fan_preset_scenario (T : Transport) (t1 t2 : Z) (w : World) (m : StateMap) :
  grants_tokens T ->
  echoes_puts T ->
  _states (loaded (self w)) = Some m ->
  well_keyed m ->
  (forall i,
      In i (PyDict.keys (instances_of FunctionClass.TOGGLE (functions (self w))))
      <-> i = Some "sleep" \/ i = Some "eco") ->
  (forall i, toggle_value m i = preset_toggles "disabled" "disabled" i) ->
  exists w1 w2,
    set_preset_mode T t1 "eco" w = Ok (tt, w1)
    /\ (forall i, toggles_of (self w1) i = preset_toggles "disabled" "enabled" i)
    /\ preset_mode w1 = Ok ("eco", w1)
    /\ set_preset_mode T t2 "auto" w1 = Ok (tt, w2)
    /\ (forall i, toggles_of (self w2) i = preset_toggles "disabled" "disabled" i)
    /\ preset_mode w2 = Ok ("auto", w2).
Proof.
  intros Hg He Hm Hwk Hcat Hstart.
  set (e1 := loaded (self w)).
  (* the write of eco *)
  destruct (state_at FunctionClass.TOGGLE (Some "eco") m) as [s|] eqn:Hat.
  2:{ specialize (Hstart (Some "eco")). unfold toggle_value in Hstart.
      rewrite Hat in Hstart. discriminate. }
  destruct (state_at_keyed _ _ s m Hwk Hat) as (Hc & _ & _).
  set (s' := set_hubspace_value s (VStr TOGGLE_ENABLED)).
  set (ma := write_state FunctionClass.TOGGLE (Some "eco") s' m).
  set (wa := with_self w (with_states e1 (Some ma))).
  assert (Hwa : _set_state_value (TupleKey FunctionClass.TOGGLE (Some "eco"))
                  (VStr TOGGLE_ENABLED) w = Ok (tt, wa)).
  { rewrite (_set_state_value_tuple_run w m _ _ _ Hm), Hat.
    now rewrite (set_hass_value_toggle s _ Hc). }
  assert (Hwka : well_keyed ma) by (now apply write_state_well_keyed with s).
  assert (Htva : forall i, toggle_value ma i = preset_toggles "disabled" "enabled" i).
  { intros i. unfold ma. rewrite write_state_toggle_value, Hstart.
    unfold preset_toggles.
    destruct (opt_str_eqb (Some "eco") i) eqn:E.
    - apply opt_str_eqb_eq in E. now subst i.
    - destruct (opt_str_eqb i (Some "sleep")); [reflexivity|].
      destruct (opt_str_eqb i (Some "eco")) eqn:E'; [|reflexivity].
      apply opt_str_eqb_eq in E'. subst i. discriminate. }
  (* the push of eco *)
  destruct (_push_state_echo T t1 wa ma Hg He eq_refl (write_state_truthy _ _ _ _))
    as (w1 & Hpush1 & Hself1).
  set (m1 := parsed_states (_state_value_class (self wa)) (push_values (t1 * 1000) ma)) in *.
  assert (Hs1 : _states (self w1) = Some m1) by now rewrite Hself1.
  assert (Hwk1 : well_keyed m1) by apply parsed_states_well_keyed.
  assert (Htv1 : forall i, toggle_value m1 i = preset_toggles "disabled" "enabled" i).
  { intros i. unfold m1. rewrite echo_toggle_value; [apply Htva | exact Hwka |].
    intros i0 v Hv. rewrite Htva in Hv. now apply preset_toggles_named in Hv. }
  assert (Ht1 : states_truthy (Some m1) = true).
  { specialize (Htv1 (Some "eco")). unfold toggle_value in Htv1.
    destruct (state_at _ _ m1) eqn:E; [|discriminate].
    now apply state_at_truthy in E. }
  assert (Hl1 : loaded (self w1) = self w1).
  { apply loaded_truthy. now rewrite Hs1. }
  (* the loop of auto *)
  destruct (disable_presets_run (preset_modes (self w1)) w1 m1 Hwk1 Hs1 Ht1)
    as (mb & Hloop & Hwkb & Htb & Htvb).
  set (wb := with_self w1 (with_states (self w1) (Some mb))) in *.
  assert (Hfun : functions (self w1) = functions (self w)).
  { rewrite Hself1. unfold wa, e1, loaded, _set_state_entity. simpl.
    destruct (negb _); [|reflexivity].
    now destruct (payload_truthy _). }
  assert (Hmodes : forall name, name = "sleep" \/ name = "eco" ->
                                is_mode (preset_modes (self w1)) (Some name) = true).
  { intros name Hname. apply is_mode_In.
    apply preset_modes_In with FunctionClass.TOGGLE.
    rewrite Hfun. apply Hcat. destruct Hname as [-> | ->]; tauto. }
  assert (Htvb' : forall i, toggle_value mb i = preset_toggles "disabled" "disabled" i).
  { intros i. rewrite Htvb, Htv1. unfold preset_toggles.
    destruct (opt_str_eqb i (Some "sleep")) eqn:E1.
    - now destruct (is_mode _ i).
    - destruct (opt_str_eqb i (Some "eco")) eqn:E2; [|reflexivity].
      apply opt_str_eqb_eq in E2. subst i.
      now rewrite (Hmodes "eco" (or_intror eq_refl)). }
  (* the push of auto *)
  destruct (_push_state_echo T t2 wb mb Hg He eq_refl Htb) as (w2 & Hpush2 & Hself2).
  set (m2 := parsed_states (_state_value_class (self wb)) (push_values (t2 * 1000) mb)) in *.
  assert (Hs2 : _states (self w2) = Some m2) by now rewrite Hself2.
  assert (Htv2 : forall i, toggle_value m2 i = preset_toggles "disabled" "disabled" i).
  { intros i. unfold m2. rewrite echo_toggle_value; [apply Htvb' | exact Hwkb |].
    intros i0 v Hv. rewrite Htvb' in Hv. now apply preset_toggles_named in Hv. }
  assert (Ht2 : states_truthy (Some m2) = true).
  { specialize (Htv2 (Some "eco")). unfold toggle_value in Htv2.
    destruct (state_at _ _ m2) eqn:E; [|discriminate].
    now apply state_at_truthy in E. }
  assert (Hl2 : loaded (self w2) = self w2).
  { apply loaded_truthy. now rewrite Hs2. }
  exists w1, w2. split; [|split; [|split; [|split; [|split]]]].
  - unfold set_preset_mode. simpl String.eqb. cbv iota.
    unfold bind at 1. now rewrite Hwa.
  - intros i. unfold toggles_of. rewrite Hs1. apply Htv1.
  - rewrite (preset_mode_run w1 m1) by now rewrite Hl1.
    rewrite Hl1, with_self_self.
    rewrite (enabled_preset_unique m1 "eco" Hwk1); [reflexivity | now rewrite Htv1 |].
    intros i v Hv Hon. rewrite Htv1 in Hv. unfold preset_toggles in Hv.
    destruct (opt_str_eqb i (Some "sleep")) eqn:E1.
    + injection Hv as <-. discriminate.
    + destruct (opt_str_eqb i (Some "eco")) eqn:E2; [|discriminate].
      now apply opt_str_eqb_eq in E2.
  - unfold set_preset_mode. simpl String.eqb. cbv iota.
    unfold bind at 1. unfold bind at 1. unfold get_self at 1.
    fold (disable_presets (preset_modes (self w1))).
    now rewrite Hloop.
  - intros i. unfold toggles_of. rewrite Hs2. apply Htv2.
  - rewrite (preset_mode_run w2 m2) by now rewrite Hl2.
    rewrite Hl2, with_self_self.
    rewrite (enabled_preset_none m2); [reflexivity | apply parsed_states_well_keyed |].
    intros i v Hv. rewrite Htv2 in Hv. unfold preset_toggles in Hv.
    destruct (opt_str_eqb i (Some "sleep")); [now injection Hv as <-|].
    destruct (opt_str_eqb i (Some "eco")); [now injection Hv as <- | discriminate].
Qed.

Lemma fan_preset_scenario_witness :
  (_states (loaded (self sample_world)) = Some sample_states
   /\ well_keyed sample_states
   /\ forall i, toggle_value sample_states i = preset_toggles "disabled" "disabled" i)
  /\ exists w1 w2,
       set_preset_mode sample_vendor 1650000001 "eco" sample_world = Ok (tt, w1)
       /\ (forall i, toggles_of (self w1) i = preset_toggles "disabled" "enabled" i)
       /\ preset_mode w1 = Ok ("eco", w1)
       /\ set_preset_mode sample_vendor 1650000002 "auto" w1 = Ok (tt, w2)
       /\ (forall i, toggles_of (self w2) i = preset_toggles "disabled" "disabled" i)
       /\ preset_mode w2 = Ok ("auto", w2).
Proof.
  assert (Hwk : well_keyed sample_states) by apply parsed_states_well_keyed.
  assert (Htv : forall i, toggle_value sample_states i
                          = preset_toggles "disabled" "disabled" i).
  { intros i. unfold toggle_value, preset_toggles, state_at. simpl.
    destruct (opt_str_eqb i (Some "sleep")); [reflexivity|].
    now destruct (opt_str_eqb i (Some "eco")). }
  split; [split; [reflexivity | split; [exact Hwk | exact Htv]]|].
  apply (fan_preset_scenario sample_vendor 1650000001 1650000002 sample_world
           sample_states).
  - now exists (fun _ _ => Some "token-1").
  - now intros history account_id device_id tok state_payload.
  - reflexivity.
  - exact Hwk.
  - intros i. simpl. intuition congruence.
  - exact Htv.
Defined.

(* ================================================================= *)
(** * Further properties of the code *)

(** ** Brightness on the platform's scale *)

Lemma floor_div_bounds (a b : Z) :
  0 < b -> b * (a / b) <= a < b * (a / b) + b.
Proof.
  intros Hb.
  pose proof (Z.div_mod a b ltac:(lia)) as H1.
  pose proof (Z.mod_pos_bound a b Hb) as H2.
  lia.
Qed.

(** X1.  A brightness of the platform, from 0 to 255, is stored as a
    raw value from 0 to 100 and a raw value from 0 to 100 reads as a
    brightness from 0 to 255; both conversions are monotone; and a
    platform brightness that is stored and read again never comes back
    higher, and comes back lower by at most 3. *)
Theorem brightness_store_and_read (hass : Z) :
  0 <= hass <= 255 ->
  (exists raw back,
      _brightness_to_hubspace (VInt hass) = Ok (VInt raw)
      /\ 0 <= raw <= 100
      /\ _brightness_to_hass (VInt raw) = Ok (VInt back)
      /\ hass - 3 <= back <= hass)
  /\ (forall raw, 0 <= raw <= 100 ->
        exists h, _brightness_to_hass (VInt raw) = Ok (VInt h) /\ 0 <= h <= 255)
  /\ (forall a b x y,
        a <= b ->
        _brightness_to_hubspace (VInt a) = Ok (VInt x) ->
        _brightness_to_hubspace (VInt b) = Ok (VInt y) ->
        x <= y)
  /\ (forall a b x y,
        a <= b ->
        _brightness_to_hass (VInt a) = Ok (VInt x) ->
        _brightness_to_hass (VInt b) = Ok (VInt y) ->
        x <= y).
Proof.
  intros Hh. split; [|split; [|split]].
  - exists (hass * 100 / 255), (hass * 100 / 255 * 255 / 100).
    pose proof (floor_div_bounds (hass * 100) 255 ltac:(lia)) as H1.
    pose proof (floor_div_bounds (hass * 100 / 255 * 255) 100 ltac:(lia)) as H2.
    split; [reflexivity|]. split; [lia|]. split; [reflexivity|]. lia.
  - intros raw Hr. exists (raw * 255 / 100). split; [reflexivity|].
    pose proof (floor_div_bounds (raw * 255) 100 ltac:(lia)) as H1. lia.
  - intros a b x y Hab Hx Hy. simpl in Hx, Hy.
    injection Hx as <-. injection Hy as <-.
    apply Z.div_le_mono; lia.
  - intros a b x y Hab Hx Hy. simpl in Hx, Hy.
    injection Hx as <-. injection Hy as <-.
    apply Z.div_le_mono; lia.
Qed.

Lemma brightness_store_and_read_witness :
  0 <= 5 <= 255
  /\ exists raw back,
       _brightness_to_hubspace (VInt 5) = Ok (VInt raw)
       /\ 0 <= raw <= 100
       /\ _brightness_to_hass (VInt raw) = Ok (VInt back)
       /\ 5 - 3 <= back <= 5.
Proof.
  split; [lia|].
  exact (proj1 (brightness_store_and_read 5 ltac:(lia))).
Defined.

(** ** The state value of a light *)

Lemma set_hubspace_value_key (s : HubspaceStateValue) (v : Value) :
  sv_cls (set_hubspace_value s v) = sv_cls s
  /\ function_class (set_hubspace_value s v) = function_class s
  /\ function_instance (set_hubspace_value s v) = function_instance s
  /\ hubspace_value (set_hubspace_value s v) = v.
Proof. now repeat split. Qed.

(** X2.  On a state value of a light: a brightness is written as
    [floor (b * 100 / 255)] and read as [floor (raw * 255 / 100)], so a
    brightness [b] from 0 to 255 that is written and read comes back
    between [b - 3] and [b]; writing [None] or a text as brightness
    raises [TypeError], and so does reading a brightness whose raw value
    is null; for every other class the write stores the value as it is
    (also for the "available" class, whose base-class write stores the
    text of the value). *)
Theorem light_state_value_conversions (s : HubspaceStateValue) (b : Z) :
  sv_cls s = HubspaceLightStateValueCls ->
  0 <= b <= 255 ->
  (function_class s = FunctionClass.BRIGHTNESS ->
   (exists back,
       result_bind (set_hass_value s (VInt b)) hass_value = Ok (VInt back)
       /\ b - 3 <= back <= b)
   /\ set_hass_value s (VInt b) = Ok (set_hubspace_value s (VInt (b * 100 / 255)))
   /\ set_hass_value s VNone = Raise TypeError
   /\ (forall text, set_hass_value s (VStr text) = Raise TypeError)
   /\ (hubspace_value s = VNone -> hass_value s = Raise TypeError))
  /\ (function_class s <> FunctionClass.BRIGHTNESS ->
      forall v, set_hass_value s v = Ok (set_hubspace_value s v)).
Proof.
  intros Hcls Hb. split.
  - intros Hc.
    assert (Hset : set_hass_value s (VInt b)
                   = Ok (set_hubspace_value s (VInt (b * 100 / 255)))).
    { unfold set_hass_value. now rewrite Hcls, Hc. }
    split; [|split; [exact Hset|split; [|split]]].
    + exists (b * 100 / 255 * 255 / 100). rewrite Hset.
      destruct (set_hubspace_value_key s (VInt (b * 100 / 255))) as (K1 & K2 & _ & K4).
      cbn [result_bind]. unfold hass_value. rewrite K1, K2, K4, Hcls, Hc.
      split; [reflexivity|].
      pose proof (floor_div_bounds (b * 100) 255 ltac:(lia)) as H1.
      pose proof (floor_div_bounds (b * 100 / 255 * 255) 100 ltac:(lia)) as H2.
      lia.
    + unfold set_hass_value. now rewrite Hcls, Hc.
    + intros text. unfold set_hass_value. now rewrite Hcls, Hc.
    + intros Hv. unfold hass_value. now rewrite Hcls, Hc, Hv.
  - intros Hc v. unfold set_hass_value. rewrite Hcls.
    apply String.eqb_neq in Hc. now rewrite Hc.
Qed.

Lemma light_state_value_conversions_witness :
  0 <= 128 <= 255
  /\ set_hass_value
       (wrap HubspaceLightStateValueCls
          {| functionClass := Some FunctionClass.BRIGHTNESS;
             functionInstance := None;
             value := VInt 10;
             lastUpdateTime := None |}) (VInt 128)
     = Ok (wrap HubspaceLightStateValueCls
             {| functionClass := Some FunctionClass.BRIGHTNESS;
                functionInstance := None;
                value := VInt 50;
                lastUpdateTime := None |}).
Proof.
  split; [lia|].
  exact (proj1 (proj2 (proj1
           (light_state_value_conversions
              (wrap HubspaceLightStateValueCls
                 {| functionClass := Some FunctionClass.BRIGHTNESS;
                    functionInstance := None;
                    value := VInt 10;
                    lastUpdateTime := None |}) 128 eq_refl ltac:(lia))
           eq_refl))).
Defined.

(** ** Lookup by class and instance *)

Lemma _get_state_value_tuple_run (w : World) (m : StateMap) (c : string)
    (i : option string) (default : Value) :
  _states (loaded (self w)) = Some m ->
  _get_state_value (TupleKey c i) default w
  = match state_at c i m with
    | Some s =>
        result_bind (hass_value s) (fun v => Ok (v, with_self w (loaded (self w))))
    | None => Ok (default, with_self w (loaded (self w)))
    end.
Proof.
  intros Hm. unfold _get_state_value, bind. rewrite the_states_run, Hm. simpl.
  destruct (state_at c i m) as [s|]; [|reflexivity].
  unfold lift. now destruct (hass_value s).
Qed.

Lemma parsed_states_nonempty (cls : StateValueCls) (state : option StateData) :
  states_truthy (Some (parsed_states cls (payload_values state))) = true ->
  payload_truthy state = true.
Proof.
  destruct state as [[mid [l|]]|]; simpl; try discriminate.
  now destruct mid.
Qed.

(** X3.  After a state payload has been applied and has left a map that
    is not empty, the lookup by (class, instance) returns the
    domain-level reading of the last payload entry listed with that class
    and instance, and the default when the payload lists none; it sends
    nothing and logs nothing. *)
Theorem tuple_lookup_reads_last_entry (state : option StateData) (w : World)
    (c : string) (i : option string) (default : Value) :
  let cls := _state_value_class (self w) in
  let w1 := with_self w (_set_state_entity (self w) state) in
  states_truthy (Some (parsed_states cls (payload_values state))) = true ->
  (_set_state state ;;; _get_state_value (TupleKey c i) default) w
  = match payload_entry c i (payload_values state) with
    | Some v => result_bind (hass_value (wrap cls v)) (fun r => Ok (r, w1))
    | None => Ok (default, w1)
    end.
Proof.
  intros cls w1 Ht.
  pose proof (parsed_states_nonempty cls state Ht) as Hp.
  unfold bind. rewrite _set_state_run. fold w1.
  assert (Hs : _states (self w1) = Some (parsed_states cls (payload_values state))).
  { unfold w1. simpl. now rewrite (_set_state_entity_truthy _ _ Hp). }
  assert (Hl : loaded (self w1) = self w1).
  { apply loaded_truthy. now rewrite Hs. }
  rewrite (_get_state_value_tuple_run w1 (parsed_states cls (payload_values state)))
    by now rewrite Hl.
  rewrite Hl, with_self_self.
  unfold parsed_states. rewrite parsed_states_from. unfold payload_entry.
  now destruct (find _ _).
Qed.

Lemma tuple_lookup_reads_last_entry_witness :
  states_truthy
    (Some (parsed_states HubspaceStateValueCls (payload_values (Some sample_state)))) = true
  /\ (_set_state (Some sample_state) ;;;
      _get_state_value (TupleKey "toggle" (Some "eco")) VNone) sample_world
     = Ok (VStr "disabled", sample_loaded_world).
Proof.
  split; [reflexivity|].
  exact (tuple_lookup_reads_last_entry (Some sample_state) sample_world
           "toggle" (Some "eco") VNone eq_refl).
Defined.

(** ** Availability *)

Lemma values_In {A} (inner : InstanceMap A) (x : A) :
  In x (PyDict.values inner) -> exists i, In (i, x) inner.
Proof.
  unfold PyDict.values. intros H.
  apply in_map_iff in H as ([i y] & <- & H). now exists i.
Qed.

Lemma instances_of_In {A} (c : string) (i : option string) (x : A)
    (m : PyDict.t string (InstanceMap A)) :
  In (i, x) (instances_of c m) -> In (c, instances_of c m) m.
Proof.
  unfold instances_of.
  destruct (PyDict.get String.eqb c m) as [inner|] eqn:E; [|intros []].
  intros _. now apply (get_In String.eqb String.eqb_eq).
Qed.

Lemma first_value_keyed (m : StateMap) (c : string) (first : HubspaceStateValue)
    (rest : list HubspaceStateValue) :
  well_keyed m ->
  PyDict.values (instances_of c m) = first :: rest ->
  function_class first = c.
Proof.
  intros [_ Hk] Hv.
  destruct (values_In (instances_of c m) first) as [i Hi].
  { rewrite Hv. now left. }
  pose proof (instances_of_In c i first m Hi) as Hc.
  destruct (Hk _ _ Hc) as [_ H]. now destruct (H i first Hi).
Qed.

(** X4.  With a state map that has one entry per key, [available] always
    returns a boolean: [True] when the map has no state of the
    "available" class, and otherwise the truthiness of the raw value of
    the first such state, so that any non-empty text (also "false") and
    any number but 0 read as available.  This holds for the state values
    of a light as well. *)
Theorem available_reads_truthiness (w : World) (m : StateMap) :
  _states (loaded (self w)) = Some m ->
  well_keyed m ->
  exists w',
    available w
    = Ok (VBool match PyDict.values (instances_of FunctionClass.AVAILABLE m) with
                | [] => true
                | first :: _ => py_bool (hubspace_value first)
                end, w')
    /\ sent w' = sent w.
Proof.
  intros Hm Hwk. unfold available.
  rewrite (_get_state_value_class_run w m _ _ Hm).
  destruct (PyDict.values (instances_of FunctionClass.AVAILABLE m))
    as [|first rest] eqn:Hv.
  - eexists. split; reflexivity.
  - pose proof (first_value_keyed m _ first rest Hwk Hv) as Hc.
    assert (Hh : hass_value first = Ok (VBool (py_bool (hubspace_value first)))).
    { unfold hass_value, Base.hass_value. rewrite Hc.
      now destruct (sv_cls first). }
    rewrite Hh. destruct rest; eexists; split; reflexivity.
Qed.

Lemma available_reads_truthiness_witness :
  (_states (loaded (self sample_world)) = Some sample_states /\ well_keyed sample_states)
  /\ exists w',
       available sample_world
       = Ok (VBool
               match PyDict.values (instances_of FunctionClass.AVAILABLE sample_states) with
               | [] => true
               | first :: _ => py_bool (hubspace_value first)
               end, w')
       /\ sent w' = sent sample_world.
Proof.
  assert (Hwk : well_keyed sample_states) by apply parsed_states_well_keyed.
  split; [split; [reflexivity | exact Hwk]|].
  exact (available_reads_truthiness sample_world sample_states eq_refl Hwk).
Defined.

(** ** An entity without state *)

Lemma the_states_none (w : World) :
  _states (self w) = None ->
  payload_truthy (data_state (self w)) = false ->
  the_states w = Raise AttributeError.
Proof.
  intros Hs Hp. rewrite the_states_run.
  unfold loaded. rewrite Hs. simpl.
  now rewrite (_set_state_entity_falsy _ _ Hp), Hs.
Qed.

(** X5.  While an entity has no state map and its device payload has no
    state (none, or an empty object), every method that goes through the
    [states] property raises [AttributeError], whatever the key and the
    default: the lookup does not return its default, the local write is
    no no-op, and a push fails after the token has been fetched.  A
    direct [set_state] does not read the map and is not concerned. *)
Theorem no_state_raises_attribute_error (w : World) :
  _states (self w) = None ->
  payload_truthy (data_state (self w)) = false ->
  (forall key default, _get_state_value key default w = Raise AttributeError)
  /\ (forall key v, _set_state_value key v w = Raise AttributeError)
  /\ available w = Raise AttributeError
  /\ preset_mode w = Raise AttributeError
  /\ (forall STATE_ON STATE_OFF, is_on STATE_ON STATE_OFF w = Raise AttributeError)
  /\ (forall T t tok,
        T (sent w) (PostToken (_refresh_token (self w))) = Some (TokenJson tok) ->
        _push_state T t w = Raise AttributeError)
  /\ (forall T t vals tok body,
        T (sent w) (PostToken (_refresh_token (self w))) = Some (TokenJson tok) ->
        T (sent w ++ [PostToken (_refresh_token (self w))])
          (PutState (_account_id (self w)) (id (self w)) tok
             {| metadeviceId := id (self w);
                values := Some (map (stamp (t * 1000)) vals) |})
        = Some (StateJson body) ->
        exists w', set_state T t vals w = Ok (tt, w')).
Proof.
  intros Hs Hp. pose proof (the_states_none w Hs Hp) as Hn.
  assert (Hget : forall key default, _get_state_value key default w = Raise AttributeError).
  { intros [c|c i] default; unfold _get_state_value, bind; now rewrite Hn. }
  split; [exact Hget|]. split; [|split; [|split; [|split; [|split]]]].
  - intros [c|c i] v; unfold _set_state_value, bind; now rewrite Hn.
  - apply Hget.
  - unfold preset_mode, bind. now rewrite Hn.
  - intros STATE_ON STATE_OFF. unfold is_on, bind. now rewrite Hget.
  - intros T t tok Ht. unfold _push_state, bind, get_self.
    unfold get_auth_token, bind, send. rewrite Ht. simpl.
    assert (Hn' : the_states (with_sent w (PostToken (_refresh_token (self w))))
                  = Raise AttributeError) by now apply the_states_none.
    now rewrite Hn'.
  - intros T t vals tok body Ht Hput.
    eexists. exact (set_state_run T t vals w tok body Ht Hput).
Qed.

Lemma no_state_raises_attribute_error_witness :
  (_states (self stateless_world) = None
   /\ payload_truthy (data_state (self stateless_world)) = false)
  /\ _get_state_value (ClassKey FunctionClass.POWER) (VStr "off") stateless_world
     = Raise AttributeError.
Proof.
  split; [split; reflexivity|].
  exact (proj1 (no_state_raises_attribute_error stateless_world eq_refl eq_refl)
           (ClassKey FunctionClass.POWER) (VStr "off")).
Defined.

(** ** The preset that is read *)

Lemma enabled_preset_found (m : StateMap) (name : string) (v : Value) :
  toggle_value m (Some name) = Some v ->
  Value_eqb v (VStr "enabled") = true ->
  enabled_preset m <> None.
Proof.
  unfold toggle_value. intros Hv Hon.
  destruct (state_at FunctionClass.TOGGLE (Some name) m) as [s|] eqn:Hat; [|discriminate].
  simpl in Hv. injection Hv as <-.
  apply state_at_In in Hat as (inner & Hc & Hi).
  unfold enabled_preset.
  apply (first_some_found _ m (FunctionClass.TOGGLE, inner) Hc). simpl.
  apply (first_some_found _ inner (Some name, s) Hi).
  unfold enabled_toggle. simpl. rewrite Hon. discriminate.
Qed.

(** X6.  With a state map that has one entry per key, [preset_mode]
    returns either the instance name of a toggle state whose raw value
    equals "enabled", or "auto", and "auto" only when no toggle state
    with an instance name has the raw value "enabled".  States of other
    classes and a toggle state without instance never decide the result;
    the call sends nothing and logs nothing. *)
Theorem preset_mode_reads_enabled_toggle (w : World) (m : StateMap) :
  _states (loaded (self w)) = Some m ->
  well_keyed m ->
  exists mode,
    preset_mode w = Ok (mode, with_self w (loaded (self w)))
    /\ ((exists v, toggle_value m (Some mode) = Some v
                   /\ Value_eqb v (VStr "enabled") = true)
        \/ (mode = "auto"
            /\ forall name v,
                 toggle_value m (Some name) = Some v ->
                 Value_eqb v (VStr "enabled") = false)).
Proof.
  intros Hm Hwk. rewrite (preset_mode_run w m Hm).
  destruct (enabled_preset m) as [name|] eqn:E.
  - exists name. split; [reflexivity|]. left.
    now apply enabled_preset_origin.
  - exists "auto". split; [reflexivity|]. right. split; [reflexivity|].
    intros name v Hv.
    destruct (Value_eqb v (VStr "enabled")) eqn:Hon; [|reflexivity].
    exfalso. now apply (enabled_preset_found m name v Hv Hon).
Qed.

Lemma preset_mode_reads_enabled_toggle_witness :
  (_states (loaded (self sample_world)) = Some sample_states /\ well_keyed sample_states)
  /\ exists mode,
       preset_mode sample_world = Ok (mode, sample_loaded_world)
       /\ ((exists v, toggle_value sample_states (Some mode) = Some v
                      /\ Value_eqb v (VStr "enabled") = true)
           \/ (mode = "auto"
               /\ forall name v,
                    toggle_value sample_states (Some name) = Some v ->
                    Value_eqb v (VStr "enabled") = false)).
Proof.
  assert (Hwk : well_keyed sample_states) by apply parsed_states_well_keyed.
  split; [split; [reflexivity | exact Hwk]|].
  exact (preset_mode_reads_enabled_toggle sample_world sample_states eq_refl Hwk).
Defined.

(** ** The shape of the state map *)

Lemma set_hass_value_key (s s' : HubspaceStateValue) (v : Value) :
  set_hass_value s v = Ok s' ->
  sv_cls s' = sv_cls s
  /\ function_class s' = function_class s
  /\ function_instance s' = function_instance s.
Proof.
  intros H. apply set_hass_value_frame in H. rewrite H.
  now destruct (set_hubspace_value_key s (hubspace_value s')) as (? & ? & ? & _).
Qed.

Lemma set_hass_value_all_keys (inner inner' : InstanceMap HubspaceStateValue) (v : Value) :
  set_hass_value_all inner v = Ok inner' ->
  PyDict.keys inner' = PyDict.keys inner
  /\ forall i s', In (i, s') inner' ->
                  exists s, In (i, s) inner /\ set_hass_value s v = Ok s'.
Proof.
  revert inner'. induction inner as [|[i s] r IH]; intros inner' H; simpl in H.
  - injection H as <-. split; [reflexivity | intros i s' []].
  - destruct (set_hass_value s v) as [s1|] eqn:Hs; [|discriminate]. simpl in H.
    destruct (set_hass_value_all r v) as [r1|] eqn:Hr; [|discriminate]. simpl in H.
    injection H as <-. destruct (IH r1 eq_refl) as [Hk Hin].
    split; [simpl; now rewrite Hk|].
    intros i0 s0 [E|E].
    + injection E as <- <-. exists s. split; [now left | exact Hs].
    + destruct (Hin i0 s0 E) as (s2 & H2 & H3). exists s2. split; [now right | exact H3].
Qed.

Lemma get_keys_iff {A} (i : option string) (inner inner' : InstanceMap A) :
  PyDict.keys inner' = PyDict.keys inner ->
  (PyDict.get opt_str_eqb i inner' = None <-> PyDict.get opt_str_eqb i inner = None).
Proof.
  unfold PyDict.keys. revert inner'.
  induction inner as [|[k x] r IH]; intros [|[k' x'] r'] H; simpl in *;
    try discriminate; [tauto|].
  injection H as -> H. destruct (opt_str_eqb i k); [split; discriminate|].
  now apply IH.
Qed.

Lemma get_set_None_iff {A} (i k : option string) (x y : A) (inner : InstanceMap A) :
  PyDict.get opt_str_eqb k inner = Some y ->
  (PyDict.get opt_str_eqb i (PyDict.set opt_str_eqb k x inner) = None
   <-> PyDict.get opt_str_eqb i inner = None).
Proof.
  intros Hk. apply get_keys_iff.
  apply (keys_set_present opt_str_eqb). unfold PyDict.mem. now rewrite Hk.
Qed.

(** X7.  The state map keeps its shape.  Whatever the payload, the map
    that [_set_state] builds has one entry per class and, in each class,
    one state per instance, each filed under its own class and instance
    and none of the unsupported class; and a local write, by class or by
    (class, instance), that returns leaves a map of that shape with the
    same keys: it creates no state and drops none. *)
Theorem local_writes_keep_the_map_well_keyed (w w' : World) (m : StateMap)
    (key : FunctionKey) (v : Value) :
  _states (loaded (self w)) = Some m ->
  well_keyed m ->
  _set_state_value key v w = Ok (tt, w') ->
  (exists m',
      _states (self w') = Some m'
      /\ well_keyed m'
      /\ forall c i, state_at c i m' = None <-> state_at c i m = None)
  /\ forall cls vals, well_keyed (parsed_states cls vals).
Proof.
  intros Hm Hwk Hrun. split; [|intros cls vals; apply parsed_states_well_keyed].
  destruct key as [c|c i].
  - rewrite (_set_state_value_class_run w m c v Hm) in Hrun.
    destruct (PyDict.get String.eqb c m) as [inner|] eqn:Hget.
    + destruct (set_hass_value_all inner v) as [inner'|] eqn:Hall; [|discriminate].
      injection Hrun as <-.
      destruct (set_hass_value_all_keys inner inner' v Hall) as [Hkeys Hin].
      pose proof (get_In String.eqb String.eqb_eq _ _ _ Hget) as Hc.
      destruct Hwk as [Hn Hk]. destruct (Hk c inner Hc) as [Hni Hki].
      exists (PyDict.set String.eqb c inner' m).
      split; [reflexivity|]. split.
      * apply well_keyed_set; [now split | now rewrite Hkeys |].
        intros i s' Hs'. destruct (Hin i s' Hs') as (s & Hs & Hset).
        destruct (set_hass_value_key s s' v Hset) as (_ & K2 & K3).
        rewrite K2, K3. now apply Hki.
      * intros c' i. destruct (String.eqb c c') eqn:E.
        -- apply String.eqb_eq in E. subst c'. rewrite state_at_set_same.
           unfold state_at, instances_of. rewrite Hget.
           now apply get_keys_iff.
        -- apply String.eqb_neq in E. now rewrite state_at_set_other.
    + injection Hrun as <-. exists m. simpl. split; [exact Hm|]. split; [exact Hwk|].
      tauto.
  - rewrite (_set_state_value_tuple_run w m c i v Hm) in Hrun.
    destruct (state_at c i m) as [s|] eqn:Hat.
    + destruct (set_hass_value s v) as [s'|] eqn:Hset; [|discriminate].
      injection Hrun as <-.
      destruct (set_hass_value_key s s' v Hset) as (_ & K2 & K3).
      exists (write_state c i s' m). split; [reflexivity|]. split.
      * now apply write_state_well_keyed with s.
      * intros c' i'. unfold write_state.
        destruct (String.eqb c c') eqn:E.
        -- apply String.eqb_eq in E. subst c'. rewrite state_at_set_same.
           unfold state_at in *. now apply get_set_None_iff with s.
        -- apply String.eqb_neq in E. now rewrite state_at_set_other.
    + injection Hrun as <-. exists m. simpl. split; [exact Hm|]. split; [exact Hwk|].
      tauto.
Qed.

Lemma local_writes_keep_the_map_well_keyed_witness :
  (_states (loaded (self sample_world)) = Some sample_states
   /\ well_keyed sample_states
   /\ _set_state_value (ClassKey FunctionClass.TOGGLE) (VStr TOGGLE_ENABLED) sample_world
      = Ok (tt, sample_written_world)
   /\ option_map hubspace_value
        (state_at FunctionClass.TOGGLE (Some "eco") sample_states)
      = Some (VStr TOGGLE_DISABLED))
  /\ exists m',
       _states (self sample_written_world) = Some m'
       /\ option_map hubspace_value (state_at FunctionClass.TOGGLE (Some "eco") m')
          = Some (VStr TOGGLE_ENABLED)
       /\ well_keyed m'
       /\ forall c i, state_at c i m' = None <-> state_at c i sample_states = None.
Proof.
  assert (Hwk : well_keyed sample_states) by apply parsed_states_well_keyed.
  split; [split; [reflexivity | split; [exact Hwk | split; reflexivity]]|].
  destruct (proj1 (local_writes_keep_the_map_well_keyed sample_world sample_written_world
                     sample_states (ClassKey FunctionClass.TOGGLE) (VStr TOGGLE_ENABLED)
                     eq_refl Hwk eq_refl))
    as (m' & Hst & Hwk' & Hkeys).
  exists m'. split; [exact Hst|]. split; [|split; [exact Hwk' | exact Hkeys]].
  assert (E : Some m' = _states (self sample_written_world)) by now symmetry.
  injection E as ->. reflexivity.
Defined.

(** ** What comes back from an echo *)

Lemma find_map_comm {A B} (P : B -> bool) (f : A -> B) (l : list A) :
  find P (map f l) = option_map f (find (fun x => P (f x)) l).
Proof.
  induction l as [|x r IH]; simpl; [reflexivity|].
  now destruct (P (f x)).
Qed.

Lemma find_filter {A} (P q : A -> bool) (l : list A) :
  find P (filter q l) = find (fun x => q x && P x) l.
Proof.
  induction l as [|x r IH]; simpl; [reflexivity|].
  destruct (q x); simpl; [|exact IH].
  now destruct (P x).
Qed.

Lemma find_app_split {A} (P : A -> bool) (l1 l2 : list A) :
  find P (l1 ++ l2)
  = match find P l1 with Some x => Some x | None => find P l2 end.
Proof.
  induction l1 as [|x r IH]; simpl; [reflexivity|].
  now destruct (P x).
Qed.

Lemma find_ext_in {A} (P Q : A -> bool) (l : list A) :
  (forall x, In x l -> P x = Q x) -> find P l = find Q l.
Proof.
  induction l as [|x r IH]; simpl; [reflexivity|].
  intros H. rewrite (H x (or_introl eq_refl)).
  destruct (Q x); [reflexivity|].
  apply IH. intros y Hy. apply H. now right.
Qed.

Lemma str_truthy_false (i : option string) :
  str_truthy i = false <-> i = None \/ i = Some "".
Proof.
  destruct i as [x|]; simpl.
  - rewrite negb_false_iff, String.eqb_eq. split.
    + intros ->. now right.
    + intros [H|H]; [discriminate | now injection H].
  - split; [now left | reflexivity].
Qed.

Lemma entry_matches_unnamed (c : string) (t : Z) (s : HubspaceStateValue) :
  function_class s = c ->
  c <> FunctionClass.UNSUPPORTED ->
  entry_matches c None (push_entry t s) = negb (str_truthy (function_instance s)).
Proof.
  intros Hc Hu.
  destruct (entry_matches c None (push_entry t s)) eqn:E.
  - apply entry_matches_push_entry in E as (_ & _ & Hi).
    destruct (str_truthy (function_instance s)) eqn:Ht; [|reflexivity].
    rewrite Hi in Ht. discriminate.
  - destruct (str_truthy (function_instance s)) eqn:Ht; [reflexivity|].
    assert (H : entry_matches c None (push_entry t s) = true); [|congruence].
    apply entry_matches_push_entry. rewrite Ht, Hc. now repeat split.
Qed.

Lemma entry_matches_other_class (c : string) (i : option string) (t : Z)
    (s : HubspaceStateValue) :
  function_class s <> c -> entry_matches c i (push_entry t s) = false.
Proof.
  intros Hc. destruct (entry_matches c i (push_entry t s)) eqn:E; [|reflexivity].
  apply entry_matches_push_entry in E as (_ & H & _). contradiction.
Qed.

Lemma well_keyed_tail (c0 : string) (inner0 : InstanceMap HubspaceStateValue)
    (rest : StateMap) :
  well_keyed ((c0, inner0) :: rest) ->
  well_keyed rest
  /\ ~ In c0 (PyDict.keys rest)
  /\ forall i s, In (i, s) inner0 ->
                 function_class s = c0 /\ c0 <> FunctionClass.UNSUPPORTED.
Proof.
  intros [Hn Hk]. unfold PyDict.keys in *. simpl in Hn.
  inversion Hn as [|? ? Hnot Hr]; subst.
  split; [split; [exact Hr|]|split; [exact Hnot|]].
  - intros c inner Hin. apply Hk. now right.
  - intros i s Hs. destruct (Hk c0 inner0 (or_introl eq_refl)) as [_ H].
    now destruct (H i s Hs) as (? & _ & ?).
Qed.

Lemma find_unnamed_of_class (c : string) (t : Z) (m : StateMap) :
  well_keyed m ->
  find (fun s => pushed s && entry_matches c None (push_entry t s)) (rev (all_states m))
  = last_unnamed c m.
Proof.
  unfold last_unnamed.
  induction m as [|[c0 inner0] rest IH]; intros Hwk; [reflexivity|].
  destruct (well_keyed_tail c0 inner0 rest Hwk) as (Hrest & Hnot & Hcls).
  change (all_states ((c0, inner0) :: rest))
    with (PyDict.values inner0 ++ all_states rest).
  rewrite rev_app_distr, find_app_split.
  destruct (String.eqb c c0) eqn:E.
  - apply String.eqb_eq in E. subst c0.
    assert (Hi : instances_of c ((c, inner0) :: rest) = inner0).
    { unfold instances_of. simpl. now rewrite String.eqb_refl. }
    rewrite Hi.
    rewrite find_absent.
    + apply find_ext_in. intros s Hs. apply in_rev in Hs.
      unfold PyDict.values in Hs. apply in_map_iff in Hs as ([i s0] & Es & Hin).
      simpl in Es. subst s0. destruct (Hcls i s Hin) as [Hc Hu].
      now rewrite (entry_matches_unnamed c t s Hc Hu).
    + intros s Hs. apply in_rev in Hs.
      apply In_all_states in Hs as (c' & inner & i & Hc' & Hs).
      destruct Hrest as [_ Hk]. destruct (Hk c' inner Hc') as [_ H].
      destruct (H i s Hs) as (Hc & _ & _).
      rewrite entry_matches_other_class; [apply andb_false_r|].
      rewrite Hc. intros ->. apply Hnot.
      unfold PyDict.keys. apply in_map_iff. now exists (c, inner).
  - assert (Hi : instances_of c ((c0, inner0) :: rest) = instances_of c rest).
    { unfold instances_of. simpl. now rewrite E. }
    rewrite Hi, <- (IH Hrest).
    rewrite (find_absent _ (rev (PyDict.values inner0))).
    + now destruct (find _ (rev (all_states rest))).
    + intros s Hs. apply in_rev in Hs.
      unfold PyDict.values in Hs. apply in_map_iff in Hs as ([i s0] & Es & Hin).
      simpl in Es. subst s0. destruct (Hcls i s Hin) as [Hc Hu].
      rewrite entry_matches_other_class; [apply andb_false_r|].
      rewrite Hc. apply String.eqb_neq in E. congruence.
Qed.

Lemma echo_state_at_unnamed (cls : StateValueCls) (t : Z) (m : StateMap) (c : string) :
  well_keyed m ->
  state_at c None (parsed_states cls (push_values t m))
  = option_map (echoed cls t) (last_unnamed c m).
Proof.
  intros Hwk. unfold parsed_states. rewrite parsed_states_from.
  unfold push_values.
  rewrite <- map_rev, <- filter_rev, find_map_comm, find_filter.
  rewrite (find_unnamed_of_class c t m Hwk).
  now destruct (last_unnamed c m).
Qed.

Lemma last_unnamed_origin (c : string) (m : StateMap) (s : HubspaceStateValue) :
  well_keyed m ->
  last_unnamed c m = Some s ->
  pushed s = true
  /\ (state_at c None m = Some s \/ state_at c (Some "") m = Some s).
Proof.
  intros Hwk Hf. unfold last_unnamed in Hf.
  apply find_some in Hf as [Hin Hq]. apply in_rev in Hin.
  apply andb_true_iff in Hq as [Hp Hn]. split; [exact Hp|].
  apply negb_true_iff, str_truthy_false in Hn.
  unfold PyDict.values in Hin. apply in_map_iff in Hin as ([i s0] & Es & Hin).
  simpl in Es. subst s0.
  assert (Hat : state_at c i m = Some s).
  { unfold state_at. apply (get_of_In opt_str_eqb opt_str_eqb_eq); [|exact Hin].
    unfold instances_of in *.
    destruct (PyDict.get String.eqb c m) as [inner|] eqn:Hget; [|destruct Hin].
    apply (get_In String.eqb String.eqb_eq) in Hget.
    destruct Hwk as [_ Hk]. now destruct (Hk c inner Hget). }
  destruct (state_at_keyed c i s m Hwk Hat) as (_ & Hi & _).
  rewrite Hi in Hn. destruct Hn as [E|E]; subst i; [now left | now right].
Qed.

Lemma last_unnamed_none (c : string) (m : StateMap) (i : option string)
    (s : HubspaceStateValue) :
  well_keyed m ->
  last_unnamed c m = None ->
  str_truthy i = false ->
  state_at c i m = Some s ->
  pushed s = false.
Proof.
  intros Hwk Hf Hi Hat. unfold last_unnamed in Hf.
  destruct (pushed s) eqn:Hp; [|reflexivity].
  assert (Hin : In s (rev (PyDict.values (instances_of c m)))).
  { apply -> in_rev. unfold PyDict.values. apply in_map_iff. exists (i, s).
    split; [reflexivity|]. now apply (get_In opt_str_eqb opt_str_eqb_eq). }
  pose proof (find_none _ _ Hf s Hin) as Hq. cbv beta in Hq.
  destruct (state_at_keyed c i s m Hwk Hat) as (_ & Hinst & _).
  now rewrite Hp, Hinst, Hi in Hq.
Qed.

Lemma last_unnamed_only (c : string) (m : StateMap) (i j : option string)
    (s : HubspaceStateValue) :
  well_keyed m ->
  (i = None /\ j = Some "" \/ i = Some "" /\ j = None) ->
  state_at c i m = Some s ->
  pushed s = true ->
  (forall s2, state_at c j m = Some s2 -> pushed s2 = false) ->
  last_unnamed c m = Some s.
Proof.
  intros Hwk Hij Hat Hp Hother.
  destruct (last_unnamed c m) as [s1|] eqn:Hf.
  - destruct (last_unnamed_origin c m s1 Hwk Hf) as [Hp1 Hor].
    destruct Hij as [[-> ->]|[-> ->]]; destruct Hor as [H1|H1]; try congruence;
      specialize (Hother s1 H1); congruence.
  - assert (Hi : str_truthy i = false).
    { apply str_truthy_false. tauto. }
    pose proof (last_unnamed_none c m i s Hwk Hf Hi Hat). congruence.
Qed.

(** X8.  Serialising a state map for a push and parsing the list again,
    as happens when the vendor answers a push with what it was sent.  A
    state comes back with its class and raw value, the timestamp of the
    push, and its instance when that is a non-empty name, no instance
    otherwise.  Under a key with a non-empty instance name comes back
    the state of that key when it has a non-null value and a settable
    class, and nothing otherwise.  Under the empty instance name comes
    back nothing.  Under a class without instance comes back the state
    of that class which a push serialises last without instance: a state
    filed without instance or under the empty instance name, with a
    non-null value and a settable class; when only one of the two is
    there to be pushed it is that one, and when none is, nothing comes
    back.  So whatever comes back has a settable class, a value and the
    timestamp of the push: no state of the "available" class, none with a
    null value. *)
Theorem push_then_parse_round_trip (cls : StateValueCls) (t : Z) (m : StateMap) :
  well_keyed m ->
  let m' := parsed_states cls (push_values t m) in
  (forall s,
      function_class (echoed cls t s) = function_class s
      /\ hubspace_value (echoed cls t s) = hubspace_value s
      /\ last_update_time (echoed cls t s) = Some t
      /\ sv_cls (echoed cls t s) = cls
      /\ function_instance (echoed cls t s)
         = if str_truthy (function_instance s) then function_instance s else None)
  /\ (forall c i,
        str_truthy i = true ->
        state_at c i m'
        = match state_at c i m with
          | Some s => if pushed s then Some (echoed cls t s) else None
          | None => None
          end)
  /\ (forall c i s,
        state_at c i m = Some s ->
        str_truthy i = true ->
        pushed s = true ->
        exists s',
          state_at c i m' = Some s'
          /\ function_class s' = c
          /\ function_instance s' = i
          /\ hubspace_value s' = hubspace_value s
          /\ last_update_time s' = Some t)
  /\ (forall c, state_at c (Some "") m' = None)
  /\ (forall c, state_at c None m' = option_map (echoed cls t) (last_unnamed c m))
  /\ (forall c s,
        last_unnamed c m = Some s ->
        pushed s = true
        /\ (state_at c None m = Some s \/ state_at c (Some "") m = Some s))
  /\ (forall c,
        last_unnamed c m = None ->
        (forall s, state_at c None m = Some s -> pushed s = false)
        /\ (forall s, state_at c (Some "") m = Some s -> pushed s = false))
  /\ (forall c s,
        state_at c None m = Some s ->
        pushed s = true ->
        (forall s2, state_at c (Some "") m = Some s2 -> pushed s2 = false) ->
        state_at c None m' = Some (echoed cls t s))
  /\ (forall c s,
        state_at c (Some "") m = Some s ->
        pushed s = true ->
        (forall s2, state_at c None m = Some s2 -> pushed s2 = false) ->
        state_at c None m' = Some (echoed cls t s))
  /\ (forall c i s',
        state_at c i m' = Some s' ->
        settable c = true
        /\ hubspace_value s' <> VNone
        /\ last_update_time s' = Some t
        /\ i <> Some ""
        /\ exists s, In s (all_states m) /\ hubspace_value s = hubspace_value s'
                     /\ function_class s = c)
  /\ (forall i, state_at FunctionClass.AVAILABLE i m' = None).
Proof.
  intros Hwk m'.
  assert (Hback : forall c i s',
             state_at c i m' = Some s' ->
             settable c = true
             /\ hubspace_value s' <> VNone
             /\ last_update_time s' = Some t
             /\ i <> Some ""
             /\ exists s, In s (all_states m) /\ hubspace_value s = hubspace_value s'
                          /\ function_class s = c).
  { intros c i s' Hat.
    apply echo_state_at_origin in Hat as (s & Hs & Hp & -> & Hc & Hi).
    pose proof Hp as Hp'. unfold pushed in Hp'.
    apply andb_true_iff in Hp' as [Hv Hset].
    split; [now rewrite <- Hc|]. split.
    { change (hubspace_value s <> VNone).
      destruct (hubspace_value s); [discriminate Hv | discriminate..]. }
    split; [reflexivity|]. split.
    { destruct (function_instance s) as [name|]; simpl in Hi.
      - destruct (String.eqb name "") eqn:E; simpl in Hi; subst i; [discriminate|].
        apply String.eqb_neq in E. congruence.
      - subst i. discriminate. }
    exists s. now repeat split. }
  assert (Hunnamed : forall c,
             state_at c None m' = option_map (echoed cls t) (last_unnamed c m)).
  { intros c. exact (echo_state_at_unnamed cls t m c Hwk). }
  split; [intros s; now repeat split|].
  split; [intros c i Hi; exact (echo_state_at_named cls t m c i Hwk Hi)|].
  split; [|split; [|split; [exact Hunnamed|split; [|split; [|split; [|split;
    [|split; [exact Hback|]]]]]]]].
  - intros c i s Hat Hi Hp.
    destruct (state_at_keyed c i s m Hwk Hat) as (Hc & Hinst & _).
    exists (wrap cls (push_entry t s)).
    unfold m'. rewrite (echo_state_at_named cls t m c i Hwk Hi), Hat, Hp.
    split; [reflexivity|].
    split; [exact Hc|]. split; [|split; reflexivity].
    change ((if str_truthy (function_instance s) then function_instance s else None) = i).
    now rewrite Hinst, Hi.
  - intros c. destruct (state_at c (Some "") m') as [s'|] eqn:Hat; [|reflexivity].
    destruct (Hback _ _ _ Hat) as (_ & _ & _ & Hne & _). now elim Hne.
  - intros c s Hf. exact (last_unnamed_origin c m s Hwk Hf).
  - intros c Hf. split; intros s Hat.
    + exact (last_unnamed_none c m None s Hwk Hf eq_refl Hat).
    + exact (last_unnamed_none c m (Some "") s Hwk Hf eq_refl Hat).
  - intros c s Hat Hp Hother.
    rewrite Hunnamed,
      (last_unnamed_only c m None (Some "") s Hwk (or_introl (conj eq_refl eq_refl))
         Hat Hp Hother).
    reflexivity.
  - intros c s Hat Hp Hother.
    rewrite Hunnamed,
      (last_unnamed_only c m (Some "") None s Hwk (or_intror (conj eq_refl eq_refl))
         Hat Hp Hother).
    reflexivity.
  - intros i. destruct (state_at FunctionClass.AVAILABLE i m') as [s'|] eqn:Hat;
      [|reflexivity].
    destruct (Hback _ _ _ Hat) as [Hset _]. discriminate.
Qed.

Lemma push_then_parse_round_trip_witness :
  well_keyed sample_light_states
  /\ state_at FunctionClass.BRIGHTNESS None sample_light_states
     = Some (wrap HubspaceLightStateValueCls
               {| functionClass := Some FunctionClass.BRIGHTNESS;
                  functionInstance := None;
                  value := VInt 40;
                  lastUpdateTime := Some 1650000000000 |})
  /\ state_at FunctionClass.BRIGHTNESS None
       (parsed_states HubspaceLightStateValueCls
          (push_values 1650000001000 sample_light_states))
     = Some (wrap HubspaceLightStateValueCls
               {| functionClass := Some FunctionClass.BRIGHTNESS;
                  functionInstance := None;
                  value := VInt 40;
                  lastUpdateTime := Some 1650000001000 |}).
Proof.
  assert (Hwk : well_keyed sample_light_states) by apply parsed_states_well_keyed.
  split; [exact Hwk|]. split; [reflexivity|].
  exact (proj1 (proj2 (proj2 (proj2 (proj2 (proj2 (proj2 (proj2
           (push_then_parse_round_trip HubspaceLightStateValueCls 1650000001000
              sample_light_states Hwk))))))))
           FunctionClass.BRIGHTNESS _ eq_refl eq_refl
           ltac:(intros s2 H; discriminate H)).
Defined.

(** ** The catalog of functions *)

Section PyDictSet.
Context {K V : Type}.
Variable eqb : K -> K -> bool.
Hypothesis eqb_eq : forall a b, eqb a b = true <-> a = b.

Lemma In_keys_set (k k' : K) (v : V) (d : PyDict.t K V) :
  In k' (PyDict.keys (PyDict.set eqb k v d)) <-> k' = k \/ In k' (PyDict.keys d).
Proof.
  destruct (PyDict.mem eqb k d) eqn:E.
  - rewrite (keys_set_present eqb k v d E).
    apply (mem_In_keys eqb eqb_eq) in E. split; [now right|].
    intros [->|H]; assumption.
  - rewrite (keys_set_absent eqb k v d E), in_app_iff. simpl. intuition.
Qed.

Lemma hd_set (k : K) (v : V) (d : PyDict.t K V) :
  hd_error (PyDict.keys (PyDict.set eqb k v d))
  = match hd_error (PyDict.keys d) with
    | Some k0 => Some k0
    | None => Some k
    end.
Proof.
  destruct d as [|[k0 v0] r]; simpl; [reflexivity|].
  now destruct (eqb k k0).
Qed.

Lemma hd_value (d : PyDict.t K V) (k : K) (x : V) (rest : list V) :
  hd_error (PyDict.keys d) = Some k ->
  PyDict.values d = x :: rest ->
  PyDict.get eqb k d = Some x.
Proof.
  destruct d as [|[k0 v0] r]; simpl; [discriminate|].
  intros Hk Hv. injection Hk as ->. injection Hv as -> _.
  now rewrite (eqb_refl_true eqb eqb_eq).
Qed.

Lemma values_rest (d : PyDict.t K V) (k : K) (x : V) (rest : list V) :
  NoDup (PyDict.keys d) ->
  hd_error (PyDict.keys d) = Some k ->
  PyDict.values d = x :: rest ->
  (rest <> [] <-> exists k', In k' (PyDict.keys d) /\ k' <> k).
Proof.
  destruct d as [|[k0 v0] r]; simpl; [discriminate|].
  intros Hn Hk Hv. injection Hk as ->. injection Hv as _ <-.
  inversion Hn as [|? ? Hnot Hr]; subst. split.
  - destruct r as [|[k1 v1] r]; [intros H; exfalso; now apply H|]. intros _.
    exists k1. split; [right; now left|].
    intros ->. apply Hnot. now left.
  - intros (k' & Hin & Hne).
    destruct Hin as [E|Hin]; [exfalso; apply Hne; now symmetry|].
    destruct r; [destruct Hin | discriminate].
Qed.
End PyDictSet.

Lemma instances_of_functions_step (cls : FunctionCls) (m : FunctionMap) (d : FunctionData)
    (c : string) :
  instances_of c (_functions_step cls m d)
  = if String.eqb (listed_class d) c
    then PyDict.set opt_str_eqb (fn_functionInstance d) (wrap_function cls d)
           (instances_of c m)
    else instances_of c m.
Proof.
  unfold _functions_step, instances_of, PyDict.mem.
  change (function_class {| fn_cls := cls; fn_data := d |}) with (listed_class d).
  change (function_instance {| fn_cls := cls; fn_data := d |}) with (fn_functionInstance d).
  fold (wrap_function cls d).
  destruct (PyDict.get String.eqb (listed_class d) m) as [inner|] eqn:Hget; simpl.
  - rewrite Hget.
    destruct (String.eqb (listed_class d) c) eqn:E.
    + apply String.eqb_eq in E. subst c.
      now rewrite (get_set_same String.eqb String.eqb_eq), Hget.
    + apply String.eqb_neq in E.
      now rewrite (get_set_other String.eqb String.eqb_eq) by assumption.
  - rewrite (get_set_same String.eqb String.eqb_eq).
    destruct (String.eqb (listed_class d) c) eqn:E.
    + apply String.eqb_eq in E. subst c.
      now rewrite (get_set_same String.eqb String.eqb_eq), Hget.
    + apply String.eqb_neq in E.
      now rewrite !(get_set_other String.eqb String.eqb_eq) by assumption.
Qed.

Lemma _functions_step_at (cls : FunctionCls) (m : FunctionMap) (d : FunctionData)
    (c : string) (i : option string) :
  state_at c i (_functions_step cls m d)
  = if function_matches c i d then Some (wrap_function cls d) else state_at c i m.
Proof.
  unfold state_at, function_matches. rewrite instances_of_functions_step.
  destruct (String.eqb (listed_class d) c); simpl; [|reflexivity].
  destruct (opt_str_eqb (fn_functionInstance d) i) eqn:E.
  - apply opt_str_eqb_eq in E. subst i.
    apply (get_set_same opt_str_eqb opt_str_eqb_eq).
  - apply (get_set_other opt_str_eqb opt_str_eqb_eq).
    intros H. apply opt_str_eqb_eq in H. congruence.
Qed.

Lemma functions_from (cls : FunctionCls) (l : list FunctionData) (m : FunctionMap)
    (c : string) (i : option string) :
  state_at c i (fold_left (_functions_step cls) l m)
  = match find (function_matches c i) (rev l) with
    | Some d => Some (wrap_function cls d)
    | None => state_at c i m
    end.
Proof.
  induction l as [|x l IH] using rev_ind; [reflexivity|].
  rewrite fold_left_app, rev_app_distr. simpl.
  rewrite _functions_step_at.
  destruct (function_matches c i x); [reflexivity | exact IH].
Qed.

Lemma function_matches_spec (c : string) (i : option string) (d : FunctionData) :
  function_matches c i d = true <-> listed_class d = c /\ fn_functionInstance d = i.
Proof.
  unfold function_matches.
  now rewrite andb_true_iff, String.eqb_eq, opt_str_eqb_eq.
Qed.

(** X9.  The catalog that [functions] builds from the device
    description: the function under a (class, instance) key is the last
    one the description lists with that class and instance; every
    listed function is filed, a function without functionClass under
    the "unsupported" class (the state map leaves such entries out, the
    catalog does not); and every function of the catalog is a listed
    one, wrapped in the entity's function class and filed under its own
    class and instance. *)
Theorem functions_files_last_listed (e : HubspaceEntity) :
  (forall c i,
      state_at c i (functions e)
      = option_map (wrap_function (_function_class e))
          (catalog_entry c i (description_functions e)))
  /\ (forall d,
        In d (description_functions e) ->
        exists d',
          state_at (listed_class d) (fn_functionInstance d) (functions e)
          = Some (wrap_function (_function_class e) d')
          /\ In d' (description_functions e)
          /\ listed_class d' = listed_class d
          /\ fn_functionInstance d' = fn_functionInstance d)
  /\ (forall d,
        In d (description_functions e) ->
        fn_functionClass d = None ->
        state_at FunctionClass.UNSUPPORTED (fn_functionInstance d) (functions e) <> None)
  /\ (forall c i f,
        state_at c i (functions e) = Some f ->
        function_class f = c /\ function_instance f = i
        /\ fn_cls f = _function_class e
        /\ In (fn_data f) (description_functions e)).
Proof.
  assert (Hlook : forall c i,
             state_at c i (functions e)
             = option_map (wrap_function (_function_class e))
                 (catalog_entry c i (description_functions e))).
  { intros c i. unfold functions, catalog_entry. rewrite functions_from.
    now destruct (find _ _). }
  assert (Hall : forall d,
             In d (description_functions e) ->
             exists d',
               state_at (listed_class d) (fn_functionInstance d) (functions e)
               = Some (wrap_function (_function_class e) d')
               /\ In d' (description_functions e)
               /\ listed_class d' = listed_class d
               /\ fn_functionInstance d' = fn_functionInstance d).
  { intros d Hd. rewrite Hlook. unfold catalog_entry.
    destruct (find (function_matches (listed_class d) (fn_functionInstance d))
                (rev (description_functions e))) as [d'|] eqn:Hf.
    - apply find_some in Hf as [Hin Hmatch].
      apply function_matches_spec in Hmatch as [Hc Hi].
      exists d'. split; [reflexivity|]. split; [now apply in_rev|]. now split.
    - exfalso.
      assert (Hm : function_matches (listed_class d) (fn_functionInstance d) d = true)
        by now apply function_matches_spec.
      rewrite (find_none _ _ Hf d) in Hm; [discriminate|]. now apply -> in_rev. }
  split; [exact Hlook|]. split; [exact Hall|]. split.
  - intros d Hd Hc. destruct (Hall d Hd) as (d' & Hat & _).
    unfold listed_class in Hat at 1. rewrite Hc in Hat. now rewrite Hat.
  - intros c i f Hat. rewrite Hlook in Hat. unfold catalog_entry in Hat.
    destruct (find _ _) as [d|] eqn:Hf; [|discriminate].
    simpl in Hat. injection Hat as <-.
    apply find_some in Hf as [Hin Hmatch].
    apply function_matches_spec in Hmatch as [Hc Hi].
    repeat split; try assumption. now apply in_rev.
Qed.

(** ** The values of a function, by class *)

Lemma instances_of_functions_fold (cls : FunctionCls) (l : list FunctionData)
    (m : FunctionMap) (c : string) :
  instances_of c (fold_left (_functions_step cls) l m)
  = fold_left (fun inner d =>
                 PyDict.set opt_str_eqb (fn_functionInstance d) (wrap_function cls d) inner)
      (filter (fun d => String.eqb (listed_class d) c) l) (instances_of c m).
Proof.
  revert m. induction l as [|d l IH]; intros m; simpl; [reflexivity|].
  rewrite IH, instances_of_functions_step.
  now destruct (String.eqb (listed_class d) c).
Qed.

Lemma fold_set_keys (cls : FunctionCls) (l : list FunctionData) :
  forall inner : InstanceMap HubspaceFunction,
    let r := fold_left (fun inner d =>
                          PyDict.set opt_str_eqb (fn_functionInstance d)
                            (wrap_function cls d) inner) l inner in
    (NoDup (PyDict.keys inner) -> NoDup (PyDict.keys r))
    /\ (forall i, In i (PyDict.keys r)
                  <-> In i (PyDict.keys inner) \/ In i (map fn_functionInstance l))
    /\ hd_error (PyDict.keys r)
       = match hd_error (PyDict.keys inner) with
         | Some k => Some k
         | None => hd_error (map fn_functionInstance l)
         end.
Proof.
  induction l as [|d l IH]; intros inner; simpl.
  - split; [tauto|]. split; [tauto|]. now destruct (hd_error _).
  - destruct (IH (PyDict.set opt_str_eqb (fn_functionInstance d)
                    (wrap_function cls d) inner)) as (Hn & Hin & Hhd).
    split; [|split].
    + intros H. apply Hn. now apply (NoDup_keys_set opt_str_eqb opt_str_eqb_eq).
    + intros i. rewrite Hin, (In_keys_set opt_str_eqb opt_str_eqb_eq). intuition.
    + rewrite Hhd, hd_set. now destruct (hd_error (PyDict.keys inner)).
Qed.

Lemma instance_key_eqb_eq (a b : string * option string) :
  instance_key_eqb a b = true <-> a = b.
Proof.
  destruct a as [c i], b as [c' i']. unfold instance_key_eqb. simpl.
  rewrite andb_true_iff, String.eqb_eq, opt_str_eqb_eq. split.
  - now intros [-> ->].
  - intros H. now injection H.
Qed.

Lemma set_same {K V} (eqb : K -> K -> bool) (k : K) (v : V) (d : PyDict.t K V) :
  PyDict.get eqb k d = Some v -> PyDict.set eqb k v d = d.
Proof.
  induction d as [|[k0 v0] r IH]; simpl; [discriminate|].
  destruct (eqb k k0).
  - intros H. now injection H as ->.
  - intros H. now rewrite IH.
Qed.

Lemma with_values_same (e : HubspaceEntity) (f : HubspaceFunction) (l : list string) :
  cached_values e f = Some l -> with_values e f l = e.
Proof.
  unfold cached_values, with_values. intros H.
  rewrite (set_same _ _ _ _ H). now destruct e.
Qed.

Lemma cached_values_with_values (e : HubspaceEntity) (f : HubspaceFunction)
    (l : list string) :
  cached_values (with_values e f l) f = Some l.
Proof.
  unfold cached_values, with_values. simpl.
  apply (get_set_same instance_key_eqb instance_key_eqb_eq).
Qed.

(** The first read of a function object. *)
Lemma values_read_first (f : HubspaceFunction) :
  fst (values_read f None) = function_values f.
Proof.
  unfold values_read, function_values.
  now destruct (list_sort _ _).
Qed.

Lemma values_read_clean (f : HubspaceFunction) (cache : option (list string))
    (sorted : list string) :
  clean_cache f cache ->
  function_values f = Ok sorted ->
  values_read f cache = (Ok sorted, sorted).
Proof.
  intros Hc Hs.
  assert (Hmiss : (let names := match fn_values (fn_data f) with
                                | Some l => l
                                | None => []
                                end in
                   match list_sort (_value_key f) names with
                   | Ok sorted => (Ok sorted, sorted)
                   | Raise e => (Raise e, names)
                   end) = (Ok sorted, sorted)).
  { unfold function_values in Hs. simpl. now rewrite Hs. }
  destruct cache as [[|x r]|]; simpl in *; try exact Hmiss.
  rewrite Hc in Hs. now injection Hs as <-.
Qed.

Lemma values_read_hit (f : HubspaceFunction) (x : string) (r : list string) :
  values_read f (Some (x :: r)) = (Ok (x :: r), x :: r).
Proof. reflexivity. Qed.

Lemma read_values_run (f : HubspaceFunction) (w : World) :
  read_values f w
  = match values_read f (cached_values (self w) f) with
    | (Ok l, cache) => Ok (l, with_self w (with_values (self w) f cache))
    | (Raise e, _) => Raise e
    end.
Proof.
  unfold read_values, bind, get_self.
  now destruct (values_read f (cached_values (self w) f)) as [[l|e] cache].
Qed.

Lemma _get_function_values_class_run (w : World) (c : string)
    (default : option (list string)) :
  _get_function_values (ClassKey c) default w
  = match PyDict.values (instances_of c (functions (self w))) with
    | [] => Ok (default, w)
    | f :: rest =>
        match values_read f (cached_values (self w) f) with
        | (Ok vs, cache) =>
            Ok (Some vs,
                with_self match rest with
                          | [] => w
                          | _ :: _ => with_warning w (ambiguity_warning c)
                          end (with_values (self w) f cache))
        | (Raise e, _) => Raise e
        end
    end.
Proof.
  unfold _get_function_values, bind, get_self.
  destruct (PyDict.values (instances_of c (functions (self w)))) as [|f [|g rest]]; simpl.
  - reflexivity.
  - rewrite read_values_run.
    now destruct (values_read f (cached_values (self w) f)) as [[l|e] cache].
  - rewrite read_values_run. simpl.
    now destruct (values_read f (cached_values (self w) f)) as [[l|e] cache].
Qed.

Lemma keys_values_nil {A} (inner : InstanceMap A) :
  PyDict.keys inner = [] <-> PyDict.values inner = [].
Proof. destruct inner; simpl; split; congruence. Qed.

Lemma other_instance_exists (i : option string) (l : list FunctionData) :
  existsb (fun d => negb (opt_str_eqb (fn_functionInstance d) i)) l = true
  <-> exists k, In k (map fn_functionInstance l) /\ k <> i.
Proof.
  rewrite existsb_exists. split.
  - intros (d & Hd & Hne). exists (fn_functionInstance d).
    split; [now apply in_map|].
    intros E. apply negb_true_iff in Hne.
    apply opt_str_eqb_eq in E. congruence.
  - intros (k & Hk & Hne). apply in_map_iff in Hk as (d & <- & Hd).
    exists d. split; [exact Hd|]. apply negb_true_iff.
    destruct (opt_str_eqb _ _) eqn:E; [|reflexivity].
    apply opt_str_eqb_eq in E. contradiction.
Qed.

(** X10.  [_get_function_values] with a class-only key, read from the
    device description.  When the description lists no function of the
    class, the call returns its default and logs nothing.  Otherwise let
    [d0] be the first function listed with the class: the call reads the
    [values] of the function filed under the instance of [d0], which is
    the last function listed with that class and instance, and it logs
    the warning exactly when a later function of the class has another
    instance.  The read goes through the attribute [_values] of that
    function: while it is empty (the first read) the call returns the
    sorted names and stores them, or raises what a sort key raises; once
    it holds a list that is not empty the call returns that list, sorted
    or not, and raises nothing.  No request is sent and nothing else of
    the entity changes. *)
Theorem function_values_of_first_listed (w : World) (c : string)
    (default : option (list string)) :
  let listed := filter (fun d => String.eqb (listed_class d) c)
                  (description_functions (self w)) in
  (listed = [] -> _get_function_values (ClassKey c) default w = Ok (default, w))
  /\ (forall d0 rest,
        listed = d0 :: rest ->
        exists d1,
          catalog_entry c (fn_functionInstance d0) (description_functions (self w))
          = Some d1
          /\ let f1 := wrap_function (_function_class (self w)) d1 in
             let w0 := if existsb (fun d => negb (opt_str_eqb (fn_functionInstance d)
                                                    (fn_functionInstance d0))) rest
                       then with_warning w (ambiguity_warning c)
                       else w in
             _get_function_values (ClassKey c) default w
             = match values_read f1 (cached_values (self w) f1) with
               | (Ok vs, cache) =>
                   Ok (Some vs, with_self w0 (with_values (self w) f1 cache))
               | (Raise e, _) => Raise e
               end
             /\ (cached_values (self w) f1 = None
                 \/ cached_values (self w) f1 = Some [] ->
                 _get_function_values (ClassKey c) default w
                 = result_bind (function_values f1)
                     (fun vs => Ok (Some vs,
                                    with_self w0 (with_values (self w) f1 vs))))
             /\ (forall x r,
                   cached_values (self w) f1 = Some (x :: r) ->
                   _get_function_values (ClassKey c) default w
                   = Ok (Some (x :: r), w0))).
Proof.
  intros listed. rewrite _get_function_values_class_run.
  set (cls := _function_class (self w)).
  assert (Hinner : instances_of c (functions (self w))
                   = fold_left (fun inner d =>
                                  PyDict.set opt_str_eqb (fn_functionInstance d)
                                    (wrap_function cls d) inner) listed []).
  { unfold functions. now rewrite instances_of_functions_fold. }
  destruct (fold_set_keys cls listed []) as (Hn & Hin & Hhd).
  rewrite <- Hinner in Hn, Hin, Hhd. simpl in Hhd.
  specialize (Hn (NoDup_nil _)).
  split.
  - intros Hl. rewrite Hl in Hinner. simpl in Hinner. now rewrite Hinner.
  - intros d0 rest Hl. rewrite Hl in Hhd, Hin. simpl in Hhd.
    destruct (PyDict.values (instances_of c (functions (self w))))
      as [|f vrest] eqn:Hv.
    { apply keys_values_nil in Hv. rewrite Hv in Hhd. discriminate. }
    pose proof (hd_value opt_str_eqb opt_str_eqb_eq _ _ _ _ Hhd Hv) as Hf.
    fold (state_at c (fn_functionInstance d0) (functions (self w))) in Hf.
    unfold functions in Hf. rewrite functions_from in Hf.
    fold (catalog_entry c (fn_functionInstance d0) (description_functions (self w))) in Hf.
    destruct (catalog_entry c (fn_functionInstance d0) (description_functions (self w)))
      as [d1|]; [|discriminate].
    injection Hf as <-. exists d1. split; [reflexivity|]. fold cls.
    pose proof (values_rest _ _ _ _ Hn Hhd Hv) as Hrest.
    assert (Hex : vrest <> []
                  <-> existsb (fun d => negb (opt_str_eqb (fn_functionInstance d)
                                                (fn_functionInstance d0))) rest = true).
    { rewrite Hrest, other_instance_exists. split.
      - intros (k & Hk & Hne). exists k. split; [|exact Hne].
        apply Hin in Hk as [[]|[Hk|Hk]]; [congruence | exact Hk].
      - intros (k & Hk & Hne). exists k. split; [|exact Hne].
        apply Hin. right. now right. }
    set (f1 := wrap_function cls d1).
    assert (Hw0 : match vrest with
                  | [] => w
                  | _ :: _ => with_warning w (ambiguity_warning c)
                  end
                  = if existsb (fun d => negb (opt_str_eqb (fn_functionInstance d)
                                                 (fn_functionInstance d0))) rest
                    then with_warning w (ambiguity_warning c)
                    else w).
    { destruct vrest as [|g vrest].
      - destruct (existsb _ rest); [|reflexivity].
        exfalso. now apply (proj2 Hex).
      - rewrite (proj1 Hex); [reflexivity | discriminate]. }
    rewrite Hw0. cbv zeta.
    set (w0 := if existsb _ rest then with_warning w (ambiguity_warning c) else w).
    assert (Hself : self w0 = self w) by (unfold w0; now destruct (existsb _ rest)).
    split; [reflexivity|]. split.
    + intros Hc.
      assert (Hmiss : values_read f1 (cached_values (self w) f1)
                      = match function_values f1 with
                        | Ok sorted => (Ok sorted, sorted)
                        | Raise e =>
                            (Raise e,
                             match fn_values (fn_data f1) with
                             | Some l => l
                             | None => []
                             end)
                        end).
      { destruct Hc as [-> | ->]; reflexivity. }
      rewrite Hmiss. now destruct (function_values f1).
    + intros x r Hc. rewrite Hc, values_read_hit.
      rewrite (with_values_same _ _ _ Hc), <- Hself. now rewrite with_self_self.
Qed.

Lemma function_values_of_first_listed_witness :
  _get_function_values (ClassKey FunctionClass.FAN_SPEED) None
    (fan_with [unnumbered_speeds])
  = Raise ValueError
  /\ _get_function_values (ClassKey FunctionClass.FAN_SPEED) None fan_after_failed_read
     = Ok (Some [ "fan-speed-050"; "off" ], fan_after_failed_read)
  /\ _get_function_values (ClassKey FunctionClass.FAN_SPEED) None
       (fan_with [numbered_speeds])
     = Ok (Some [ "fan-speed-000"; "fan-speed-050"; "fan-speed-100" ],
           with_self (fan_with [numbered_speeds])
             (with_values (self (fan_with [numbered_speeds]))
                (wrap_function HubspaceFanFunctionCls numbered_speeds)
                [ "fan-speed-000"; "fan-speed-050"; "fan-speed-100" ])).
Proof.
  split; [|split].
  - destruct (proj2 (function_values_of_first_listed (fan_with [unnumbered_speeds])
                       FunctionClass.FAN_SPEED None) unnumbered_speeds [] eq_refl)
      as (d1 & Hd1 & Hrun & _).
    cbv in Hd1. injection Hd1 as <-. exact Hrun.
  - destruct (proj2 (function_values_of_first_listed fan_after_failed_read
                       FunctionClass.FAN_SPEED None) unnumbered_speeds [] eq_refl)
      as (d1 & Hd1 & _ & _ & Hhit).
    cbv in Hd1. injection Hd1 as <-.
    exact (Hhit "fan-speed-050" [ "off" ] eq_refl).
  - destruct (proj2 (function_values_of_first_listed (fan_with [numbered_speeds])
                       FunctionClass.FAN_SPEED None) numbered_speeds [] eq_refl)
      as (d1 & Hd1 & Hrun & _).
    cbv in Hd1. injection Hd1 as <-. exact Hrun.
Defined.

(** ** The speeds of a fan *)

Lemma fan_speed_function_values (f : HubspaceFunction) (names : list string) :
  fn_cls f = HubspaceFanFunctionCls ->
  function_class f = FunctionClass.FAN_SPEED ->
  fn_values (fn_data f) = Some names ->
  Forall (fun s => suffix_number s <> None) names ->
  exists sorted,
    function_values f = Ok sorted
    /\ Permutation names sorted
    /\ StronglySorted suffix_le sorted.
Proof.
  intros Hcls Hfc Hv Hall.
  destruct (fan_speed_keys f names Hcls Hfc Hall) as (ks & Hk & Hlen & Hkeyed).
  exists (map snd (sort_keyed (combine ks names))).
  unfold function_values, list_sort. rewrite Hv, Hk. simpl.
  split; [reflexivity|]. split.
  - rewrite <- (map_snd_combine ks names Hlen) at 1.
    apply Permutation_map, sort_keyed_perm.
  - apply sorted_by_suffix.
    + apply sort_keyed_sorted.
      eapply Forall_impl; [|exact Hkeyed].
      intros p (n & Hn & _). now exists n.
    + apply Forall_forall. intros p Hp.
      apply (Permutation_in p (Permutation_sym (sort_keyed_perm _))) in Hp.
      rewrite Forall_forall in Hkeyed. now apply Hkeyed.
Qed.

Lemma single_listed_function (w : World) (c : string) (d : FunctionData) :
  filter (fun d => String.eqb (listed_class d) c) (description_functions (self w)) = [d] ->
  PyDict.values (instances_of c (functions (self w)))
  = [wrap_function (_function_class (self w)) d]
  /\ listed_class d = c.
Proof.
  intros Hl. split.
  - unfold functions. rewrite instances_of_functions_fold, Hl. reflexivity.
  - assert (Hin : In d (filter (fun d => String.eqb (listed_class d) c)
                          (description_functions (self w)))) by (rewrite Hl; now left).
    apply filter_In in Hin as [_ Hc]. now apply String.eqb_eq.
Qed.

Lemma _fan_speed_values_run (w : World) (f : HubspaceFunction) :
  PyDict.values (instances_of FunctionClass.FAN_SPEED (functions (self w))) = [f] ->
  _fan_speed_values w
  = match values_read f (cached_values (self w) f) with
    | (Ok (_ :: rest), cache) =>
        Ok (Some rest, with_self w (with_values (self w) f cache))
    | (Ok [], cache) => Ok (None, with_self w (with_values (self w) f cache))
    | (Raise e, _) => Raise e
    end.
Proof.
  intros Hv. unfold _fan_speed_values, bind.
  rewrite _get_function_values_class_run, Hv.
  destruct (values_read f (cached_values (self w) f)) as [[[|x rest]|e] cache];
    reflexivity.
Qed.

Lemma values_read_stores (f : HubspaceFunction) (cache : option (list string))
    (l stored : list string) :
  values_read f cache = (Ok l, stored) -> stored = l.
Proof.
  unfold values_read. destruct cache as [[|x r]|].
  - destruct (list_sort _ _); intros H; [|discriminate].
    injection H as E1 E2. congruence.
  - intros H. injection H as E1 E2. congruence.
  - destruct (list_sort _ _); intros H; [|discriminate].
    injection H as E1 E2. congruence.
Qed.

Lemma speed_count_run (w : World) (f : HubspaceFunction) (D : Z) :
  PyDict.values (instances_of FunctionClass.FAN_SPEED (functions (self w))) = [f] ->
  speed_count D w
  = match values_read f (cached_values (self w) f) with
    | (Ok (x :: y :: rest), _) =>
        Ok (Z.of_nat (S (List.length rest)),
            with_self w (with_values (self w) f (x :: y :: rest)))
    | (Ok l, _) => Ok (D, with_self w (with_values (self w) f l))
    | (Raise e, _) => Raise e
    end.
Proof.
  intros Hv. unfold speed_count, bind.
  rewrite (_fan_speed_values_run w f Hv).
  destruct (values_read f (cached_values (self w) f)) as [[l|e] stored] eqn:E;
    [|reflexivity].
  apply values_read_stores in E. subst stored.
  destruct l as [|x [|y rest]]; try reflexivity.
  cbv beta iota.
  set (w1 := with_self w (with_values (self w) f (x :: y :: rest))).
  assert (Hv1 : PyDict.values (instances_of FunctionClass.FAN_SPEED (functions (self w1)))
                = [f]) by exact Hv.
  rewrite (_fan_speed_values_run w1 f Hv1).
  assert (Hc1 : cached_values (self w1) f = Some (x :: y :: rest))
    by apply cached_values_with_values.
  rewrite Hc1, values_read_hit. cbv beta iota.
  rewrite (with_values_same _ _ _ Hc1). now rewrite with_self_self.
Qed.

(** X11.  For a fan whose description lists one fan-speed function, with
    value tokens that all end in three decimal digits, and whose
    attribute [_values] is as the reads that return leave it (empty on
    the first read, the sorted tokens afterwards):
    [_fan_speed_values] returns the tokens sorted by that number, without
    the first one; the token left out is one with the lowest number
    (every token kept has a number at least as high); no token gives no
    list.  [speed_count] is the number of tokens minus one when there are
    at least two, and the count of the platform otherwise.  Both store
    the sorted tokens in [_values] and change nothing else. *)
Theorem fan_speeds_leave_out_the_lowest (w : World) (d : FunctionData)
    (names : list string) (FanEntity_speed_count : Z) :
  _function_class (self w) = HubspaceFanFunctionCls ->
  filter (fun d => String.eqb (listed_class d) FunctionClass.FAN_SPEED)
    (description_functions (self w)) = [d] ->
  fn_values d = Some names ->
  Forall (fun s => suffix_number s <> None) names ->
  clean_cache (wrap_function HubspaceFanFunctionCls d)
    (cached_values (self w) (wrap_function HubspaceFanFunctionCls d)) ->
  exists sorted,
    Permutation names sorted
    /\ StronglySorted suffix_le sorted
    /\ let w' := with_self w (with_values (self w)
                                (wrap_function HubspaceFanFunctionCls d) sorted) in
       match sorted with
       | [] =>
           _fan_speed_values w = Ok (None, w')
           /\ speed_count FanEntity_speed_count w = Ok (FanEntity_speed_count, w')
       | lowest :: rest =>
           Forall (suffix_le lowest) rest
           /\ _fan_speed_values w = Ok (Some rest, w')
           /\ speed_count FanEntity_speed_count w
              = Ok (match rest with
                    | [] => FanEntity_speed_count
                    | _ :: _ => Z.of_nat (List.length names) - 1
                    end, w')
       end.
Proof.
  intros Hcls Hl Hv Hall Hclean.
  destruct (single_listed_function w _ d Hl) as [Hvals Hc].
  rewrite Hcls in Hvals.
  set (f := wrap_function HubspaceFanFunctionCls d) in *.
  destruct (fan_speed_function_values f names) as (sorted & Hrun & Hperm & Hsorted);
    [reflexivity | exact Hc | exact Hv | exact Hall |].
  exists sorted. split; [exact Hperm|]. split; [exact Hsorted|].
  cbv zeta.
  rewrite (_fan_speed_values_run w f Hvals), (speed_count_run w f _ Hvals).
  rewrite (values_read_clean f _ sorted Hclean Hrun).
  destruct sorted as [|lowest rest]; [now split|].
  split; [now inversion Hsorted|]. split; [reflexivity|].
  destruct rest as [|y rest]; [reflexivity|].
  apply Permutation_length in Hperm. rewrite Hperm. simpl List.length.
  f_equal. f_equal. lia.
Qed.

Lemma fan_speeds_leave_out_the_lowest_witness :
  (Forall (fun s => suffix_number s <> None)
     [ "fan-speed-100"; "fan-speed-000"; "fan-speed-050" ]
   /\ clean_cache (wrap_function HubspaceFanFunctionCls numbered_speeds)
        (cached_values (self (fan_with [numbered_speeds]))
           (wrap_function HubspaceFanFunctionCls numbered_speeds)))
  /\ exists sorted,
       Permutation [ "fan-speed-100"; "fan-speed-000"; "fan-speed-050" ] sorted
       /\ StronglySorted suffix_le sorted
       /\ let w' := with_self (fan_with [numbered_speeds])
                      (with_values (self (fan_with [numbered_speeds]))
                         (wrap_function HubspaceFanFunctionCls numbered_speeds) sorted) in
          match sorted with
          | [] =>
              _fan_speed_values (fan_with [numbered_speeds]) = Ok (None, w')
              /\ speed_count 100 (fan_with [numbered_speeds]) = Ok (100, w')
          | lowest :: rest =>
              Forall (suffix_le lowest) rest
              /\ _fan_speed_values (fan_with [numbered_speeds]) = Ok (Some rest, w')
              /\ speed_count 100 (fan_with [numbered_speeds])
                 = Ok (match rest with
                       | [] => 100
                       | _ :: _ =>
                           Z.of_nat (List.length [ "fan-speed-100"; "fan-speed-000";
                                                   "fan-speed-050" ]) - 1
                       end, w')
          end.
Proof.
  assert (H : Forall (fun s => suffix_number s <> None)
                [ "fan-speed-100"; "fan-speed-000"; "fan-speed-050" ]).
  { repeat constructor; discriminate. }
  split; [split; [exact H | exact I]|].
  exact (fan_speeds_leave_out_the_lowest (fan_with [numbered_speeds]) numbered_speeds
           [ "fan-speed-100"; "fan-speed-000"; "fan-speed-050" ] 100
           eq_refl eq_refl eq_refl H I).
Defined.

Lemma result_mapM_raises {A B} (f : A -> Result B) (e : Exn) (l : list A) (x : A) :
  (forall y err, f y = Raise err -> err = e) ->
  In x l -> f x = Raise e -> result_mapM f l = Raise e.
Proof.
  intros Honly. induction l as [|y l IH]; simpl; [intros []|].
  intros Hin Hx. destruct (f y) as [b|err] eqn:Hy; simpl.
  - destruct Hin as [->|Hin]; [congruence|].
    now rewrite (IH Hin Hx).
  - f_equal. now apply Honly with y.
Qed.

Lemma _value_key_raises_ValueError (f : HubspaceFunction) (v : string) (err : Exn) :
  _value_key f v = Raise err -> err = ValueError.
Proof.
  unfold _value_key, py_int.
  destruct (fn_cls f); [discriminate|].
  destruct (String.eqb _ _); [|discriminate].
  destruct (PyInt.parse (last3 v)); simpl; [discriminate|].
  intros H. now injection H.
Qed.

(** X12.  The sort key of a fan-speed value is the integer of its last
    three characters.  When one value of the only fan-speed function of
    a fan has last characters that are no integer, the first read of the
    values of the function raises [ValueError], and so do
    [_fan_speed_values] and [speed_count] while [_values] is empty.  That
    first read leaves the listed names, unsorted, in [_values]; every
    later read returns them as they are and raises nothing, so that
    [_fan_speed_values] then returns the listed names without the first
    listed one. *)
Theorem fan_speed_without_number_raises (w : World) (d : FunctionData)
    (names : list string) (v : string) (FanEntity_speed_count : Z) :
  _function_class (self w) = HubspaceFanFunctionCls ->
  filter (fun d => String.eqb (listed_class d) FunctionClass.FAN_SPEED)
    (description_functions (self w)) = [d] ->
  fn_values d = Some names ->
  In v names ->
  PyInt.parse (last3 v) = None ->
  let f := wrap_function HubspaceFanFunctionCls d in
  _value_key f v = Raise ValueError
  /\ function_values f = Raise ValueError
  /\ values_read f None = (Raise ValueError, names)
  /\ values_read f (Some names) = (Ok names, names)
  /\ (cached_values (self w) f = None ->
      _fan_speed_values w = Raise ValueError
      /\ speed_count FanEntity_speed_count w = Raise ValueError)
  /\ (cached_values (self w) f = Some names ->
      _fan_speed_values w = Ok (Some (tl names), w)).
Proof.
  intros Hcls Hl Hv Hin Hparse f.
  destruct (single_listed_function w _ d Hl) as [Hvals Hc].
  rewrite Hcls in Hvals. fold f in Hvals.
  assert (Hkey : _value_key f v = Raise ValueError).
  { unfold _value_key, py_int. simpl.
    change (function_class f) with (listed_class d). rewrite Hc. simpl.
    now rewrite Hparse. }
  assert (Hrun : function_values f = Raise ValueError).
  { unfold function_values, list_sort. simpl. rewrite Hv.
    rewrite (result_mapM_raises (_value_key f) ValueError names v);
      [reflexivity | apply _value_key_raises_ValueError | exact Hin | exact Hkey]. }
  assert (Hfirst : values_read f None = (Raise ValueError, names)).
  { unfold values_read. unfold function_values in Hrun. simpl in *.
    rewrite Hv in *. now rewrite Hrun. }
  split; [exact Hkey|]. split; [exact Hrun|]. split; [exact Hfirst|].
  destruct names as [|x r]; [destruct Hin|].
  split; [reflexivity|]. split.
  - intros Hnone.
    now rewrite (_fan_speed_values_run w f Hvals), (speed_count_run w f _ Hvals),
      Hnone, Hfirst.
  - intros Hsome.
    rewrite (_fan_speed_values_run w f Hvals), Hsome, values_read_hit.
    rewrite (with_values_same _ _ _ Hsome). now rewrite with_self_self.
Qed.

Lemma fan_speed_without_number_raises_witness :
  (In "off" [ "fan-speed-050"; "off" ] /\ PyInt.parse (last3 "off") = None)
  /\ values_read (wrap_function HubspaceFanFunctionCls unnumbered_speeds) None
     = (Raise ValueError, [ "fan-speed-050"; "off" ])
  /\ values_read (wrap_function HubspaceFanFunctionCls unnumbered_speeds)
       (Some [ "fan-speed-050"; "off" ])
     = (Ok [ "fan-speed-050"; "off" ], [ "fan-speed-050"; "off" ]).
Proof.
  assert (Hin : In "off" [ "fan-speed-050"; "off" ]) by (right; now left).
  split; [split; [exact Hin | reflexivity]|].
  destruct (fan_speed_without_number_raises (fan_with [unnumbered_speeds])
              unnumbered_speeds [ "fan-speed-050"; "off" ] "off" 100
              eq_refl eq_refl eq_refl Hin eq_refl)
    as (_ & _ & H3 & H4 & _).
  now split.
Defined.

(** ** The values of a function, in the order of texts *)









(** ** The list of presets *)

Lemma state_at_entries {A} (c : string) (i : option string) (x : A)
    (m : PyDict.t string (InstanceMap A)) :
  state_at c i m = Some x -> exists inner, In (c, inner) m /\ In (i, x) inner.
Proof.
  unfold state_at, instances_of.
  destruct (PyDict.get String.eqb c m) as [inner|] eqn:Hc; [|discriminate].
  intros Hi. exists inner. split.
  - now apply (get_In String.eqb String.eqb_eq).
  - now apply (get_In opt_str_eqb opt_str_eqb_eq).
Qed.

Lemma named_instances_keys {A} (inner : InstanceMap A) (name : string) :
  In name (named_instances inner) <-> In (Some name) (PyDict.keys inner).
Proof.
  split; [|apply named_instances_In].
  unfold PyDict.keys.
  induction inner as [|[[i|] x] r IH]; simpl; [intros []| |].
  - intros [->|H]; [now left | right; now apply IH].
  - intros H. right. now apply IH.
Qed.

Lemma _functions_step_listed (cls : FunctionCls) (l : list FunctionData)
    (m : FunctionMap) (d : FunctionData) :
  In d l -> listed_under l m -> listed_under l (_functions_step cls m d).
Proof.
  intros Hd Hm. unfold _functions_step.
  set (f := {| fn_cls := cls; fn_data := d |}).
  assert (Hm1 : listed_under l
                  (if negb (PyDict.mem String.eqb (function_class f) m)
                   then PyDict.set String.eqb (function_class f) [] m else m)).
  { destruct (negb _); [|exact Hm].
    intros c inner i g Hin Hg.
    apply (In_set String.eqb String.eqb_eq) in Hin as [[-> ->]|Hin]; [destruct Hg|].
    eapply Hm; eassumption. }
  destruct (PyDict.get String.eqb (function_class f) _) as [inner0|] eqn:Hget;
    [|exact Hm1].
  apply (get_In String.eqb String.eqb_eq) in Hget.
  intros c inner i g Hin Hg.
  apply (In_set String.eqb String.eqb_eq) in Hin as [[-> ->]|Hin].
  - apply (In_set opt_str_eqb opt_str_eqb_eq) in Hg as [[-> ->]|Hg].
    + now split.
    + eapply Hm1; eassumption.
  - eapply Hm1; eassumption.
Qed.

Lemma functions_listed (e : HubspaceEntity) :
  listed_under (description_functions e) (functions e).
Proof.
  unfold functions.
  assert (H : forall l m, incl l (description_functions e) ->
                          listed_under (description_functions e) m ->
                          listed_under (description_functions e)
                            (fold_left (_functions_step (_function_class e)) l m)).
  { induction l as [|x l IH]; intros m Hl Hm; [exact Hm|].
    simpl. apply IH.
    - intros y Hy. apply Hl. now right.
    - apply _functions_step_listed; [apply Hl; now left | exact Hm]. }
  apply H; [apply incl_refl|].
  intros c inner i f [].
Qed.

Lemma named_in_catalog (e : HubspaceEntity) (name : string) :
  In name (flat_map (fun function => named_instances function)
             (PyDict.values (functions e)))
  <-> exists d, In d (description_functions e) /\ fn_functionInstance d = Some name.
Proof.
  rewrite in_flat_map. split.
  - intros (inner & Hinner & Hname).
    unfold PyDict.values in Hinner.
    apply in_map_iff in Hinner as ([c inner'] & <- & Hc). simpl in Hname.
    apply named_instances_keys in Hname. unfold PyDict.keys in Hname.
    apply in_map_iff in Hname as ([i f] & Hi & Hf). simpl in Hi. subst i.
    destruct (functions_listed e c inner' (Some name) f Hc Hf) as [Hinst Hd].
    exists (fn_data f). split; [exact Hd | exact Hinst].
  - intros (d & Hd & Hinst).
    assert (Hat : state_at (listed_class d) (Some name) (functions e) <> None).
    { unfold functions. rewrite functions_from.
      destruct (find _ _) as [d'|] eqn:Hf; [discriminate|].
      exfalso.
      assert (Hm : function_matches (listed_class d) (Some name) d = true)
        by now apply function_matches_spec.
      rewrite (find_none _ _ Hf d) in Hm; [discriminate|]. now apply -> in_rev. }
    destruct (state_at (listed_class d) (Some name) (functions e)) as [f|] eqn:E;
      [|congruence].
    apply state_at_entries in E as (inner & Hc & Hi).
    exists inner. split.
    + unfold PyDict.values. apply in_map_iff. now exists (listed_class d, inner).
    + apply named_instances_keys. unfold PyDict.keys.
      apply in_map_iff. now exists (Some name, f).
Qed.

(** X14.  [preset_modes] is empty exactly when no listed function has
    an instance; otherwise it starts with "auto", and besides "auto" it
    holds exactly the instance names of the listed functions: of every
    class, not of the toggles only, and the empty name as well. *)
Theorem preset_modes_lists_named_instances (e : HubspaceEntity) :
  (preset_modes e = []
   <-> forall d, In d (description_functions e) -> fn_functionInstance d = None)
  /\ (preset_modes e <> [] -> hd_error (preset_modes e) = Some "auto")
  /\ (forall name,
        In name (preset_modes e)
        <-> (exists d, In d (description_functions e)
                       /\ fn_functionInstance d = Some name)
            \/ (name = "auto"
                /\ exists d, In d (description_functions e)
                             /\ fn_functionInstance d <> None)).
Proof.
  pose proof (named_in_catalog e) as Hnamed. unfold preset_modes.
  destruct (flat_map (fun function => named_instances function)
              (PyDict.values (functions e))) as [|n l] eqn:Hl.
  - assert (Hnone : forall d, In d (description_functions e) ->
                              fn_functionInstance d = None).
    { intros d Hd. destruct (fn_functionInstance d) as [name|] eqn:E; [|reflexivity].
      exfalso. apply (proj2 (Hnamed name)). now exists d. }
    split; [tauto|]. split; [congruence|].
    intros name. split; [intros []|].
    intros [(d & Hd & E)|(_ & d & Hd & E)].
    + rewrite (Hnone d Hd) in E. discriminate.
    + now apply E, Hnone.
  - split; [|split; [reflexivity|]].
    + split; [discriminate|]. intros Hnone. exfalso.
      destruct (proj1 (Hnamed n) (or_introl eq_refl)) as (d & Hd & E).
      rewrite (Hnone d Hd) in E. discriminate.
    + intros name. split.
      * intros [<-|Hin].
        -- right. split; [reflexivity|].
           destruct (proj1 (Hnamed n) (or_introl eq_refl)) as (d & Hd & E).
           exists d. split; [exact Hd | congruence].
        -- left. now apply Hnamed.
      * intros [H|[-> _]]; [right; now apply Hnamed | now left].
Qed.

(** ** Local writes followed by a push *)

Lemma set_hass_value_raw (s : HubspaceStateValue) (v : Value) :
  function_class s <> FunctionClass.AVAILABLE ->
  function_class s <> FunctionClass.BRIGHTNESS ->
  set_hass_value s v = Ok (set_hubspace_value s v)
  /\ hass_value s = Ok (hubspace_value s).
Proof.
  intros Ha Hb. apply String.eqb_neq in Ha, Hb.
  unfold set_hass_value, hass_value, Base.set_hass_value, Base.hass_value.
  rewrite Ha, Hb. now destruct (sv_cls s).
Qed.

Lemma set_hass_value_all_raw (inner : InstanceMap HubspaceStateValue) (v : Value)
    (c : string) :
  c <> FunctionClass.AVAILABLE ->
  c <> FunctionClass.BRIGHTNESS ->
  (forall i s, In (i, s) inner -> function_class s = c) ->
  set_hass_value_all inner v
  = Ok (map (fun p => (fst p, set_hubspace_value (snd p) v)) inner).
Proof.
  intros Ha Hb. induction inner as [|[i s] r IH]; intros Hc; simpl; [reflexivity|].
  destruct (set_hass_value_raw s v) as [Hs _].
  { now rewrite (Hc i s (or_introl eq_refl)). }
  { now rewrite (Hc i s (or_introl eq_refl)). }
  rewrite Hs, IH; [reflexivity|].
  intros i0 s0 H0. apply (Hc i0 s0). now right.
Qed.

Lemma get_map_values {A} (g : A -> A) (i : option string) (inner : InstanceMap A) :
  PyDict.get opt_str_eqb i (map (fun p => (fst p, g (snd p))) inner)
  = option_map g (PyDict.get opt_str_eqb i inner).
Proof.
  induction inner as [|[k x] r IH]; simpl; [reflexivity|].
  now destruct (opt_str_eqb i k).
Qed.

Lemma keys_map_values {A} (g : A -> A) (inner : InstanceMap A) :
  PyDict.keys (map (fun p => (fst p, g (snd p))) inner) = PyDict.keys inner.
Proof.
  unfold PyDict.keys. rewrite map_map. now apply map_ext.
Qed.

Lemma set_truthy {A} (c : string) (inner : InstanceMap A)
    (m : PyDict.t string (InstanceMap A)) :
  exists p r, PyDict.set String.eqb c inner m = p :: r.
Proof.
  destruct m as [|[c0 inner0] r]; simpl; [now eexists _, _|].
  destruct (String.eqb c c0); now eexists _, _.
Qed.

Lemma class_write_run (w : World) (m : StateMap) (c : string) (v : Value) :
  _states (self w) = Some m ->
  states_truthy (Some m) = true ->
  well_keyed m ->
  c <> FunctionClass.AVAILABLE ->
  c <> FunctionClass.BRIGHTNESS ->
  exists ma,
    _set_state_value (ClassKey c) v w
    = Ok (tt, with_self w (with_states (self w) (Some ma)))
    /\ well_keyed ma
    /\ states_truthy (Some ma) = true
    /\ (forall i, state_at c i ma
                  = option_map (fun s => set_hubspace_value s v) (state_at c i m))
    /\ (forall c' i, c' <> c -> state_at c' i ma = state_at c' i m).
Proof.
  intros Hm Ht Hwk Ha Hb.
  assert (Hl : loaded (self w) = self w) by (apply loaded_truthy; now rewrite Hm).
  rewrite (_set_state_value_class_run w m c v) by now rewrite Hl.
  rewrite Hl.
  destruct (PyDict.get String.eqb c m) as [inner|] eqn:Hget.
  - pose proof (get_In String.eqb String.eqb_eq _ _ _ Hget) as Hc.
    destruct Hwk as [Hn Hk]. destruct (Hk c inner Hc) as [Hni Hki].
    rewrite (set_hass_value_all_raw inner v c Ha Hb)
      by (intros i s Hs; now destruct (Hki i s Hs)).
    set (inner' := map (fun p => (fst p, set_hubspace_value (snd p) v)) inner).
    exists (PyDict.set String.eqb c inner' m).
    split; [reflexivity|]. split; [|split; [|split]].
    + apply well_keyed_set; [now split | unfold inner';
        now rewrite (keys_map_values (fun s => set_hubspace_value s v)) |].
      intros i s' Hs'. unfold inner' in Hs'.
      apply in_map_iff in Hs' as ([i0 s0] & E & Hs0). simpl in E.
      injection E as <- <-.
      destruct (set_hubspace_value_key s0 v) as (_ & K2 & K3 & _).
      rewrite K2, K3. now apply Hki.
    + destruct (set_truthy c inner' m) as (p & r & E). now rewrite E.
    + intros i. rewrite state_at_set_same. unfold inner'.
      rewrite (get_map_values (fun s => set_hubspace_value s v)).
      unfold state_at, instances_of. now rewrite Hget.
    + intros c' i Hne. apply state_at_set_other. congruence.
  - exists m. rewrite (with_states_same _ m Hm).
    split; [reflexivity|]. split; [exact Hwk|]. split; [exact Ht|]. split.
    + intros i. unfold state_at, instances_of. now rewrite Hget.
    + reflexivity.
Qed.

Lemma state_at_write_state (m : StateMap) (c c' : string) (i i' : option string)
    (s : HubspaceStateValue) :
  state_at c' i' (write_state c i s m)
  = if String.eqb c c' && opt_str_eqb i i' then Some s else state_at c' i' m.
Proof.
  unfold write_state.
  destruct (String.eqb c c') eqn:Hc; simpl.
  - apply String.eqb_eq in Hc. subst c'. rewrite state_at_set_same.
    destruct (opt_str_eqb i i') eqn:Hi.
    + apply opt_str_eqb_eq in Hi. subst i'.
      apply (get_set_same opt_str_eqb opt_str_eqb_eq).
    + apply (get_set_other opt_str_eqb opt_str_eqb_eq).
      intros E. apply opt_str_eqb_eq in E. congruence.
  - apply String.eqb_neq in Hc. now apply state_at_set_other.
Qed.

Lemma tuple_write_run (w : World) (m : StateMap) (c : string) (i : option string)
    (v : Value) :
  _states (self w) = Some m ->
  states_truthy (Some m) = true ->
  well_keyed m ->
  c <> FunctionClass.AVAILABLE ->
  c <> FunctionClass.BRIGHTNESS ->
  exists mb,
    _set_state_value (TupleKey c i) v w
    = Ok (tt, with_self w (with_states (self w) (Some mb)))
    /\ well_keyed mb
    /\ states_truthy (Some mb) = true
    /\ (forall c' i',
          state_at c' i' mb
          = if String.eqb c c' && opt_str_eqb i i'
            then option_map (fun s => set_hubspace_value s v) (state_at c i m)
            else state_at c' i' m).
Proof.
  intros Hm Ht Hwk Ha Hb.
  assert (Hl : loaded (self w) = self w) by (apply loaded_truthy; now rewrite Hm).
  rewrite (_set_state_value_tuple_run w m c i v) by now rewrite Hl.
  rewrite Hl.
  destruct (state_at c i m) as [s|] eqn:Hat.
  - destruct (state_at_keyed c i s m Hwk Hat) as (Hc & _ & _).
    destruct (set_hass_value_raw s v) as [Hs _]; [congruence | congruence |].
    rewrite Hs.
    exists (write_state c i (set_hubspace_value s v) m).
    split; [reflexivity|]. split; [|split].
    + now apply write_state_well_keyed with s.
    + apply write_state_truthy.
    + intros c' i'. apply state_at_write_state.
  - exists m. rewrite (with_states_same _ m Hm).
    split; [reflexivity|]. split; [exact Hwk|]. split; [exact Ht|].
    intros c' i'.
    destruct (String.eqb c c') eqn:Hc; simpl; [|reflexivity].
    destruct (opt_str_eqb i i') eqn:Hi; [|reflexivity].
    apply String.eqb_eq in Hc. apply opt_str_eqb_eq in Hi. subst. exact Hat.
Qed.

Lemma tuple_write_toggle_value (m mb : StateMap) (mode : string) (v : Value) :
  (forall c' i',
      state_at c' i' mb
      = if String.eqb FunctionClass.TOGGLE c' && opt_str_eqb (Some mode) i'
        then option_map (fun s => set_hubspace_value s v)
               (state_at FunctionClass.TOGGLE (Some mode) m)
        else state_at c' i' m) ->
  forall i,
    toggle_value mb i
    = match toggle_value m i with
      | Some old => Some (if opt_str_eqb (Some mode) i then v else old)
      | None => None
      end.
Proof.
  intros H i. unfold toggle_value. rewrite H, String.eqb_refl. cbn [andb].
  destruct (opt_str_eqb (Some mode) i) eqn:E.
  - apply opt_str_eqb_eq in E. subst i.
    now destruct (state_at FunctionClass.TOGGLE (Some mode) m).
  - now destruct (state_at FunctionClass.TOGGLE i m).
Qed.

Lemma toggles_named_written (m m' : StateMap) (f : option string -> Value -> Value) :
  toggles_named m ->
  (forall i v, v <> VNone -> f i v <> VNone) ->
  (forall i, toggle_value m' i
             = match toggle_value m i with
               | Some v => Some (f i v)
               | None => None
               end) ->
  toggles_named m'.
Proof.
  intros Hn Hf H i v Hv. rewrite H in Hv.
  destruct (toggle_value m i) as [old|] eqn:E; [|discriminate].
  injection Hv as <-. destruct (Hn i old E) as [Hi Hold].
  split; [exact Hi | now apply Hf].
Qed.

Lemma is_mode_spec (modes : list string) (i : option string) :
  is_mode modes i = true <-> exists name, i = Some name /\ In name modes.
Proof.
  unfold is_mode. rewrite existsb_exists. split.
  - intros (name & Hin & E). apply opt_str_eqb_eq in E. now exists name.
  - intros (name & -> & Hin). exists name. split; [exact Hin|].
    now apply opt_str_eqb_eq.
Qed.

Lemma _push_state_sends (T : Transport) (t : Z) (w w' : World) :
  _push_state T t w = Ok (tt, w') ->
  exists tok state_payload,
    sent w' = sent w ++ [ PostToken (_refresh_token (self w));
                          PutState (_account_id (self w)) (id (self w)) tok
                            state_payload ].
Proof.
  intros H. apply _push_state_inv in H as (tok & m & _ & H).
  now exists tok, (push_payload (self w) (t * 1000) m).
Qed.

(** X15.  [set_preset_mode] on a fan that holds a non-empty state map
    with one entry per key, whose toggle states all have an instance
    name and a value, with a vendor that grants tokens and echoes what is
    put.  With "auto", the toggle states whose instance is in
    [preset_modes] become "disabled" and every other toggle state keeps
    its value; with another mode, the toggle state of that instance
    becomes "enabled" and every other toggle state keeps its value, so
    that a preset that was enabled stays enabled; no toggle state is
    created.  In both cases one token request and one PUT are sent, also
    when no state was written, and the next poll is marked to be
    skipped. *)
Theorem set_preset_mode_writes_toggles (T : Transport) (t : Z) (w : World)
    (m : StateMap) (mode : string) :
  grants_tokens T ->
  echoes_puts T ->
  _states (self w) = Some m ->
  states_truthy (Some m) = true ->
  well_keyed m ->
  toggles_named m ->
  exists w',
    set_preset_mode T t mode w = Ok (tt, w')
    /\ (forall i,
          toggles_of (self w') i
          = match toggle_value m i with
            | Some v => Some (preset_written (preset_modes (self w)) mode i v)
            | None => None
            end)
    /\ _skip_next_update (self w') = true
    /\ exists tok state_payload,
         sent w' = sent w ++ [ PostToken (_refresh_token (self w));
                               PutState (_account_id (self w)) (id (self w)) tok
                                 state_payload ].
Proof.
  intros Hg He Hm Ht Hwk Hnamed.
  assert (Hwrite : exists mb,
             (if String.eqb mode "auto"
              then e <- get_self ;;
                   for_each (fun mode0 =>
                               _set_state_value
                                 (TupleKey FunctionClass.TOGGLE (Some mode0))
                                 (VStr TOGGLE_DISABLED)) (preset_modes e)
              else _set_state_value (TupleKey FunctionClass.TOGGLE (Some mode))
                     (VStr TOGGLE_ENABLED)) w
             = Ok (tt, with_self w (with_states (self w) (Some mb)))
             /\ well_keyed mb
             /\ states_truthy (Some mb) = true
             /\ forall i,
                  toggle_value mb i
                  = match toggle_value m i with
                    | Some v => Some (preset_written (preset_modes (self w)) mode i v)
                    | None => None
                    end).
  { unfold preset_written. destruct (String.eqb mode "auto").
    - unfold bind at 1. unfold get_self at 1.
      fold (disable_presets (preset_modes (self w))).
      destruct (disable_presets_run (preset_modes (self w)) w m Hwk Hm Ht)
        as (mb & Hrun & Hwkb & Htb & Htv).
      exists mb. split; [exact Hrun|]. split; [exact Hwkb|].
      split; [exact Htb | exact Htv].
    - destruct (tuple_write_run w m FunctionClass.TOGGLE (Some mode)
                  (VStr TOGGLE_ENABLED) Hm Ht Hwk)
        as (mb & Hrun & Hwkb & Htb & Hat); [discriminate | discriminate |].
      exists mb. split; [exact Hrun|]. split; [exact Hwkb|]. split; [exact Htb|].
      now apply tuple_write_toggle_value. }
  destruct Hwrite as (mb & Hrun & Hwkb & Htb & Htv).
  set (wb := with_self w (with_states (self w) (Some mb))) in *.
  destruct (_push_state_echo T t wb mb Hg He eq_refl Htb) as (w' & Hpush & Hself).
  exists w'. split; [|split; [|split]].
  - unfold set_preset_mode. unfold bind at 1. now rewrite Hrun.
  - intros i. unfold toggles_of. rewrite Hself. simpl.
    rewrite echo_toggle_value; [apply Htv | exact Hwkb |].
    apply (toggles_named_written m mb
             (preset_written (preset_modes (self w)) mode) Hnamed); [|exact Htv].
    intros i0 v Hv. unfold preset_written.
    destruct (String.eqb mode "auto");
      [destruct (is_mode _ i0) | destruct (opt_str_eqb _ i0)];
      try exact Hv; discriminate.
  - now rewrite Hself.
  - apply _push_state_sends in Hpush. exact Hpush.
Qed.

Lemma set_preset_mode_writes_toggles_witness :
  (_states (self sample_loaded_world) = Some sample_states
   /\ states_truthy (Some sample_states) = true
   /\ well_keyed sample_states
   /\ toggles_named sample_states)
  /\ exists w',
       set_preset_mode sample_vendor 1650000001 "sleep" sample_loaded_world = Ok (tt, w')
       /\ (forall i,
             toggles_of (self w') i
             = match toggle_value sample_states i with
               | Some v =>
                   Some (preset_written (preset_modes (self sample_loaded_world))
                           "sleep" i v)
               | None => None
               end)
       /\ _skip_next_update (self w') = true
       /\ exists tok state_payload,
            sent w' = sent sample_loaded_world
                      ++ [ PostToken (_refresh_token (self sample_loaded_world));
                           PutState (_account_id (self sample_loaded_world))
                             (id (self sample_loaded_world)) tok state_payload ].
Proof.
  assert (Hwk : well_keyed sample_states) by apply parsed_states_well_keyed.
  assert (Hn : toggles_named sample_states).
  { intros i v. unfold toggle_value, state_at. simpl.
    destruct (opt_str_eqb i (Some "sleep")) eqn:E1.
    - apply opt_str_eqb_eq in E1. subst i. intros H. injection H as <-.
      split; [reflexivity | discriminate].
    - destruct (opt_str_eqb i (Some "eco")) eqn:E2; [|discriminate].
      apply opt_str_eqb_eq in E2. subst i. intros H. injection H as <-.
      split; [reflexivity | discriminate]. }
  split; [split; [reflexivity | split; [reflexivity | split; [exact Hwk | exact Hn]]]|].
  apply (set_preset_mode_writes_toggles sample_vendor 1650000001 sample_loaded_world
           sample_states "sleep").
  - now exists (fun _ _ => Some "token-1").
  - now intros history account_id device_id tok state_payload.
  - reflexivity.
  - reflexivity.
  - exact Hwk.
  - exact Hn.
Defined.

(** ** Power *)

Lemma settable_supported (c : string) :
  settable c = true ->
  c <> FunctionClass.AVAILABLE /\ c <> FunctionClass.UNSUPPORTED.
Proof.
  intros H. split; intros ->; discriminate H.
Qed.

Lemma has_state_values {A} (c : string) (m : PyDict.t string (InstanceMap A)) :
  PyDict.values (instances_of c m) <> [] <-> exists i x, state_at c i m = Some x.
Proof.
  unfold state_at. split.
  - destruct (instances_of c m) as [|[i x] r]; [intros H; now elim H|].
    intros _. exists i, x. simpl.
    now rewrite (eqb_refl_true opt_str_eqb opt_str_eqb_eq).
  - intros (i & x & H).
    destruct (instances_of c m); [discriminate | discriminate].
Qed.

Lemma has_state_truthy {A} (c : string) (i : option string) (x : A)
    (m : PyDict.t string (InstanceMap A)) :
  state_at c i m = Some x -> exists p r, m = p :: r.
Proof.
  destruct m as [|p r]; [discriminate|]. intros _. now exists p, r.
Qed.

Lemma echo_class_states (cls : StateValueCls) (t : Z) (M : StateMap) (c : string)
    (v : Value) :
  well_keyed M ->
  (forall i s, state_at c i M = Some s -> hubspace_value s = v) ->
  forall i s',
    state_at c i (parsed_states cls (push_values t M)) = Some s' ->
    hubspace_value s' = v.
Proof.
  intros Hwk Hall i s' Hat.
  apply echo_state_at_origin in Hat as (s & Hs & _ & -> & Hc & _).
  destruct (all_states_state_at M s Hwk Hs) as [Hat _].
  rewrite Hc in Hat. exact (Hall _ _ Hat).
Qed.

Lemma echo_class_nonempty (cls : StateValueCls) (t : Z) (M : StateMap) (c : string)
    (v : Value) :
  well_keyed M ->
  settable c = true ->
  v <> VNone ->
  (forall i s, state_at c i M = Some s -> hubspace_value s = v) ->
  (exists i s, state_at c i M = Some s) ->
  exists i' s', state_at c i' (parsed_states cls (push_values t M)) = Some s'.
Proof.
  intros Hwk Hset Hv Hall (i0 & s0 & Hat).
  destruct (state_at_keyed c i0 s0 M Hwk Hat) as (Hc & Hi & Hu).
  assert (Hp : pushed s0 = true).
  { unfold pushed. rewrite (Hall _ _ Hat), Hc, Hset.
    now destruct v. }
  set (i' := if str_truthy (function_instance s0) then function_instance s0 else None).
  exists i'. unfold parsed_states. rewrite parsed_states_from.
  destruct (find (entry_matches c i') (rev (push_values t M))) as [en|] eqn:Hf;
    [now eexists|].
  exfalso.
  assert (Hm : entry_matches c i' (push_entry t s0) = true).
  { apply entry_matches_push_entry. rewrite Hc. now repeat split. }
  rewrite (find_none _ _ Hf (push_entry t s0)) in Hm; [discriminate|].
  apply -> in_rev. unfold push_values. apply in_map, filter_In.
  split; [now apply state_at_all_states with c i0 | exact Hp].
Qed.

Lemma class_read_after_echo (cls : StateValueCls) (t : Z) (M : StateMap) (c : string)
    (x : string) (w1 : World) (default : Value) :
  well_keyed M ->
  settable c = true ->
  c <> FunctionClass.BRIGHTNESS ->
  (forall i s, state_at c i M = Some s -> hubspace_value s = VStr x) ->
  (exists i s, state_at c i M = Some s) ->
  _states (self w1) = Some (parsed_states cls (push_values t M)) ->
  exists w2,
    _get_state_value (ClassKey c) default w1 = Ok (VStr x, w2)
    /\ self w2 = self w1
    /\ sent w2 = sent w1.
Proof.
  intros Hwk Hset Hb Hall Hex Hs1.
  pose proof (parsed_states_well_keyed cls (push_values t M)) as Hwk1.
  pose proof (echo_class_states cls t M c (VStr x) Hwk Hall) as Hvals.
  destruct (echo_class_nonempty cls t M c (VStr x) Hwk Hset ltac:(discriminate) Hall Hex)
    as (i' & s' & Hat').
  remember (parsed_states cls (push_values t M)) as M1 eqn:HM1.
  assert (Hl : loaded (self w1) = self w1).
  { apply loaded_truthy. rewrite Hs1.
    destruct (has_state_truthy c i' s' M1 Hat') as (p & r & ->). reflexivity. }
  rewrite (_get_state_value_class_run w1 M1 c default) by now rewrite Hl.
  rewrite Hl, with_self_self.
  destruct (PyDict.values (instances_of c M1)) as [|first rest] eqn:Hv.
  { exfalso. apply (proj2 (has_state_values c M1)); [now exists i', s' | exact Hv]. }
  destruct (values_In (instances_of c M1) first) as [i1 Hi1]; [rewrite Hv; now left|].
  pose proof (state_at_of_In c _ i1 first M1 Hwk1 (instances_of_In c i1 first M1 Hi1) Hi1)
    as Hat1.
  destruct (state_at_keyed c i1 first M1 Hwk1 Hat1) as (Hc1 & _ & _).
  destruct (settable_supported c Hset) as [Ha _].
  destruct (set_hass_value_raw first VNone) as [_ Hh]; [congruence | congruence |].
  rewrite Hh, (Hvals i1 first Hat1).
  destruct rest; eexists; (split; [reflexivity | split; reflexivity]).
Qed.

Lemma class_written (m ma : StateMap) (c : string) (v : Value) :
  (forall i, state_at c i ma
             = option_map (fun s => set_hubspace_value s v) (state_at c i m)) ->
  (forall i s, state_at c i ma = Some s -> hubspace_value s = v)
  /\ ((exists i s, state_at c i m = Some s) -> exists i s, state_at c i ma = Some s).
Proof.
  intros H. split.
  - intros i s Hs. rewrite H in Hs.
    destruct (state_at c i m); [|discriminate]. simpl in Hs. now injection Hs as <-.
  - intros (i & s & Hs). exists i. rewrite H, Hs. now eexists.
Qed.

(** X16.  [turn_off] of a fan or a light that holds a state map with one
    entry per key and at least one state of the "power" class, with a
    vendor that grants tokens and echoes what is put: the call returns,
    [is_on] reads [False] afterwards, and the next poll is marked to be
    skipped.  An entity whose map has no power state reads as off.  The
    only thing assumed of the platform is that its two state texts
    differ. *)
Theorem turn_off_reads_off (STATE_ON STATE_OFF : string) (T : Transport) (t : Z)
    (w : World) (m : StateMap) :
  STATE_ON <> STATE_OFF ->
  grants_tokens T ->
  echoes_puts T ->
  _states (self w) = Some m ->
  well_keyed m ->
  (exists i s, state_at FunctionClass.POWER i m = Some s) ->
  (exists w1 w2,
      turn_off STATE_OFF T t w = Ok (tt, w1)
      /\ is_on STATE_ON STATE_OFF w1 = Ok (false, w2)
      /\ _skip_next_update (self w1) = true)
  /\ (forall w0 m0,
        _states (loaded (self w0)) = Some m0 ->
        PyDict.values (instances_of FunctionClass.POWER m0) = [] ->
        is_on STATE_ON STATE_OFF w0 = Ok (false, with_self w0 (loaded (self w0)))).
Proof.
  intros Hne Hg He Hm Hwk Hex.
  assert (Hoff : String.eqb STATE_OFF STATE_ON = false).
  { apply String.eqb_neq. congruence. }
  split.
  - assert (Ht : states_truthy (Some m) = true).
    { destruct Hex as (i & s & Hs).
      destruct (has_state_truthy _ i s m Hs) as (p & r & ->). reflexivity. }
    destruct (class_write_run w m FunctionClass.POWER (VStr STATE_OFF) Hm Ht Hwk)
      as (ma & Hrun & Hwka & Hta & Hpow & _); [discriminate | discriminate |].
    destruct (class_written m ma _ _ Hpow) as [Hall Hex'].
    set (wa := with_self w (with_states (self w) (Some ma))) in *.
    destruct (_push_state_echo T t wa ma Hg He eq_refl Hta) as (w1 & Hpush & Hself).
    assert (Hs1 : _states (self w1)
                  = Some (parsed_states (_state_value_class (self wa))
                            (push_values (t * 1000) ma))) by now rewrite Hself.
    destruct (class_read_after_echo _ _ ma FunctionClass.POWER STATE_OFF w1
                (VStr STATE_OFF) Hwka eq_refl ltac:(discriminate) Hall (Hex' Hex) Hs1)
      as (w2 & Hread & _).
    exists w1, w2. split; [|split].
    + unfold turn_off, bind. now rewrite Hrun.
    + unfold is_on, bind. rewrite Hread. unfold ret. simpl. now rewrite Hoff.
    + now rewrite Hself.
  - intros w0 m0 Hm0 Hnone. unfold is_on, bind.
    rewrite (_get_state_value_class_run w0 m0 _ _ Hm0), Hnone.
    unfold ret. simpl. now rewrite Hoff.
Qed.

Lemma turn_off_reads_off_witness :
  ("on" <> "off"
   /\ _states (self sample_power_world) = Some sample_power_states
   /\ well_keyed sample_power_states
   /\ exists i s, state_at FunctionClass.POWER i sample_power_states = Some s)
  /\ exists w1 w2,
       turn_off "off" sample_vendor 1650000001 sample_power_world = Ok (tt, w1)
       /\ is_on "on" "off" w1 = Ok (false, w2)
       /\ _skip_next_update (self w1) = true.
Proof.
  assert (Hne : "on" <> "off") by discriminate.
  assert (Hwk : well_keyed sample_power_states) by apply parsed_states_well_keyed.
  assert (Hex : exists i s, state_at FunctionClass.POWER i sample_power_states = Some s).
  { exists (Some "fan-power"). eexists. reflexivity. }
  split; [split; [exact Hne | split; [reflexivity | split; [exact Hwk | exact Hex]]]|].
  assert (Hg : grants_tokens sample_vendor) by now exists (fun _ _ => Some "token-1").
  assert (He : echoes_puts sample_vendor)
    by now intros history account_id device_id tok state_payload.
  exact (proj1 (turn_off_reads_off "on" "off" sample_vendor 1650000001
                  sample_power_world sample_power_states Hne Hg He eq_refl Hwk Hex)).
Defined.

(** X17.  [turn_on] of a fan without a percentage, under the same
    conditions and with toggle states that all have an instance name
    and a value: the call returns and [is_on] reads [True] afterwards;
    with a preset, the toggle state of that instance becomes "enabled"
    and every other toggle state keeps its value (the preset "auto" is
    no exception: no toggle is disabled); without a preset no toggle
    state changes.  Power and preset travel in one push. *)
Theorem turn_on_reads_on (STATE_ON STATE_OFF : string)
    (percentage_to_ordered_list_item : option (list string) -> Z -> Result string)
    (T : Transport) (t : Z) (w : World) (m : StateMap) (preset : option string) :
  grants_tokens T ->
  echoes_puts T ->
  _states (self w) = Some m ->
  well_keyed m ->
  toggles_named m ->
  (exists i s, state_at FunctionClass.POWER i m = Some s) ->
  exists w1 w2,
    turn_on STATE_ON percentage_to_ordered_list_item T t None preset w = Ok (tt, w1)
    /\ is_on STATE_ON STATE_OFF w1 = Ok (true, w2)
    /\ (forall i,
          toggles_of (self w1) i
          = match toggle_value m i with
            | Some v =>
                Some match preset with
                     | Some mode =>
                         if opt_str_eqb (Some mode) i then VStr TOGGLE_ENABLED else v
                     | None => v
                     end
            | None => None
            end)
    /\ _skip_next_update (self w1) = true
    /\ exists tok state_payload,
         sent w1 = sent w ++ [ PostToken (_refresh_token (self w));
                               PutState (_account_id (self w)) (id (self w)) tok
                                 state_payload ].
Proof.
  intros Hg He Hm Hwk Hnamed Hex.
  assert (Ht : states_truthy (Some m) = true).
  { destruct Hex as (i & s & Hs).
    destruct (has_state_truthy _ i s m Hs) as (p & r & ->). reflexivity. }
  destruct (class_write_run w m FunctionClass.POWER (VStr STATE_ON) Hm Ht Hwk)
    as (ma & Hrun & Hwka & Hta & Hpow & Hother); [discriminate | discriminate |].
  destruct (class_written m ma _ _ Hpow) as [Hall Hex'].
  specialize (Hex' Hex).
  set (wa := with_self w (with_states (self w) (Some ma))) in *.
  assert (Hwrite : exists mb,
             match preset with
             | Some mode =>
                 _set_state_value (TupleKey FunctionClass.TOGGLE (Some mode))
                   (VStr TOGGLE_ENABLED)
             | None => ret tt
             end wa
             = Ok (tt, with_self w (with_states (self w) (Some mb)))
             /\ well_keyed mb
             /\ states_truthy (Some mb) = true
             /\ (forall i, state_at FunctionClass.POWER i mb
                           = state_at FunctionClass.POWER i ma)
             /\ forall i,
                  toggle_value mb i
                  = match toggle_value m i with
                    | Some v =>
                        Some match preset with
                             | Some mode =>
                                 if opt_str_eqb (Some mode) i
                                 then VStr TOGGLE_ENABLED else v
                             | None => v
                             end
                    | None => None
                    end).
  { assert (Htva : forall i, toggle_value ma i = toggle_value m i).
    { intros i. unfold toggle_value. now rewrite Hother by discriminate. }
    destruct preset as [mode|].
    - destruct (tuple_write_run wa ma FunctionClass.TOGGLE (Some mode)
                  (VStr TOGGLE_ENABLED) eq_refl Hta Hwka)
        as (mb & Hrunb & Hwkb & Htb & Hat); [discriminate | discriminate |].
      exists mb. split; [exact Hrunb|]. split; [exact Hwkb|]. split; [exact Htb|].
      split.
      + intros i. now rewrite Hat.
      + intros i. rewrite (tuple_write_toggle_value ma mb mode _ Hat), Htva.
        reflexivity.
    - exists ma. split; [reflexivity|]. split; [exact Hwka|]. split; [exact Hta|].
      split; [reflexivity|].
      intros i. rewrite Htva. now destruct (toggle_value m i). }
  destruct Hwrite as (mb & Hrunb & Hwkb & Htb & Hpowb & Htvb).
  set (wb := with_self w (with_states (self w) (Some mb))) in *.
  destruct (_push_state_echo T t wb mb Hg He eq_refl Htb) as (w1 & Hpush & Hself).
  assert (Hs1 : _states (self w1)
                = Some (parsed_states (_state_value_class (self wb))
                          (push_values (t * 1000) mb))) by now rewrite Hself.
  assert (Hallb : forall i s, state_at FunctionClass.POWER i mb = Some s ->
                              hubspace_value s = VStr STATE_ON).
  { intros i s Hs. rewrite Hpowb in Hs. now apply Hall with i. }
  assert (Hexb : exists i s, state_at FunctionClass.POWER i mb = Some s).
  { destruct Hex' as (i & s & Hs). exists i, s. now rewrite Hpowb. }
  destruct (class_read_after_echo _ _ mb FunctionClass.POWER STATE_ON w1
              (VStr STATE_OFF) Hwkb eq_refl ltac:(discriminate) Hallb Hexb Hs1)
    as (w2 & Hread & _).
  exists w1, w2. split; [|split; [|split; [|split]]].
  - unfold turn_on. unfold bind at 1. rewrite Hrun.
    unfold bind at 1. unfold ret at 1.
    unfold bind at 1. fold wa. now rewrite Hrunb.
  - unfold is_on, bind. rewrite Hread. unfold ret. simpl.
    now rewrite String.eqb_refl.
  - intros i. unfold toggles_of. rewrite Hself. simpl.
    rewrite echo_toggle_value; [apply Htvb | exact Hwkb |].
    apply (toggles_named_written m mb
             (fun i v => match preset with
                         | Some mode =>
                             if opt_str_eqb (Some mode) i then VStr TOGGLE_ENABLED else v
                         | None => v
                         end) Hnamed); [|exact Htvb].
    intros i0 v Hv. destruct preset; [destruct (opt_str_eqb _ i0)|];
      try exact Hv; discriminate.
  - now rewrite Hself.
  - apply _push_state_sends in Hpush. exact Hpush.
Qed.

Lemma turn_on_reads_on_witness :
  (_states (self sample_power_world) = Some sample_power_states
   /\ well_keyed sample_power_states
   /\ toggles_named sample_power_states
   /\ exists i s, state_at FunctionClass.POWER i sample_power_states = Some s)
  /\ exists w1 w2,
       turn_on "on" (fun _ _ => Raise ValueError) sample_vendor 1650000001 None
         (Some "sleep") sample_power_world = Ok (tt, w1)
       /\ is_on "on" "off" w1 = Ok (true, w2).
Proof.
  assert (Hwk : well_keyed sample_power_states) by apply parsed_states_well_keyed.
  assert (Hex : exists i s, state_at FunctionClass.POWER i sample_power_states = Some s).
  { exists (Some "fan-power"). eexists. reflexivity. }
  assert (Hn : toggles_named sample_power_states).
  { intros i v. unfold toggle_value, state_at. simpl.
    destruct (opt_str_eqb i (Some "sleep")) eqn:E1; [|discriminate].
    apply opt_str_eqb_eq in E1. subst i. intros H. injection H as <-.
    split; [reflexivity | discriminate]. }
  split; [split; [reflexivity | split; [exact Hwk | split; [exact Hn | exact Hex]]]|].
  assert (Hg : grants_tokens sample_vendor) by now exists (fun _ _ => Some "token-1").
  assert (He : echoes_puts sample_vendor)
    by now intros history account_id device_id tok state_payload.
  destruct (turn_on_reads_on "on" "off" (fun _ _ => Raise ValueError) sample_vendor
              1650000001 sample_power_world sample_power_states (Some "sleep")
              Hg He eq_refl Hwk Hn Hex)
    as (w1 & w2 & H1 & H2 & _).
  now exists w1, w2.
Defined.

(** ** A direct state write *)

Lemma find_map {A B} (P : B -> bool) (f : A -> B) (l : list A) :
  find P (map f l) = option_map f (find (fun x => P (f x)) l).
Proof.
  induction l as [|x l IH]; simpl; [reflexivity|].
  now destruct (P (f x)).
Qed.

Lemma payload_entry_stamp (c : string) (i : option string) (utc_time : Z)
    (vals : list ValueObject) :
  payload_entry c i (map (stamp utc_time) vals)
  = option_map (stamp utc_time) (payload_entry c i vals).
Proof.
  unfold payload_entry. rewrite <- map_rev, find_map. reflexivity.
Qed.

(** X18.  [set_state] with a vendor that grants tokens and echoes what is
    put, from any entity (it does not read the state map, which may be
    missing): the call returns; the PUT carries the given values in
    their order, each with its lastUpdateTime replaced by the one
    timestamp of the call, in milliseconds; the state map is replaced by
    the parse of these values, so that a key reads the last value given
    for it, stamped; and the next poll is marked to be skipped. *)
Theorem set_state_stamps_every_value (T : Transport) (t : Z) (vals : list ValueObject)
    (w : World) :
  grants_tokens T ->
  echoes_puts T ->
  let cls := _state_value_class (self w) in
  exists w' tok,
    set_state T t vals w = Ok (tt, w')
    /\ sent w' = sent w
                 ++ [ PostToken (_refresh_token (self w));
                      PutState (_account_id (self w)) (id (self w)) tok
                        {| metadeviceId := id (self w);
                           values := Some (map (stamp (t * 1000)) vals) |} ]
    /\ Forall2 (fun v en =>
                  functionClass en = functionClass v
                  /\ functionInstance en = functionInstance v
                  /\ value en = value v
                  /\ lastUpdateTime en = Some (t * 1000))
         vals (map (stamp (t * 1000)) vals)
    /\ _states (self w') = Some (parsed_states cls (map (stamp (t * 1000)) vals))
    /\ (forall c i,
          state_at c i (parsed_states cls (map (stamp (t * 1000)) vals))
          = option_map (fun v => wrap cls (stamp (t * 1000) v)) (payload_entry c i vals))
    /\ _skip_next_update (self w') = true.
Proof.
  intros [token_of Hg] He cls.
  eexists _, (token_of (sent w) (_refresh_token (self w))).
  split; [apply set_state_run; [apply Hg | apply He]|].
  split; [reflexivity|]. split; [|split; [|split; [|reflexivity]]].
  - induction vals as [|v l IH]; simpl; constructor; [now repeat split | exact IH].
  - simpl. rewrite _set_state_entity_truthy; [reflexivity|].
    simpl. now destruct (id (self w)).
  - intros c i. unfold parsed_states. rewrite parsed_states_from.
    fold (payload_entry c i (map (stamp (t * 1000)) vals)).
    rewrite payload_entry_stamp.
    now destruct (payload_entry c i vals).
Qed.

Lemma set_state_stamps_every_value_witness :
  (grants_tokens sample_vendor /\ echoes_puts sample_vendor)
  /\ exists w' tok,
       set_state sample_vendor 1650000001 [ sample_toggle "eco" "enabled" ] stateless_world
       = Ok (tt, w')
       /\ sent w' = sent stateless_world
                    ++ [ PostToken (_refresh_token (self stateless_world));
                         PutState (_account_id (self stateless_world))
                           (id (self stateless_world)) tok
                           {| metadeviceId := id (self stateless_world);
                              values := Some (map (stamp (1650000001 * 1000))
                                                [ sample_toggle "eco" "enabled" ]) |} ].
Proof.
  assert (Hg : grants_tokens sample_vendor) by now exists (fun _ _ => Some "token-1").
  assert (He : echoes_puts sample_vendor)
    by now intros history account_id device_id tok state_payload.
  split; [split; [exact Hg | exact He]|].
  destruct (set_state_stamps_every_value sample_vendor 1650000001
              [ sample_toggle "eco" "enabled" ] stateless_world Hg He)
    as (w' & tok & H1 & H2 & _).
  now exists w', tok.
Defined.

(** ** The speed of a fan, set by percentage *)

Lemma same_but_values_refl (e : HubspaceEntity) : same_but_values e e.
Proof. now repeat split. Qed.

Lemma same_but_values_with_values (e : HubspaceEntity) (f : HubspaceFunction)
    (l : list string) :
  same_but_values e (with_values e f l).
Proof. now repeat split. Qed.

Lemma read_values_frame (f : HubspaceFunction) (w w0 : World) (l : list string) :
  read_values f w = Ok (l, w0) ->
  same_but_values (self w) (self w0) /\ sent w0 = sent w.
Proof.
  rewrite read_values_run.
  destruct (values_read f (cached_values (self w) f)) as [[vs|e] cache]; [|discriminate].
  intros H. injection H as _ <-.
  split; [apply same_but_values_with_values | reflexivity].
Qed.

Lemma _get_function_values_frame (w w0 : World) (key : FunctionKey)
    (default r : option (list string)) :
  _get_function_values key default w = Ok (r, w0) ->
  same_but_values (self w) (self w0) /\ sent w0 = sent w.
Proof.
  destruct key as [c|c i].
  - rewrite _get_function_values_class_run.
    destruct (PyDict.values (instances_of c (functions (self w)))) as [|f rest].
    + intros H. injection H as _ <-. split; [apply same_but_values_refl | reflexivity].
    + destruct (values_read f (cached_values (self w) f)) as [[vs|e] cache];
        [|discriminate].
      intros H. injection H as _ <-.
      split; [apply same_but_values_with_values | now destruct rest].
  - unfold _get_function_values, bind, get_self. simpl.
    destruct (state_at c i (functions (self w))) as [f|].
    + destruct (read_values f w) as [[vs w1]|e] eqn:E; [|discriminate].
      unfold ret. intros H. injection H as _ <-.
      exact (read_values_frame f w w1 vs E).
    + intros H. injection H as _ <-.
      split; [apply same_but_values_refl | reflexivity].
Qed.

Lemma _fan_speed_values_frame (w w0 : World) (r : option (list string)) :
  _fan_speed_values w = Ok (r, w0) ->
  same_but_values (self w) (self w0) /\ sent w0 = sent w.
Proof.
  unfold _fan_speed_values. intros H.
  apply bind_ok in H as (a & w1 & Hm & H).
  apply _get_function_values_frame in Hm.
  destruct a as [[|x rest]|]; unfold ret in H; injection H as _ <-; exact Hm.
Qed.

Lemma _push_state_echo_sent (T : Transport) (t : Z) (w : World) (m : StateMap) :
  grants_tokens T ->
  echoes_puts T ->
  _states (self w) = Some m ->
  states_truthy (Some m) = true ->
  exists w' tok,
    _push_state T t w = Ok (tt, w')
    /\ self w'
       = with_skip_next_update
           (with_states (self w)
              (Some (parsed_states (_state_value_class (self w))
                       (push_values (t * 1000) m))))
           true
    /\ sent w' = sent w ++ [ PostToken (_refresh_token (self w));
                             PutState (_account_id (self w)) (id (self w)) tok
                               {| metadeviceId := id (self w);
                                  values := Some (push_values (t * 1000) m) |} ].
Proof.
  intros [token_of Hg] He Hm Ht.
  assert (Hl : loaded (self w) = self w).
  { apply loaded_truthy. now rewrite Hm. }
  eexists _, (token_of (sent w) (_refresh_token (self w))). split; [|split].
  - erewrite _push_state_run; [reflexivity | apply Hg | rewrite Hl; exact Hm | apply He].
  - simpl. rewrite Hl. rewrite _set_state_entity_truthy; [reflexivity|].
    simpl. now destruct (id (self w)).
  - reflexivity.
Qed.

(** X19.  [set_percentage] of a fan hands the platform's function the
    list that [_fan_speed_values] returns (the sorted tokens without the
    lowest one) and the percentage.  When that function raises, so does
    [set_percentage].  When it returns a token, with a state map that
    has one entry per key and a fan-speed state, and a vendor that
    grants tokens and echoes what is put: every fan-speed state of the
    map gets the token as its raw value and no state of another class
    changes; the map so written is what the one PUT carries; after the
    echo every fan-speed state of the entity holds the token, each
    fan-speed state with an instance name is still there, and the
    fan-speed lookup reads the token; the next poll is marked to be
    skipped. *)
Theorem set_percentage_writes_the_token
    (percentage_to_ordered_list_item : option (list string) -> Z -> Result string)
    (T : Transport) (t : Z) (percentage : Z) (w w0 : World) (m : StateMap)
    (speeds : option (list string)) :
  grants_tokens T ->
  echoes_puts T ->
  _states (self w) = Some m ->
  well_keyed m ->
  (exists i s, state_at FunctionClass.FAN_SPEED i m = Some s) ->
  _fan_speed_values w = Ok (speeds, w0) ->
  (forall e,
      percentage_to_ordered_list_item speeds percentage = Raise e ->
      set_percentage percentage_to_ordered_list_item T t percentage w = Raise e)
  /\ (forall item,
        percentage_to_ordered_list_item speeds percentage = Ok item ->
        exists w1 tok ma m1,
          set_percentage percentage_to_ordered_list_item T t percentage w = Ok (tt, w1)
          /\ (forall i,
                state_at FunctionClass.FAN_SPEED i ma
                = option_map (fun s => set_hubspace_value s (VStr item))
                    (state_at FunctionClass.FAN_SPEED i m))
          /\ (forall i s,
                state_at FunctionClass.FAN_SPEED i ma = Some s ->
                hubspace_value s = VStr item)
          /\ (forall c i, c <> FunctionClass.FAN_SPEED ->
                          state_at c i ma = state_at c i m)
          /\ sent w1 = sent w ++ [ PostToken (_refresh_token (self w));
                                   PutState (_account_id (self w)) (id (self w)) tok
                                     {| metadeviceId := id (self w);
                                        values := Some (push_values (t * 1000) ma) |} ]
          /\ _states (self w1) = Some m1
          /\ (forall i s',
                state_at FunctionClass.FAN_SPEED i m1 = Some s' ->
                hubspace_value s' = VStr item)
          /\ (forall i s,
                state_at FunctionClass.FAN_SPEED i m = Some s ->
                str_truthy i = true ->
                exists s',
                  state_at FunctionClass.FAN_SPEED i m1 = Some s'
                  /\ hubspace_value s' = VStr item)
          /\ (forall default,
                exists w2,
                  _get_state_value (ClassKey FunctionClass.FAN_SPEED) default w1
                  = Ok (VStr item, w2))
          /\ _skip_next_update (self w1) = true).
Proof.
  intros Hg He Hm Hwk Hex Hspeeds.
  destruct (_fan_speed_values_frame w w0 speeds Hspeeds)
    as [(Hid & _ & _ & Hacc & Htok & _ & _ & Hst & _) Hsent0].
  split.
  - intros e Hraise. unfold set_percentage, bind. rewrite Hspeeds.
    unfold lift. now rewrite Hraise.
  - intros item Hitem.
    assert (Hm0 : _states (self w0) = Some m) by now rewrite Hst.
    assert (Ht : states_truthy (Some m) = true).
    { destruct Hex as (i & s & Hs).
      destruct (has_state_truthy _ i s m Hs) as (p & r & ->). reflexivity. }
    destruct (class_write_run w0 m FunctionClass.FAN_SPEED (VStr item) Hm0 Ht Hwk)
      as (ma & Hrun & Hwka & Hta & Hspeed & Hother); [discriminate | discriminate |].
    destruct (class_written m ma _ _ Hspeed) as [Hall Hex'].
    set (wa := with_self w0 (with_states (self w0) (Some ma))) in *.
    destruct (_push_state_echo_sent T t wa ma Hg He eq_refl Hta)
      as (w1 & tok & Hpush & Hself & Hsent).
    set (m1 := parsed_states (_state_value_class (self wa)) (push_values (t * 1000) ma))
      in *.
    assert (Hs1 : _states (self w1) = Some m1) by now rewrite Hself.
    exists w1, tok, ma, m1.
    split; [|split; [exact Hspeed|split; [exact Hall|split; [exact Hother|]]]].
    { unfold set_percentage. unfold bind at 1. rewrite Hspeeds.
      unfold bind at 1. unfold lift at 1. rewrite Hitem.
      unfold bind at 1. now rewrite Hrun. }
    split.
    { rewrite Hsent. simpl. now rewrite Hsent0, Htok, Hacc, Hid. }
    split; [exact Hs1|]. split; [|split; [|split]].
    + intros i s' Hs'. unfold m1 in Hs'.
      exact (echo_class_states _ _ ma _ (VStr item) Hwka Hall i s' Hs').
    + intros i s Hs Hi.
      assert (Hsa : state_at FunctionClass.FAN_SPEED i ma
                    = Some (set_hubspace_value s (VStr item))) by now rewrite Hspeed, Hs.
      assert (Hp : pushed (set_hubspace_value s (VStr item)) = true).
      { destruct (state_at_keyed _ i _ ma Hwka Hsa) as (Hc & _ & _).
        unfold pushed. now rewrite Hc. }
      exists (wrap (_state_value_class (self wa))
                (push_entry (t * 1000) (set_hubspace_value s (VStr item)))).
      unfold m1. rewrite (echo_state_at_named _ _ ma _ i Hwka Hi), Hsa, Hp.
      now split.
    + intros default.
      destruct (class_read_after_echo _ _ ma FunctionClass.FAN_SPEED item w1
                  default Hwka eq_refl ltac:(discriminate) Hall (Hex' Hex) Hs1)
        as (w2 & Hread & _).
      now exists w2.
    + now rewrite Hself.
Qed.

Lemma set_percentage_writes_the_token_witness :
  (grants_tokens sample_vendor
   /\ echoes_puts sample_vendor
   /\ _states (self sample_speed_world) = Some sample_speed_states
   /\ well_keyed sample_speed_states
   /\ (exists i s, state_at FunctionClass.FAN_SPEED i sample_speed_states = Some s)
   /\ _fan_speed_values sample_speed_world
      = Ok (Some [ "fan-speed-050"; "fan-speed-100" ],
            with_self sample_speed_world
              (with_values (self sample_speed_world)
                 (wrap_function HubspaceFanFunctionCls numbered_speeds)
                 [ "fan-speed-000"; "fan-speed-050"; "fan-speed-100" ]))
   /\ last_speed (Some [ "fan-speed-050"; "fan-speed-100" ]) 100 = Ok "fan-speed-100")
  /\ exists w1 w2,
       set_percentage last_speed sample_vendor 1650000001 100 sample_speed_world
       = Ok (tt, w1)
       /\ _get_state_value (ClassKey FunctionClass.FAN_SPEED) VNone w1
          = Ok (VStr "fan-speed-100", w2)
       /\ _skip_next_update (self w1) = true.
Proof.
  assert (Hg : grants_tokens sample_vendor) by now exists (fun _ _ => Some "token-1").
  assert (He : echoes_puts sample_vendor)
    by now intros history account_id device_id tok state_payload.
  assert (Hwk : well_keyed sample_speed_states) by apply parsed_states_well_keyed.
  assert (Hex : exists i s, state_at FunctionClass.FAN_SPEED i sample_speed_states = Some s).
  { exists (Some "fan-speed"). eexists. reflexivity. }
  assert (Hv : _fan_speed_values sample_speed_world
               = Ok (Some [ "fan-speed-050"; "fan-speed-100" ],
                     with_self sample_speed_world
                       (with_values (self sample_speed_world)
                          (wrap_function HubspaceFanFunctionCls numbered_speeds)
                          [ "fan-speed-000"; "fan-speed-050"; "fan-speed-100" ])))
    by reflexivity.
  split.
  { split; [exact Hg|]. split; [exact He|]. split; [reflexivity|].
    split; [exact Hwk|]. split; [exact Hex|]. split; [exact Hv | reflexivity]. }
  destruct (proj2 (set_percentage_writes_the_token last_speed sample_vendor 1650000001
                     100 sample_speed_world _ sample_speed_states
                     (Some [ "fan-speed-050"; "fan-speed-100" ])
                     Hg He eq_refl Hwk Hex Hv)
              "fan-speed-100" eq_refl)
    as (w1 & tok & ma & m1 & H1 & _ & _ & _ & _ & _ & _ & _ & Hread & Hskip).
  destruct (Hread VNone) as (w2 & H2).
  now exists w1, w2.
Defined.

(** ** The brightness of a light *)

(** X20.  The [brightness] property, with a state map that has one
    entry per key.  Without a brightness state it is [None].  On a
    light, with a first brightness state of raw value [raw] from 0 to
    100, it is [floor (raw * 255 / 100)], a number from 0 to 255; with a
    first brightness state whose raw value is null it raises
    [TypeError].  The state value class of the base entity would return
    the raw value unconverted. *)
Theorem light_brightness_is_scaled (w : World) (m : StateMap)
    (first : HubspaceStateValue) (rest : list HubspaceStateValue) :
  _states (loaded (self w)) = Some m ->
  well_keyed m ->
  PyDict.values (instances_of FunctionClass.BRIGHTNESS m) = first :: rest ->
  (sv_cls first = HubspaceLightStateValueCls ->
   (forall raw,
       hubspace_value first = VInt raw ->
       0 <= raw <= 100 ->
       exists w' h,
         brightness w = Ok (VInt h, w')
         /\ h = raw * 255 / 100
         /\ 0 <= h <= 255)
   /\ (hubspace_value first = VNone -> brightness w = Raise TypeError))
  /\ (sv_cls first = HubspaceStateValueCls ->
      exists w', brightness w = Ok (hubspace_value first, w'))
  /\ (forall w0 m0,
        _states (loaded (self w0)) = Some m0 ->
        PyDict.values (instances_of FunctionClass.BRIGHTNESS m0) = [] ->
        brightness w0 = Ok (VNone, with_self w0 (loaded (self w0)))).
Proof.
  intros Hm Hwk Hv.
  pose proof (first_value_keyed m _ first rest Hwk Hv) as Hc.
  pose proof (_get_state_value_class_run w m FunctionClass.BRIGHTNESS VNone Hm) as Hrun.
  rewrite Hv in Hrun. fold brightness in Hrun.
  split; [|split].
  - intros Hcls.
    assert (Hh : hass_value first = _brightness_to_hass (hubspace_value first)).
    { unfold hass_value. now rewrite Hcls, Hc. }
    split.
    + intros raw Hraw Hr. rewrite Hh, Hraw in Hrun. simpl in Hrun.
      pose proof (floor_div_bounds (raw * 255) 100 ltac:(lia)) as Hb.
      destruct rest; eexists _, _; (split; [exact Hrun | split; [reflexivity | lia]]).
    + intros Hnone. rewrite Hh, Hnone in Hrun. simpl in Hrun.
      now destruct rest.
  - intros Hcls. rewrite (hass_value_base_total first Hcls) in Hrun.
    assert (Hb : Base.hass_value first = hubspace_value first).
    { unfold Base.hass_value. now rewrite Hc. }
    rewrite Hb in Hrun. simpl in Hrun.
    destruct rest; eexists; exact Hrun.
  - intros w0 m0 Hm0 Hnone. unfold brightness.
    now rewrite (_get_state_value_class_run w0 m0 _ _ Hm0), Hnone.
Qed.

Lemma light_brightness_is_scaled_witness :
  (_states (loaded (self sample_light_world)) = Some sample_light_states
   /\ well_keyed sample_light_states)
  /\ exists w' h,
       brightness sample_light_world = Ok (VInt h, w')
       /\ h = 40 * 255 / 100
       /\ 0 <= h <= 255.
Proof.
  assert (Hwk : well_keyed sample_light_states) by apply parsed_states_well_keyed.
  split; [split; [reflexivity | exact Hwk]|].
  exact (proj1 (proj1 (light_brightness_is_scaled sample_light_world sample_light_states
                         _ [] eq_refl Hwk eq_refl) eq_refl)
           40 eq_refl ltac:(lia)).
Defined.
